(** * ObjectNameLookup: a shallow embedding of the lookup benchmark

    The development follows [src/ObjectNameLookup/ObjectNameLookup.cpp]:
    the name builders, the argument helper, the status check, the timer,
    the scoped handle, and the eight scenarios with the process entry
    point, run against an explicit model of the operating system. *)

From Stdlib Require Import ZArith Lia Ascii.
From Stdlib Require Import Floats.SpecFloat.
From Equations Require Import Equations.
From stdpp Require Import base list gmap strings pretty.

Local Open Scope Z_scope.

(** * Part I: the embedding *)

(** ** Machine-level data *)

(** [wchar_t] is a 16-bit code unit, [wstring] a sequence of them (embedded
    zeros are ordinary elements).  [HANDLE] is a pointer-sized value and
    [NTSTATUS] a signed 32-bit [LONG]; [time_point] counts the ticks of
    [high_resolution_clock], which are nanoseconds. *)
Definition wchar_t := Z.
Definition wstring := list wchar_t.
Definition HANDLE := Z.
Definition NTSTATUS := Z.
Definition time_point := Z.

Definition nullptr : HANDLE := 0.

Definition INT_MAX : Z := 2147483647.
Definition INT_MIN : Z := -2147483648.

(** A wide string literal [L"..."]: one code unit per character. *)
Definition L (s : string) : wstring :=
  (fun c => Z.of_N (Ascii.N_of_ascii c)) <$> String.list_ascii_of_string s.

(** ** Counting loops

    [for (int i = start; i < start + fuel; ++i) body(i)] over a value that
    the body updates.  The callers pass [Z.to_nat n] for the bound [i < n]
    of a loop that starts at 0, so a bound that is zero or negative runs
    no iteration. *)
Fixpoint for_int {S : Type} (i : Z) (fuel : nat) (body : Z -> S -> S) (s : S) : S :=
  match fuel with
  | O => s
  | S fuel' => for_int (i + 1) fuel' body (body i s)
  end.

(** ** Namespace path builder *)

Definition MakeNullString (count : Z) : wstring :=
  for_int 0 (Z.to_nat count) (fun _ ret => ret ++ [0]) [].

Definition MakeCollisionName (count : Z) : wstring :=
  MakeNullString count ++ L "A".

(** [wstringstream << i]: the decimal digits of [i], with a leading minus
    sign when negative. *)
Definition IntToString (i : Z) : wstring := L (pretty i).

(** Length of the run of zero characters at the front of a name. *)
Fixpoint zero_run (name : wstring) : nat :=
  match name with
  | c :: rest => if decide (c = 0) then S (zero_run rest) else O
  | [] => O
  end.

(** ** Argument helper *)

(** The C library's [atoi]: leading white space, an optional sign, then
    decimal digits up to the first other character.  A value outside [int]
    saturates, as the Universal C Runtime does. *)
Definition isspace (c : ascii) : bool :=
  let n := Ascii.N_of_ascii c in
  ((9 <=? n) && (n <=? 13) || (n =? 32))%N.

Definition digit_of (c : ascii) : option Z :=
  let n := Z.of_N (Ascii.N_of_ascii c) in
  if (48 <=? n) && (n <=? 57) then Some (n - 48) else None.

Fixpoint skip_space (s : string) : string :=
  match s with
  | String c rest => if isspace c then skip_space rest else s
  | EmptyString => s
  end.

Fixpoint atoi_digits (s : string) (acc : Z) : Z :=
  match s with
  | String c rest =>
      match digit_of c with
      | Some d => atoi_digits rest (acc * 10 + d)
      | None => acc
      end
  | EmptyString => acc
  end.

Definition clamp_int (z : Z) : Z := Z.max INT_MIN (Z.min INT_MAX z).

Definition atoi (s : string) : Z :=
  match skip_space s with
  | String "-" rest => clamp_int (- atoi_digits rest 0)
  | String "+" rest => clamp_int (atoi_digits rest 0)
  | rest => clamp_int (atoi_digits rest 0)
  end.

(** The conversion of an [int] to [size_t] in [args.size() > index]. *)
Definition size_t_of_int (i : Z) : Z := i mod 2 ^ 64.

Definition GetArg (args : list string) (index : Z) (def_value : Z) : Z :=
  let idx := size_t_of_int index in
  if bool_decide (Z.of_nat (length args) > idx) then
    if negb (String.eqb (args !!! Z.to_nat idx) "_")
    then atoi (args !!! Z.to_nat idx)
    else def_value
  else def_value.

(** ** Status codes *)

(** The platform macros, on the status read as a [ULONG].  [NT_ERROR] holds
    when the severity field, the two top bits, is 3; [NT_SUCCESS] when the
    status as a [LONG] is not negative, that is when the top bit is clear. *)
Definition ULONG_of (status : NTSTATUS) : Z := status mod 2 ^ 32.

Definition NT_ERROR (status : NTSTATUS) : bool :=
  Z.shiftr (ULONG_of status) 30 =? 3.

Definition NT_SUCCESS (status : NTSTATUS) : bool :=
  ULONG_of status <? 2 ^ 31.

Record NtException := { status : NTSTATUS }.

(** ** Doubles and the timer arithmetic *)

(** [double] is IEEE 754 binary64 (53 bits of precision, exponents below
    1024) with round-to-nearest-even, as the Standard Library specifies it. *)
Definition double := spec_float.

Definition double_of_Z (z : Z) : double := binary_normalize 53 1024 z 0 false.

Definition double_div (x y : double) : double := SFdiv 53 1024 x y.

(** [duration_cast<microseconds>] of a nanosecond count: integer division
    by 1000 that truncates toward zero. *)
Definition duration_cast_microseconds (d : Z) : Z := d ÷ 1000.

Record Timer := { m_start : time_point }.

(** The arithmetic of [Timer::GetTime] once the clock has been read. *)
Definition GetTime_at (t : Timer) (stop : time_point) (iterations : Z) : double :=
  let result := duration_cast_microseconds (stop - m_start t) in
  double_div (double_of_Z result) (double_of_Z iterations).

(** ** printf *)

(** [%08X]: the upper-case hexadecimal digits of the argument read as an
    [unsigned int], padded with zeros on the left to a width of 8. *)
Definition hex_digit (d : Z) : ascii :=
  Ascii.ascii_of_N (Z.to_N (if d <? 10 then 48 + d else 55 + d)).

Fixpoint hex_digits (fuel : nat) (n : Z) : list ascii :=
  match fuel with
  | O => []
  | S fuel' =>
      if n <? 16 then [hex_digit n]
      else hex_digits fuel' (n / 16) ++ [hex_digit (n mod 16)]
  end.

Definition printf_08X (v : Z) : string :=
  let digits := hex_digits 8 (ULONG_of v) in
  String.string_of_list_ascii
    (replicate (8 - length digits) "0"%char ++ digits).

(** One call of [printf], by format string. *)
Inductive Line :=
  | Line_us_for (t : double) (iterations : Z)   (* "%.2fus for %d iterations.\n" *)
  | Line_zu_f (size : Z) (t : double)           (* "%zu,%f\n" *)
  | Line_d_f (i : Z) (t : double)               (* "%d,%f\n" *)
  | Line_f (t : double)                         (* "%f\n" *)
  | Line_unknown_test (test_no : Z)             (* "Unknown test: %d.\n" *)
  | Line_error (hex : string)                   (* "Error in program: %08X\n" *)
  | Line_text (s : string).                     (* a format without conversions *)

(** ** The operating system *)

(** The kernel calls the program makes, with the arguments that name the
    object.  Access masks are always [MAXIMUM_ALLOWED]. *)
Inductive Syscall :=
  | NtCreateDirectoryObjectEx (name : wstring) (root shadow : HANDLE)
  | NtOpenDirectoryObject (name : wstring) (root : HANDLE)
  | NtCreateSymbolicLinkObject (name : wstring) (root : HANDLE) (target : wstring)
  | NtCreateEvent (name : wstring) (root : HANDLE)
  | NtOpenEvent (name : wstring) (root : HANDLE).

(** What the process does that the outside can observe, in order. *)
Inductive Event :=
  | EvSyscall (c : Syscall) (st : NTSTATUS) (out : HANDLE)
  | EvQueryName (h : HANDLE) (st : NTSTATUS) (name : wstring)
  | EvCloseHandle (h : HANDLE)
  | EvClock (t : time_point)
  | EvPrintf (l : Line).

(** What the program cannot decide: the status of each kernel call, the name
    a query returns, the clock, and the content of a [HANDLE] that has not
    been initialised, each a function of the number of events so far; and
    the growth of the library's [vector].  The vectors of the program start
    empty and grow by [emplace_back] alone, with no [reserve], so whether
    one has spare capacity depends on its size only: [vector_full n] says
    that a vector of [n] elements has none. *)
Record World := {
  nt_status : nat -> Syscall -> NTSTATUS;
  nt_name : nat -> HANDLE -> NTSTATUS * wstring;
  clock : nat -> time_point;
  indeterminate : nat -> HANDLE;
  vector_full : nat -> bool;
}.

Record Machine := {
  trace : list Event;
  issued : nat;
}.

Definition boot : Machine := {| trace := []; issued := 0 |}.

(** The [n]-th handle value the kernel hands out; never null. *)
Definition fresh_handle (n : nat) : HANDLE := 4 * (Z.of_nat n + 1).

Definition emit (e : Event) (m : Machine) : Machine :=
  {| trace := trace m ++ [e]; issued := issued m |}.

Definition issue (m : Machine) : Machine :=
  {| trace := trace m; issued := S (issued m) |}.

(** Several events in a row. *)
Definition emits (evs : list Event) (m : Machine) : Machine :=
  {| trace := trace m ++ evs; issued := issued m |}.

(** The [CloseHandle] calls of one [emplace_back] into a vector of [size]
    elements: when the vector is full its elements are moved to new storage
    and the emptied ones are destroyed, each closing [nullptr]. *)
Definition reallocation_closes (w : World) (size : nat) : list Event :=
  replicate (if vector_full w size then size else 0%nat) (EvCloseHandle nullptr).

(** ** Programs: state, exceptions, undefined behaviour *)

Inductive Result (A : Type) :=
  | Ok (a : A)
  | Throw (e : NtException)
  | Undefined.
Arguments Ok {A} a.
Arguments Throw {A} e.
Arguments Undefined {A}.

Definition Prog (St A : Type) : Type := St -> Result A * St.

Global Instance prog_ret {St} : MRet (Prog St) :=
  fun A (a : A) s => (Ok a, s).

Global Instance prog_bind {St} : MBind (Prog St) :=
  fun A B (k : A -> Prog St B) (m : Prog St A) s =>
    match m s with
    | (Ok a, s') => k a s'
    | (Throw e, s') => (Throw e, s')
    | (Undefined, s') => (Undefined, s')
    end.

Definition throw {St A} (e : NtException) : Prog St A := fun s => (Throw e, s).

Definition undefined {St A} : Prog St A := fun s => (Undefined, s).

(** Destructors that run when an exception leaves a scope; the exception
    goes on afterwards. *)
Definition unwinding {St A} (body : Prog St A) (cleanup : Prog St unit) : Prog St A :=
  fun s =>
    match body s with
    | (Throw e, s') => (Throw e, snd (cleanup s'))
    | other => other
    end.

(** Destructors that run however the scope is left. *)
Definition finally {St A} (body : Prog St A) (cleanup : Prog St unit) : Prog St A :=
  fun s =>
    let '(r, s') := body s in (r, snd (cleanup s')).

(** A scope with mutable locals [L]: the body runs on the locals paired with
    the machine; whatever the outcome, the destructors of the locals run on
    their last value. *)
Definition run_block {Loc A} (init : Loc) (body : Prog (Loc * Machine) A)
    (dtors : Loc -> Prog Machine unit) : Prog Machine A :=
  fun m =>
    let '(r, (l, m')) := body (init, m) in (r, snd (dtors l m')).

Definition lift {Loc A} (p : Prog Machine A) : Prog (Loc * Machine) A :=
  fun '(l, m) => let '(r, m') := p m in (r, (l, m')).

Definition get_locals {Loc} : Prog (Loc * Machine) Loc :=
  fun '(l, m) => (Ok l, (l, m)).

Definition set_locals {Loc} (l : Loc) : Prog (Loc * Machine) unit :=
  fun '(_, m) => (Ok tt, (l, m)).

(** [for (int i = start; ...; ++i)] with effects; an exception or undefined
    behaviour ends the loop. *)
Fixpoint for_prog {St} (i : Z) (fuel : nat) (body : Z -> Prog St unit) : Prog St unit :=
  match fuel with
  | O => mret tt
  | S fuel' => body i ;; for_prog (i + 1) fuel' body
  end.

Fixpoint for_each {St A} (l : list A) (body : A -> Prog St unit) : Prog St unit :=
  match l with
  | [] => mret tt
  | x :: rest => body x ;; for_each rest body
  end.

(** [try { body } catch (const NtException& ex) { handler }]. *)
Definition try_catch {St A} (body : Prog St A) (handler : NtException -> Prog St A)
    : Prog St A :=
  fun s =>
    match body s with
    | (Throw e, s') => handler e s'
    | other => other
    end.

Definition Check {St} (st : NTSTATUS) : Prog St unit :=
  if NT_ERROR st then throw {| status := st |} else mret tt.

(** ** Scoped handles *)

Record ScopedHandle := { m_handle : HANDLE }.

(** [explicit ScopedHandle(HANDLE handle)]. *)
Definition ScopedHandle_explicit (handle : HANDLE) : ScopedHandle :=
  {| m_handle := handle |}.

(** [ScopedHandle(ScopedHandle&& other)]: the new object, and [other] as
    the constructor leaves it. *)
Definition ScopedHandle_move (other : ScopedHandle) : ScopedHandle * ScopedHandle :=
  ({| m_handle := m_handle other |}, {| m_handle := nullptr |}).

Definition get (x : ScopedHandle) : HANDLE := m_handle x.

(** [front()] and [back()] of an empty vector are undefined. *)
Definition vector_front {St} (v : list ScopedHandle) : Prog St ScopedHandle :=
  match v with
  | x :: _ => mret x
  | [] => undefined
  end.

Definition vector_back {St} (v : list ScopedHandle) : Prog St ScopedHandle :=
  match last v with
  | Some x => mret x
  | None => undefined
  end.

(** ** Counted strings and object attributes *)

Record UNICODE_STRING := {
  Length : Z;
  MaximumLength : Z;
  Buffer : wstring;
}.

(** [Length] is the byte count cut to a [USHORT]. *)
Definition UnicodeString (str : wstring) : UNICODE_STRING :=
  let len := (Z.of_nat (length str) * 2) mod 65536 in
  {| Length := len; MaximumLength := len; Buffer := str |}.

(** The characters the kernel reads from a counted string. *)
Definition counted (u : UNICODE_STRING) : wstring :=
  take (Z.to_nat (Length u / 2)) (Buffer u).

Record OBJECT_ATTRIBUTES := {
  ObjectName : UNICODE_STRING;
  RootDirectory : HANDLE;
}.

Definition ObjectAttributes (str : wstring) (root : HANDLE) : OBJECT_ATTRIBUTES :=
  {| ObjectName := UnicodeString str; RootDirectory := root |}.

Section Program.

Context (w : World).

(** ** Primitive effects *)

Definition steps (m : Machine) : nat := length (trace m).

(** Reading a [HANDLE] that was declared without an initialiser. *)
Definition uninitialised : Prog Machine HANDLE :=
  fun m => (Ok (indeterminate w (steps m)), m).

(** A kernel call that returns a handle through a pointer: on success the
    kernel stores a handle it has not handed out before; otherwise the
    pointed-to value [out] stays as it was. *)
Definition syscall (c : Syscall) (out : HANDLE) : Prog Machine (NTSTATUS * HANDLE) :=
  fun m =>
    let st := nt_status w (steps m) c in
    if NT_SUCCESS st then
      let h := fresh_handle (issued m) in
      (Ok (st, h), issue (emit (EvSyscall c st h) m))
    else (Ok (st, out), emit (EvSyscall c st out) m).

(** [NtQueryObject] for the name, into a zeroed buffer: without success the
    name read back from the buffer is empty. *)
Definition NtQueryObject_name (handle : HANDLE) : Prog Machine (NTSTATUS * wstring) :=
  fun m =>
    let '(st, name) := nt_name w (steps m) handle in
    let name := if NT_SUCCESS st then name else [] in
    (Ok (st, name), emit (EvQueryName handle st name) m).

Definition CloseHandle (h : HANDLE) : Prog Machine unit :=
  fun m => (Ok tt, emit (EvCloseHandle h) m).

Definition now : Prog Machine time_point :=
  fun m => let t := clock w (steps m) in (Ok t, emit (EvClock t) m).

Definition printf (l : Line) : Prog Machine unit :=
  fun m => (Ok tt, emit (EvPrintf l) m).

(** ** Handles and timer, with effects *)

(** [ScopedHandle() = default]: the member is not initialised. *)
Definition ScopedHandle_default : Prog Machine ScopedHandle :=
  h ← uninitialised; mret {| m_handle := h |}.

Definition ScopedHandle_dtor (x : ScopedHandle) : Prog Machine unit :=
  CloseHandle (m_handle x).

(** A kernel call that writes through [handle.ptr()]. *)
Definition syscall_ptr (c : Syscall) (handle : ScopedHandle)
    : Prog Machine (NTSTATUS * ScopedHandle) :=
  '(st, h) ← syscall c (m_handle handle); mret (st, {| m_handle := h |}).

(** The destructor of [vector<ScopedHandle>]: first element to last. *)
Definition vector_dtor (v : list ScopedHandle) : Prog Machine unit :=
  for_each v ScopedHandle_dtor.

(** A vector without spare capacity takes new storage: the elements are
    move-constructed there, and the moved-from ones, which hold null, are
    destroyed, each by a [CloseHandle(nullptr)]. *)
Definition vector_reallocate (v : list ScopedHandle) : Prog Machine (list ScopedHandle) :=
  let moved := ScopedHandle_move <$> v in
  vector_dtor (snd <$> moved);;
  mret (fst <$> moved).

Definition vector_make_room (v : list ScopedHandle) : Prog Machine (list ScopedHandle) :=
  if vector_full w (length v) then vector_reallocate v else mret v.

(** [emplace_back] of a temporary move-constructs the new element and
    leaves the temporary to be destroyed by the caller; [emplace_back] of a
    raw [HANDLE] uses the explicit constructor. *)
Definition emplace_back_move (v : list ScopedHandle) (tmp : ScopedHandle)
    : Prog Machine (list ScopedHandle * ScopedHandle) :=
  let '(elem, tmp') := ScopedHandle_move tmp in
  v' ← vector_make_room v;
  mret (v' ++ [elem], tmp').

Definition emplace_back_handle (v : list ScopedHandle) (h : HANDLE)
    : Prog Machine (list ScopedHandle) :=
  let elem := ScopedHandle_explicit h in
  v' ← vector_make_room v;
  mret (v' ++ [elem]).

Definition Timer_new : Prog Machine Timer :=
  t ← now; mret {| m_start := t |}.

Definition GetTime (timer : Timer) (iterations : Z) : Prog Machine double :=
  stop ← now; mret (GetTime_at timer stop iterations).

(** ** Namespace operations

    Each operation declares a [ScopedHandle] without an initialiser, lets the
    kernel write the handle through [ptr()] and checks the status.  When the
    check throws, the local is destroyed with whatever it holds.  Otherwise
    the local is the returned object itself ([return handle;] constructs it
    in place). *)

Definition GetName (handle : HANDLE) : Prog Machine wstring :=
  '(st, name) ← NtQueryObject_name handle;
  Check st;;
  mret name.

Definition name (x : ScopedHandle) : Prog Machine wstring := GetName (m_handle x).

Definition CreateDirectory (name : wstring) (root shadow_dir : HANDLE)
    : Prog Machine ScopedHandle :=
  let obja := ObjectAttributes name root in
  handle ← ScopedHandle_default;
  '(st, handle) ← syscall_ptr
      (NtCreateDirectoryObjectEx (counted (ObjectName obja)) (RootDirectory obja)
         shadow_dir)
      handle;
  unwinding (Check st) (ScopedHandle_dtor handle);;
  mret handle.

Definition OpenDirectory (name : wstring) (root : HANDLE) : Prog Machine ScopedHandle :=
  let obja := ObjectAttributes name root in
  handle ← ScopedHandle_default;
  '(st, handle) ← syscall_ptr
      (NtOpenDirectoryObject (counted (ObjectName obja)) (RootDirectory obja)) handle;
  unwinding (Check st) (ScopedHandle_dtor handle);;
  mret handle.

Definition CreateLink (name : wstring) (root : HANDLE) (target : wstring)
    : Prog Machine ScopedHandle :=
  let obja := ObjectAttributes name root in
  let target_ustr := UnicodeString target in
  handle ← ScopedHandle_default;
  '(st, handle) ← syscall_ptr
      (NtCreateSymbolicLinkObject (counted (ObjectName obja)) (RootDirectory obja)
         (counted target_ustr))
      handle;
  unwinding (Check st) (ScopedHandle_dtor handle);;
  mret handle.

Definition CreateEvent (name : wstring) (root : HANDLE) : Prog Machine ScopedHandle :=
  let obja := ObjectAttributes name root in
  handle ← ScopedHandle_default;
  '(st, handle) ← syscall_ptr
      (NtCreateEvent (counted (ObjectName obja)) (RootDirectory obja)) handle;
  unwinding (Check st) (ScopedHandle_dtor handle);;
  mret handle.

(** ** The measured loop *)

(** The body of the loop of [RunTest]; the local is the vector [handles]. *)
Definition RunTest_open (obja : OBJECT_ATTRIBUTES)
    : Prog (list ScopedHandle * Machine) unit :=
  open_handle ← lift uninitialised;
  '(st, open_handle) ← lift
      (syscall (NtOpenEvent (counted (ObjectName obja)) (RootDirectory obja)) open_handle);
  Check st;;
  handles ← get_locals;
  handles ← lift (emplace_back_handle handles open_handle);
  set_locals handles.

Definition RunTest (name : wstring) (iterations : Z) (create_name : wstring)
    (root : HANDLE) : Prog Machine double :=
  let create_name := if decide (create_name = []) then name else create_name in
  event_handle ← CreateEvent create_name root;
  finally
    (let obja := ObjectAttributes name nullptr in
     run_block []
       (timer ← lift Timer_new;
        for_prog 0 (Z.to_nat iterations) (fun _ => RunTest_open obja);;
        lift (GetTime timer iterations))
       vector_dtor)
    (ScopedHandle_dtor event_handle).

(** ** Scenarios *)

Definition BaseNamedObjects : wstring := L "\BaseNamedObjects".
Definition BaseNamedObjects_A : wstring := L "\BaseNamedObjects\A".

(** [dirs.emplace_back(<temporary>)] as a statement: the element is moved
    in, then the temporary is destroyed. *)
Definition push_temporary (v : list ScopedHandle) (tmp : ScopedHandle)
    : Prog Machine (list ScopedHandle) :=
  '(v', tmp') ← emplace_back_move v tmp;
  ScopedHandle_dtor tmp';;
  mret v'.

Definition Test1 (args : list string) : Prog Machine unit :=
  let iterations := GetArg args 0 1000 in
  test1 ← RunTest (L "\BaseNamedObjects\{2F2C4C1D-FD52-47CA-BF97-CA72B6CA55F8}")
            iterations [] nullptr;
  printf (Line_us_for test1 iterations).

Equations? Test2_while (iterations : Z) (path : wstring) : Prog Machine unit
  by wf (Z.to_nat (32001 - Z.of_nat (length path))) lt :=
  Test2_while iterations path with decide (Z.of_nat (length path) <= 32000) := {
    | left _ =>
        result ← RunTest (BaseNamedObjects_A ++ path) iterations [] nullptr;
        printf (Line_zu_f (Z.of_nat (length path)) result);;
        Test2_while iterations (path ++ replicate 500 65)
    | right _ => mret tt }.
Proof. rewrite length_app, length_replicate. lia. Qed.

Definition Test2 (args : list string) : Prog Machine unit :=
  let iterations := GetArg args 0 1000 in
  Test2_while iterations [].

(** One round of the directory loop of [Test3]; the locals are [last_dir]
    and [dirs]. *)
Definition Test3_step (iterations : Z) (i : Z)
    : Prog ((HANDLE * list ScopedHandle) * Machine) unit :=
  '(last_dir, dirs) ← get_locals;
  tmp ← lift (CreateDirectory (L "A") last_dir nullptr);
  dirs ← lift (push_temporary dirs tmp);
  back ← vector_back dirs;
  let last_dir := get back in
  set_locals (last_dir, dirs);;
  if decide (Z.rem i 500 = 0) then
    dir_name ← lift (GetName last_dir);
    result ← lift (RunTest (dir_name ++ L "\X") iterations [] nullptr);
    lift (printf (Line_d_f (i + 1) result))
  else mret tt.

Definition Test3 (args : list string) : Prog Machine unit :=
  let iterations := GetArg args 0 1000 in
  let dir_count := GetArg args 1 16000 in
  base_dir ← OpenDirectory BaseNamedObjects nullptr;
  finally
    (run_block (get base_dir, [])
       (for_prog 0 (Z.to_nat dir_count) (Test3_step iterations))
       (fun '(_, dirs) => vector_dtor dirs))
    (ScopedHandle_dtor base_dir).

(** The locals of [Test4]: [last_dir], [dirs] and [links]. *)
Definition Test4_dir_step (i : Z)
    : Prog ((HANDLE * list ScopedHandle * list ScopedHandle) * Machine) unit :=
  '(last_dir, dirs, links) ← get_locals;
  tmp ← lift (CreateDirectory (L "A") last_dir nullptr);
  dirs ← lift (push_temporary dirs tmp);
  back ← vector_back dirs;
  set_locals (get back, dirs, links).

Definition Test4_link_step (last_dir_name : wstring) (i : Z)
    : Prog ((HANDLE * list ScopedHandle * list ScopedHandle) * Machine) unit :=
  '(last_dir, dirs, links) ← get_locals;
  tmp ← lift (CreateLink (IntToString i) last_dir
                (last_dir_name ++ L "\" ++ IntToString (i + 1)));
  links ← lift (push_temporary links tmp);
  set_locals (last_dir, dirs, links).

Definition Test4 (args : list string) : Prog Machine unit :=
  let iterations := GetArg args 0 10 in
  let dir_count := GetArg args 1 16000 in
  let symlink_count := GetArg args 2 63 in
  base_dir ← OpenDirectory BaseNamedObjects nullptr;
  finally
    (run_block (get base_dir, [], [])
       (for_prog 0 (Z.to_nat dir_count) Test4_dir_step;;
        '(last_dir, _, _) ← get_locals;
        last_dir_name ← lift (GetName last_dir);
        for_prog 0 (Z.to_nat symlink_count) (Test4_link_step last_dir_name);;
        '(_, _, links) ← get_locals;
        front ← vector_front links;
        link_name ← lift (name front);
        result ← lift (RunTest link_name iterations (IntToString symlink_count) last_dir);
        lift (printf (Line_f result)))
       (fun '(_, dirs, links) => vector_dtor links;; vector_dtor dirs))
    (ScopedHandle_dtor base_dir).

(** The timed statement of [Test5]: the handle that [OpenDirectory] returns
    is a temporary, destroyed at the end of the statement. *)
Definition Test5_open (base_dir_name : wstring) (base_dir : ScopedHandle) (j : Z)
    : Prog Machine unit :=
  tmp ← OpenDirectory base_dir_name (get base_dir);
  ScopedHandle_dtor tmp.

Definition Test5_step (iterations collision_count : Z) (base_dir_name : wstring)
    (base_dir : ScopedHandle) (i : Z) : Prog (list ScopedHandle * Machine) unit :=
  let name := MakeCollisionName (collision_count - i) in
  dirs ← get_locals;
  tmp ← lift (CreateDirectory name (get base_dir) nullptr);
  dirs ← lift (push_temporary dirs tmp);
  set_locals dirs;;
  if decide (Z.rem i 500 = 0) then
    timer ← lift Timer_new;
    lift (for_prog 0 (Z.to_nat iterations) (Test5_open base_dir_name base_dir));;
    t ← lift (GetTime timer iterations);
    lift (printf (Line_d_f i t))
  else mret tt.

Definition Test5 (args : list string) : Prog Machine unit :=
  let iterations := GetArg args 0 1000 in
  let collision_count := GetArg args 1 32000 in
  base_dir ← CreateDirectory BaseNamedObjects_A nullptr nullptr;
  finally
    (let base_dir_name := MakeCollisionName collision_count in
     run_block []
       (for_prog 0 (Z.to_nat collision_count)
          (Test5_step iterations collision_count base_dir_name base_dir))
       vector_dtor)
    (ScopedHandle_dtor base_dir).

(** The first loop of [Test6]: the names are collected in call order. *)
Definition Test6_names (collision_count : Z) : list wstring :=
  for_int 0 (Z.to_nat collision_count)
    (fun i names => names ++ [MakeCollisionName (collision_count - i)]) [].

Definition Test6_insert (base_dir : ScopedHandle) (name : wstring)
    : Prog (list ScopedHandle * Machine) unit :=
  dirs ← get_locals;
  tmp ← lift (CreateDirectory name (get base_dir) nullptr);
  dirs ← lift (push_temporary dirs tmp);
  set_locals dirs.

Definition Test6 (args : list string) : Prog Machine unit :=
  let collision_count := GetArg args 0 32000 in
  let names := Test6_names collision_count in
  base_dir ← CreateDirectory BaseNamedObjects_A nullptr nullptr;
  finally
    (run_block []
       (timer ← lift Timer_new;
        for_each names (Test6_insert base_dir);;
        t ← lift (GetTime timer 1);
        lift (printf (Line_f t)))
       vector_dtor)
    (ScopedHandle_dtor base_dir).

(** The name [Test7] opens at depth [i]. *)
Definition Test7_open_name (dir_name : wstring) (i : Z) : wstring :=
  for_int 0 (Z.to_nat i) (fun _ open_name => open_name ++ L "\A") dir_name ++ L "\X".

(** The loop of [Test7] from index [i]; the step [i += 500] is undefined
    when it leaves [int]. *)
Equations? Test7_loop (iterations dir_count : Z) (dir_name : wstring)
    (shadow_dir : ScopedHandle) (i : Z) : Prog Machine unit
  by wf (Z.to_nat (dir_count - i)) lt :=
  Test7_loop iterations dir_count dir_name shadow_dir i with decide (i < dir_count) := {
    | left _ =>
        result ← RunTest (Test7_open_name dir_name i) iterations (L "X") (get shadow_dir);
        printf (Line_d_f i result);;
        (if decide (i + 500 <= INT_MAX)
         then Test7_loop iterations dir_count dir_name shadow_dir (i + 500)
         else undefined)
    | right _ => mret tt }.
Proof. lia. Qed.

Definition Test7 (args : list string) : Prog Machine unit :=
  let iterations := GetArg args 0 1000 in
  let dir_count := GetArg args 1 16000 in
  let dir_name := BaseNamedObjects_A in
  shadow_dir ← CreateDirectory dir_name nullptr nullptr;
  finally
    (target_dir ← CreateDirectory (L "A") (get shadow_dir) (get shadow_dir);
     finally
       (Test7_loop iterations dir_count dir_name shadow_dir 0)
       (ScopedHandle_dtor target_dir))
    (ScopedHandle_dtor shadow_dir).

(** The locals of the inner block of [Test8]: [dirs] and [links]. *)
Definition Test8_dir_step (collision_count : Z) (shadow_dir : ScopedHandle) (i : Z)
    : Prog ((list ScopedHandle * list ScopedHandle) * Machine) unit :=
  '(dirs, links) ← get_locals;
  tmp ← lift (CreateDirectory (MakeCollisionName (collision_count - i))
                (get shadow_dir) nullptr);
  dirs ← lift (push_temporary dirs tmp);
  set_locals (dirs, links).

Definition Test8_link_step (last_dir_name : wstring) (shadow_dir : ScopedHandle) (i : Z)
    : Prog ((list ScopedHandle * list ScopedHandle) * Machine) unit :=
  '(dirs, links) ← get_locals;
  tmp ← lift (CreateLink (IntToString i) (get shadow_dir)
                (last_dir_name ++ L "\" ++ IntToString (i + 1)));
  links ← lift (push_temporary links tmp);
  set_locals (dirs, links).

Definition Test8 (args : list string) : Prog Machine unit :=
  let iterations := GetArg args 0 1000 in
  let dir_count := GetArg args 1 16000 in
  let symlink_count := GetArg args 2 1 in
  let collision_count := GetArg args 3 16000 in
  let dir_name := BaseNamedObjects_A in
  shadow_dir ← CreateDirectory dir_name nullptr nullptr;
  finally
    (target_dir ← CreateDirectory (L "A") (get shadow_dir) (get shadow_dir);
     finally
       (run_block ([], [])
          ((if decide (INT_MIN <= collision_count - 1)
            then for_prog 0 (Z.to_nat (collision_count - 1))
                   (Test8_dir_step collision_count shadow_dir)
            else undefined);;
           let last_dir_name :=
             for_int 0 (Z.to_nat dir_count) (fun _ s => s ++ L "\A") dir_name in
           lift (printf (Line_text "Created directories"));;
           for_prog 0 (Z.to_nat symlink_count) (Test8_link_step last_dir_name shadow_dir);;
           result ← lift (RunTest (last_dir_name ++ L "\0") 1 (IntToString symlink_count)
                            (get shadow_dir));
           lift (printf (Line_f result)))
          (fun '(dirs, links) => vector_dtor links;; vector_dtor dirs))
       (ScopedHandle_dtor target_dir))
    (ScopedHandle_dtor shadow_dir).

(** ** Entry point *)

Definition PrintHelp : Prog Machine unit :=
  printf (Line_text "Specify test:");;
  printf (Line_text "1 = Simple open.");;
  printf (Line_text "2 = Incrementing length name string.");;
  printf (Line_text "3 = Recursive directories.");;
  printf (Line_text "4 = Recursive symlinks.");;
  printf (Line_text "5 = Name collisions.");;
  printf (Line_text "6 = Collision insertion time.");;
  printf (Line_text "7 = Shadow directories.");;
  printf (Line_text "8 = Full test.").

(** The [switch] of [main]: [Some code] is a [return code] from inside the
    [try] block, [None] falls through to the end of [main]. *)
Definition dispatch (test_no : Z) (args : list string) : Prog Machine (option Z) :=
  match test_no with
  | 1 => Test1 args;; mret None
  | 2 => Test2 args;; mret None
  | 3 => Test3 args;; mret None
  | 4 => Test4 args;; mret None
  | 5 => Test5 args;; mret None
  | 6 => Test6 args;; mret None
  | 7 => Test7 args;; mret None
  | 8 => Test8 args;; mret None
  | _ => printf (Line_unknown_test test_no);; PrintHelp;; mret (Some 1)
  end.

(** [argv] holds the [argc] arguments, the program name first. *)
Definition main (argv : list string) : Prog Machine Z :=
  let argc := Z.of_nat (length argv) in
  if decide (argc < 2) then
    PrintHelp;; mret 1
  else
    early ← try_catch
      (let test_no := atoi (argv !!! 1%nat) in
       let args := drop 2 argv in
       dispatch test_no args)
      (fun ex => printf (Line_error (printf_08X (status ex)));; mret None);
    match early with
    | Some code => mret code
    | None => mret 0
    end.

End Program.

(** ** Observations on doubles and traces *)

(** [x] is a number (not NaN) whose sign bit is [s]. *)
Definition signed_as (s : bool) (x : double) : Prop :=
  match x with
  | S754_zero s' | S754_infinity s' | S754_finite s' _ _ => s' = s
  | S754_nan => False
  end.

(** [0.0 <= x] as the hardware compares. *)
Definition double_nonneg (x : double) : bool := SFleb (S754_zero false) x.

(** The events that [m'] has beyond [m]. *)
Definition new_events (m m' : Machine) : list Event :=
  drop (length (trace m)) (trace m').

Definition syscall_of (e : Event) : option Syscall :=
  match e with
  | EvSyscall c _ _ => Some c
  | _ => None
  end.

Definition line_of (e : Event) : option Line :=
  match e with
  | EvPrintf l => Some l
  | _ => None
  end.

(** The kernel calls of a trace, and the lines it prints, in order. *)
Definition syscalls (tr : list Event) : list Syscall := omap syscall_of tr.
Definition printed (tr : list Event) : list Line := omap line_of tr.

(** A namespace operation [op] that makes the kernel call [c]: it makes
    that call once and no other; an error status leaves it as the exception
    that carries the status, any other status as a returned handle. *)
Definition surfaces (w : World) (op : Prog Machine ScopedHandle) (c : Syscall) : Prop :=
  forall m : Machine,
    let st := nt_status w (steps m) c in
    syscalls (new_events m (snd (op m))) = [c]
    /\ fst (op m) = if NT_ERROR st
                    then Throw {| status := st |}
                    else Ok {| m_handle := if NT_SUCCESS st
                                           then fresh_handle (issued m)
                                           else indeterminate w (steps m) |}.

(** ** Two concrete worlds

    In [calm] every kernel call succeeds and the clock advances by 2.5 ms
    per event.  In [stormy] the calls made after the second event fail with
    [STATUS_OBJECT_NAME_NOT_FOUND], [0xC0000034].  In both the vector grows
    as the one of the Microsoft library does: by half its capacity, and by
    one element at least, so that it is full at the sizes 0, 1, 2, 3, 4, 6,
    9, 13, 19, ... *)
Definition msvc_growth (capacity : nat) : nat :=
  Nat.max (capacity + capacity / 2) (capacity + 1).

Fixpoint msvc_reaches (fuel capacity size : nat) : bool :=
  if (capacity =? size)%nat then true
  else if (size <? capacity)%nat then false
  else match fuel with
       | O => false
       | S fuel' => msvc_reaches fuel' (msvc_growth capacity) size
       end.

Definition msvc_full (size : nat) : bool := msvc_reaches size 0 size.

Definition calm : World := {|
  nt_status := fun _ _ => 0;
  nt_name := fun _ _ => (0, L "\BaseNamedObjects\A");
  clock := fun n => 2500000 * Z.of_nat n;
  indeterminate := fun _ => 3735928559;
  vector_full := msvc_full;
|}.

Definition stormy : World := {|
  nt_status := fun n _ => if (n <? 2)%nat then 0 else -1073741772;
  nt_name := fun _ _ => (0, L "\BaseNamedObjects\A");
  clock := fun n => 2500000 * Z.of_nat n;
  indeterminate := fun _ => 3735928559;
  vector_full := msvc_full;
|}.

(** [stale] is [stormy] with 8 as the content of every uninitialised
    [HANDLE]: the value of the second handle the kernel hands out. *)
Definition stale : World := {|
  nt_status := nt_status stormy;
  nt_name := nt_name stormy;
  clock := clock stormy;
  indeterminate := fun _ => 8;
  vector_full := msvc_full;
|}.

(** The scenario that [main] runs for a test number in 1..8. *)
Definition scenario (w : World) (test_no : Z) (args : list string) : Prog Machine unit :=
  match test_no with
  | 1 => Test1 w args
  | 2 => Test2 w args
  | 3 => Test3 w args
  | 4 => Test4 w args
  | 5 => Test5 w args
  | 6 => Test6 w args
  | 7 => Test7 w args
  | 8 => Test8 w args
  | _ => mret tt
  end.

(** ** Specifications of programs by the events they add *)

(** The machine inside the state of a program: the state itself, or the
    second component when the program runs on locals. *)
Class HasMachine (St : Type) := machine_of : St -> Machine.

Global Instance machine_itself : HasMachine Machine := fun m => m.
Global Instance machine_with_locals {Loc : Type} : HasMachine (Loc * Machine) := snd.

(** From every state, [p] only adds events of the class [C], and a value it
    returns satisfies [Q]. *)
Definition yields {St A : Type} `{HasMachine St} (C : Event -> Prop) (Q : A -> Prop)
    (p : Prog St A) : Prop :=
  forall s : St,
    exists evs : list Event,
      trace (machine_of (snd (p s))) = trace (machine_of s) ++ evs
      /\ Forall C evs
      /\ forall a : A, fst (p s) = Ok a -> Q a.

Definition is_close (e : Event) : bool :=
  match e with
  | EvCloseHandle _ => true
  | _ => false
  end.

(** Events that print nothing, and events that close a handle. *)
Definition quiet (e : Event) : Prop := line_of e = None.
Definition closing (e : Event) : Prop := is_close e = true.

Definition any_value {A : Type} (a : A) : Prop := True.

(** An event that, when it prints, prints the line of [Test6]: an elapsed
    time divided by the constant 1. *)
Definition reports_over_one (e : Event) : Prop :=
  forall l : Line, line_of e = Some l ->
    exists (timer : Timer) (stop : time_point), l = Line_f (GetTime_at timer stop 1).

(** From every state, the lines [p] prints and its outcome satisfy [P]. *)
Definition prints {St A : Type} `{HasMachine St} (P : Result A -> list Line -> Prop)
    (p : Prog St A) : Prop :=
  forall s : St,
    exists evs : list Event,
      trace (machine_of (snd (p s))) = trace (machine_of s) ++ evs
      /\ P (fst (p s)) (printed evs).

(** The loop indices at which [Test3] and [Test5] take a sample. *)
Definition sampled (i : Z) : Prop := Z.rem i 500 = 0.

Global Instance sampled_dec (i : Z) : Decision (sampled i) := decide (Z.rem i 500 = 0).

(** [l] is the line [Test3] prints for index [i]: the first field is [i + 1]. *)
Definition Test3_line (i : Z) (l : Line) : Prop :=
  exists t : double, l = Line_d_f (i + 1) t.

(** The lines of a run of the loop of [Test3] over the indices [from],
    [from + 1], ..., [from + fuel - 1]: one line per sampled index, in
    order; all of them when the loop completes, otherwise the lines of the
    first few sampled indices. *)
Definition Test3_lines (from : Z) (fuel : nat) (r : Result unit) (ls : list Line) : Prop :=
  exists idxs : list Z,
    Forall2 Test3_line idxs ls
    /\ idxs `prefix_of` filter sampled (seqZ from (Z.of_nat fuel))
    /\ (r = Ok tt -> idxs = filter sampled (seqZ from (Z.of_nat fuel))).

(** ** Handle lifetimes in a trace *)

(** The handle a kernel call leaves in the program's variable when the
    status check lets the program go on. *)
Definition kept_of (e : Event) : option HANDLE :=
  match e with
  | EvSyscall _ st h => if NT_ERROR st then None else Some h
  | _ => None
  end.

Definition kept (tr : list Event) : list HANDLE := omap kept_of tr.

(** The kernel calls of the scenarios return success or an error, never a
    warning status. *)
Definition kernel_sane (w : World) : Prop :=
  forall (n : nat) (c : Syscall),
    NT_SUCCESS (nt_status w n c) = true \/ NT_ERROR (nt_status w n c) = true.

(** Reading a trace for the retention of handles.  While [Holding], the
    handles of the successful calls that [tracks] selects are collected; the
    first close of a collected handle starts [Releasing], the run of
    destructors at the end of the scope, during which only closes may follow;
    any other event then is [Broken]: a handle was released while the scenario
    went on. *)
Inductive Phase :=
  | Holding (held : list HANDLE)
  | Releasing
  | Broken.

Definition scan_step (tracks : Syscall -> bool) (ph : Phase) (e : Event) : Phase :=
  match ph with
  | Holding held =>
      match e with
      | EvSyscall c st h =>
          if tracks c && NT_SUCCESS st then Holding (h :: held) else Holding held
      | EvCloseHandle h =>
          if bool_decide (h ∈ held) then Releasing else Holding held
      | _ => Holding held
      end
  | Releasing =>
      match e with
      | EvCloseHandle _ => Releasing
      | _ => Broken
      end
  | Broken => Broken
  end.

Definition scan (tracks : Syscall -> bool) (ph : Phase) (tr : list Event) : Phase :=
  foldl (scan_step tracks) ph tr.

(** Every handle that [tracks] selects stays open until the closing run of
    destructors. *)
Definition retained (tracks : Syscall -> bool) (tr : list Event) : bool :=
  match scan tracks (Holding []) tr with
  | Broken => false
  | _ => true
  end.

Definition every_handle (c : Syscall) : bool := true.

(** The handles a scenario stores in its own variables and vectors, where
    they stay until its scope ends: those of the directories and symbolic
    links it creates and of the directories it opens; in scenario 5 those
    of the directories it creates only, as the directories it opens there
    are temporaries of the timed statement.  The handles of the event
    objects are those of [RunTest]. *)
Definition scenario_kept (test_no : Z) (c : Syscall) : bool :=
  match c with
  | NtCreateDirectoryObjectEx _ _ _ | NtCreateSymbolicLinkObject _ _ _ => true
  | NtOpenDirectoryObject _ _ => negb (test_no =? 5)
  | NtCreateEvent _ _ | NtOpenEvent _ _ => false
  end.

(** [tracks] selects no call on an event object; no call that opens a
    directory. *)
Definition ignores_events (tracks : Syscall -> bool) : Prop :=
  forall (name : wstring) (root : HANDLE),
    tracks (NtCreateEvent name root) = false /\ tracks (NtOpenEvent name root) = false.

Definition ignores_opens (tracks : Syscall -> bool) : Prop :=
  forall (name : wstring) (root : HANDLE), tracks (NtOpenDirectoryObject name root) = false.

(** The handles in [held] were all handed out by the kernel before the
    [n]-th. *)
Definition fresh_below (n : nat) (held : list HANDLE) : Prop :=
  forall h : HANDLE, h ∈ held -> exists k : nat, (k < n)%nat /\ h = fresh_handle k.

(** [p] can run in the middle of a scenario: when it returns, the trace is
    still [Holding]; when it throws, nothing is [Broken]. *)
Definition keeps {St A : Type} `{HasMachine St} (tracks : Syscall -> bool)
    (p : Prog St A) : Prop :=
  forall (s : St) (held : list HANDLE),
    fresh_below (issued (machine_of s)) held ->
    exists evs : list Event,
      trace (machine_of (snd (p s))) = trace (machine_of s) ++ evs
      /\ match fst (p s) with
         | Ok _ =>
             exists held' : list HANDLE,
               scan tracks (Holding held) evs = Holding held'
               /\ fresh_below (issued (machine_of (snd (p s)))) held'
         | _ => scan tracks (Holding held) evs <> Broken
         end.

(** [p] can end a scenario: nothing is [Broken] after it. *)
Definition settles {St A : Type} `{HasMachine St} (tracks : Syscall -> bool)
    (p : Prog St A) : Prop :=
  forall (s : St) (held : list HANDLE),
    fresh_below (issued (machine_of s)) held ->
    exists evs : list Event,
      trace (machine_of (snd (p s))) = trace (machine_of s) ++ evs
      /\ scan tracks (Holding held) evs <> Broken.

(** The events of a measurement: calls on the event object and clock reads. *)
Definition measuring (e : Event) : Prop :=
  match e with
  | EvSyscall (NtCreateEvent _ _) _ _ | EvSyscall (NtOpenEvent _ _) _ _ | EvClock _ => True
  | _ => False
  end.

(** The events of [RunTest] before its destructors run: those of the
    measurement, and the closes of null by the emptied elements that the
    vector [handles] destroys when it grows. *)
Definition timed (e : Event) : Prop := measuring e \/ e = EvCloseHandle nullptr.

(** A successful call hands out a handle other than null. *)
Definition grants_non_null (e : Event) : Prop :=
  forall (c : Syscall) (st : NTSTATUS) (h : HANDLE),
    e = EvSyscall c st h -> NT_SUCCESS st = true -> h <> nullptr.

(** [h] is one of the handles the kernel handed out from the [lo]-th up to,
    not including, the [hi]-th. *)
Definition issued_between (lo hi : nat) (h : HANDLE) : Prop :=
  exists k : nat, (lo <= k < hi)%nat /\ h = fresh_handle k.

(** ** Lifetimes of scoped handles

    Objects of the class are named by numbers.  A history is a sequence of
    operations on them: the default constructor, which leaves the member
    with an indeterminate content [g]; the explicit constructor on a raw
    handle; the move constructor from a live object; a store through
    [ptr()], as the kernel does with the handle it returns; the destructor
    of a live object; and the copy constructor and the copy assignment,
    which the class declares as deleted. *)
Inductive Op :=
  | OpDefault (o : nat) (g : HANDLE)
  | OpAcquire (o : nat) (h : HANDLE)
  | OpMove (dst src : nat)
  | OpStore (o : nat) (h : HANDLE)
  | OpDestroy (o : nat)
  | OpCopy (dst src : nat)
  | OpAssign (dst src : nat).

(** The live objects, the machine that sees the [CloseHandle] calls, and
    the contents that stores through [ptr()] have overwritten. *)
Record Objects := {
  live : gmap nat ScopedHandle;
  os : Machine;
  lost : list HANDLE;
}.

(** One operation; [None] when it is not possible in C++: constructing an
    object that is already alive, using one that is not, calling a deleted
    function. *)
Definition step_op (op : Op) (st : Objects) : option Objects :=
  match op with
  | OpDefault o g =>
      if decide (live st !! o = None)
      then Some {| live := <[o := {| m_handle := g |}]> (live st);
                   os := os st; lost := lost st |}
      else None
  | OpAcquire o h =>
      if decide (live st !! o = None)
      then Some {| live := <[o := ScopedHandle_explicit h]> (live st);
                   os := os st; lost := lost st |}
      else None
  | OpMove dst src =>
      match live st !! src with
      | Some other =>
          if decide (live st !! dst = None)
          then let '(new, other') := ScopedHandle_move other in
               Some {| live := <[dst := new]> (<[src := other']> (live st));
                       os := os st; lost := lost st |}
          else None
      | None => None
      end
  | OpStore o h =>
      match live st !! o with
      | Some x => Some {| live := <[o := {| m_handle := h |}]> (live st);
                          os := os st; lost := lost st ++ [m_handle x] |}
      | None => None
      end
  | OpDestroy o =>
      match live st !! o with
      | Some x => Some {| live := delete o (live st);
                          os := snd (ScopedHandle_dtor x (os st));
                          lost := lost st |}
      | None => None
      end
  | OpCopy _ _ | OpAssign _ _ => None
  end.

Fixpoint run_ops (ops : list Op) (st : Objects) : option Objects :=
  match ops with
  | [] => Some st
  | op :: rest => st' ← step_op op st; run_ops rest st'
  end.

Definition no_objects : Objects := {| live := ∅; os := boot; lost := [] |}.

(** The value an operation puts into an object from outside. *)
Definition entered_of (op : Op) : option HANDLE :=
  match op with
  | OpDefault _ g => Some g
  | OpAcquire _ h => Some h
  | OpStore _ h => Some h
  | _ => None
  end.

(** The handle an operation obtains: the raw handle of the explicit
    constructor, the handle stored through [ptr()]. *)
Definition obtained_of (op : Op) : option HANDLE :=
  match op with
  | OpAcquire _ h => Some h
  | OpStore _ h => Some h
  | _ => None
  end.

Definition is_copy (op : Op) : bool :=
  match op with
  | OpCopy _ _ | OpAssign _ _ => true
  | _ => false
  end.

(** An operation on handles that were acquired by the explicit
    constructor: construction, move or destruction. *)
Definition owning (op : Op) : Prop :=
  match op with
  | OpAcquire _ _ | OpMove _ _ | OpDestroy _ => True
  | _ => False
  end.

(** A history that uses the default constructor and [ptr()] as
    [CreateDirectory], [OpenDirectory], [CreateLink] and [CreateEvent] do
    when the kernel call succeeds: a default-constructed object is at once
    given its handle through [ptr()], and [ptr()] is used for nothing
    else. *)
Inductive fills_defaults : list Op -> Prop :=
  | fills_nil : fills_defaults []
  | fills_call (o : nat) (g h : HANDLE) (rest : list Op) :
      fills_defaults rest -> fills_defaults (OpDefault o g :: OpStore o h :: rest)
  | fills_owning (op : Op) (rest : list Op) :
      owning op -> fills_defaults rest -> fills_defaults (op :: rest).

Definition closed_of (e : Event) : option HANDLE :=
  match e with
  | EvCloseHandle h => Some h
  | _ => None
  end.

(** The values a history puts into objects, the handles it obtains, the
    arguments of the [CloseHandle] calls of a trace, the handles the live
    objects hold, and the ones among some handles that are not null. *)
Definition entered (ops : list Op) : list HANDLE := omap entered_of ops.
Definition obtained (ops : list Op) : list HANDLE := omap obtained_of ops.
Definition closed (tr : list Event) : list HANDLE := omap closed_of tr.
Definition held_by (objs : gmap nat ScopedHandle) : list HANDLE :=
  m_handle <$> (map_to_list objs).*2.
Definition non_null (hs : list HANDLE) : list HANDLE :=
  filter (fun h => h <> nullptr) hs.

(** At every point of a history, the non-null values that have entered
    objects are the ones closed so far, the ones the live objects hold, and
    the ones overwritten through [ptr()]. *)
Definition accounted (st : Objects) (ent : list HANDLE) : Prop :=
  non_null (closed (trace (os st))) ++ non_null (held_by (live st))
    ++ non_null (lost st)
  ≡ₚ non_null ent.


(** ** Names as the kernel reads them *)

(** What the kernel reads of a name handed over in [ObjectAttributes]. *)
Definition as_kernel_reads (str : wstring) : wstring := counted (UnicodeString str).

(** ** Failures in a trace *)

(** The status an event reports, if it is a kernel call or a name query. *)
Definition status_of (e : Event) : option NTSTATUS :=
  match e with
  | EvSyscall _ st _ | EvQueryName _ st _ => Some st
  | _ => None
  end.

(** An event that reports no error. *)
Definition unfailed (e : Event) : Prop :=
  forall st : NTSTATUS, status_of e = Some st -> NT_ERROR st = false.

(** The events of an operation that threw [ex]: calls without error, then
    the call that reported the error status [ex] carries, then nothing but
    closes of handles. *)
Definition aborts_at (ex : NtException) (evs : list Event) : Prop :=
  exists (pre : list Event) (e : Event) (post : list Event),
    evs = pre ++ e :: post
    /\ Forall unfailed pre
    /\ status_of e = Some (status ex)
    /\ NT_ERROR (status ex) = true
    /\ Forall closing post.

(** [evs] are calls of [c] and nothing else. *)
Definition calls_of (c : Syscall) (evs : list Event) : Prop :=
  Forall (fun e => exists st h, e = EvSyscall c st h) evs.

(** The outcome of a run of calls that stops at the first error. *)
Definition outcome_of_calls (r : Result unit) (fuel : nat) (evs : list Event) : Prop :=
  match r with
  | Ok _ => length evs = fuel /\ Forall unfailed evs
  | Throw ex =>
      exists (pre : list Event) (e : Event),
        evs = pre ++ [e] /\ Forall unfailed pre
        /\ status_of e = Some (status ex) /\ NT_ERROR (status ex) = true
  | Undefined => False
  end.

(** From every state, [p] stops at the first error: when it throws, its
    events are those of [aborts_at]; otherwise no event reports an error. *)
Definition strict {St A : Type} `{HasMachine St} (p : Prog St A) : Prop :=
  forall s : St,
    exists evs : list Event,
      trace (machine_of (snd (p s))) = trace (machine_of s) ++ evs
      /\ match fst (p s) with
         | Throw ex => aborts_at ex evs
         | _ => Forall unfailed evs
         end.

(** ** Sampled lines *)

(** The lines [ls] are, in order, one line [ln i] for each index [i] of
    [all] when the run completes, and otherwise for the first few of them. *)
Definition lines_at (ln : Z -> Line -> Prop) (all : list Z) (r : Result unit)
    (ls : list Line) : Prop :=
  exists idxs : list Z,
    Forall2 ln idxs ls
    /\ idxs `prefix_of` all
    /\ (r = Ok tt -> idxs = all).

(** [from], [from + 500], ...: [count] indices. *)
Definition every_500 (from count : Z) : list Z :=
  (fun k => from + 500 * k) <$> seqZ 0 count.

(** The number of multiples of 500 among 0, 1, ..., [n - 1]. *)
Definition sample_count (n : Z) : Z := (Z.max n 0 + 499) / 500.

(** The lines of the scenarios: an index or a size, and a time. *)
Definition line_d_f (shift : Z) (i : Z) (l : Line) : Prop :=
  exists t : double, l = Line_d_f (i + shift) t.

Definition line_zu_f (i : Z) (l : Line) : Prop :=
  exists t : double, l = Line_zu_f i t.

(** ** Outcomes of a run *)

(** The run of [p] from [s]: when it returns, [Q] holds of the value and
    the state; it ends in undefined behaviour only if [U]. *)
Definition outcome {St A : Type} (p : Prog St A) (s : St) (Q : A -> St -> Prop)
    (U : Prop) : Prop :=
  match p s with
  | (Ok a, s') => Q a s'
  | (Throw _, _) => True
  | (Undefined, _) => U
  end.

(** The vector [links] among the locals of [Test4]. *)
Definition Test4_links (l : HANDLE * list ScopedHandle * list ScopedHandle)
    : list ScopedHandle :=
  snd l.

(** The arguments with which a scenario cannot complete: scenario 4 without
    a symbolic link, scenario 7 with a directory count that the step of its
    loop overshoots, scenario 8 with the least collision count. *)
Definition out_of_range (test_no : Z) (args : list string) : Prop :=
  (test_no = 4 /\ GetArg args 2 63 <= 0)
  \/ (test_no = 7 /\ 2147483500 < GetArg args 1 16000)
  \/ (test_no = 8 /\ GetArg args 3 16000 <= INT_MIN).

(** ** Handles obtained and handles closed *)

(** The calls whose handle is written into a [ScopedHandle]; the handle of
    [NtOpenEvent] is written into a plain [HANDLE]. *)
Definition is_scoped (c : Syscall) : bool :=
  match c with
  | NtOpenEvent _ _ => false
  | _ => true
  end.

(** The content of the [ScopedHandle] that a failed call leaves behind: it
    is what the variable held before the call. *)
Definition stray_of (e : Event) : option HANDLE :=
  match e with
  | EvSyscall c st h => if NT_ERROR st && is_scoped c then Some h else None
  | _ => None
  end.

Definition stray (tr : list Event) : list HANDLE := omap stray_of tr.

(** Over the events [evs], with the handles [before] held in variables at
    the start and [after] at the end: apart from null, what has been closed
    or is still held is what was held or has been obtained, each handle as
    often on one side as on the other. *)
Definition balanced (evs : list Event) (before after : list HANDLE) : Prop :=
  non_null (closed evs ++ after) ≡ₚ non_null (kept evs ++ stray evs ++ before).

(** An event that obtains and closes no handle. *)
Definition inert (e : Event) : Prop :=
  closed_of e = None /\ kept_of e = None /\ stray_of e = None.

Definition no_handles {A : Type} (a : A) : list HANDLE := [].
Definition its_handle (x : ScopedHandle) : list HANDLE := [m_handle x].
Definition handles_of (v : list ScopedHandle) : list HANDLE := m_handle <$> v.

(** From every state, [p] is [balanced]; [own] gives the handles held in
    the variables of a state and [res] the ones held in the value [p]
    returns. *)
Definition neutral {St A : Type} `{HasMachine St} (own : St -> list HANDLE)
    (res : A -> list HANDLE) (p : Prog St A) : Prop :=
  forall s : St,
    exists evs : list Event,
      trace (machine_of (snd (p s))) = trace (machine_of s) ++ evs
      /\ balanced evs (own s)
           (own (snd (p s)) ++ match fst (p s) with Ok a => res a | _ => [] end).

(** A program on the machine alone holds no handle in its state. *)
Definition holds_nothing (m : Machine) : list HANDLE := [].

(** [p] closes the handles [hs] and does nothing else. *)
Definition releases (hs : list HANDLE) (p : Prog Machine unit) : Prop :=
  forall m : Machine, trace (snd (p m)) = trace m ++ (EvCloseHandle <$> hs).

(** ** The loop of [RunTest] *)

(** The events of the loop of [RunTest] whose kernel calls were [opens],
    when [handles] has [size] elements at its start: every open that
    reports no error is followed by the closes of the reallocation, if there
    is one, by which [handles] takes the handle in. *)
Fixpoint RunTest_rounds (w : World) (size : nat) (opens : list Event) : list Event :=
  match opens with
  | [] => []
  | e :: rest =>
      match kept_of e with
      | Some _ => e :: reallocation_closes w size ++ RunTest_rounds w (S size) rest
      | None => e :: RunTest_rounds w size rest
      end
  end.

(** ** The names of scenario 2 *)

(** An event that, when it is a kernel call, creates or opens an event
    object with no root directory, under one of [names]. *)
Definition names_only (names : wstring -> Prop) (e : Event) : Prop :=
  forall c : Syscall, syscall_of e = Some c ->
    exists name : wstring,
      names name /\ (c = NtCreateEvent name nullptr \/ c = NtOpenEvent name nullptr).

(** ["\BaseNamedObjects\A"] followed by 0, 500, 1000, ... up to 32000
    more ['A']. *)
Definition Test2_name (name : wstring) : Prop :=
  exists k : Z,
    0 <= k <= 64 /\ name = BaseNamedObjects_A ++ replicate (Z.to_nat (500 * k)) 65.

(** ** The insertions of scenario 6 *)

(** The events of the insertions of [names] under [base] into a vector of
    [size] directories, where [outs] gives the status and the handle of each
    creation: every creation is followed by the closes of the reallocation,
    when the vector is full, and by the destruction of the temporary that
    the handle was moved from. *)
Definition Test6_rounds (w : World) (size : nat) (base : HANDLE) (names : list wstring)
    (outs : list (NTSTATUS * HANDLE)) : list Event :=
  mjoin
    (imap
       (fun j (round : wstring * (NTSTATUS * HANDLE)) =>
          EvSyscall (NtCreateDirectoryObjectEx (as_kernel_reads (fst round)) base nullptr)
            (fst (snd round)) (snd (snd round))
          :: reallocation_closes w (size + j) ++ [EvCloseHandle nullptr])
       (zip names outs)).

(** ** The timed statement of scenario 5 *)

(** The events of opening [name] under [base] once for each of [outs], the
    status and handle of each open: every handle is closed before the next
    open. *)
Definition Test5_opens (base : HANDLE) (name : wstring)
    (outs : list (NTSTATUS * HANDLE)) : list Event :=
  mjoin
    ((fun out =>
        [EvSyscall (NtOpenDirectoryObject (as_kernel_reads name) base)
           (fst out) (snd out);
         EvCloseHandle (snd out)])
       <$> outs).

(** * Part II: properties *)

(** ** The loops and the name builder *)

Lemma for_int_snoc {A : Type} (f : Z -> A) (fuel : nat) :
  forall (i : Z) (acc : list A),
    for_int i fuel (fun j l => l ++ [f j]) acc
    = acc ++ ((fun k : nat => f (i + Z.of_nat k)) <$> seq 0 fuel).
Proof.
  induction fuel as [|fuel IH]; intros i acc; simpl.
  - by rewrite app_nil_r.
  - rewrite IH, <- app_assoc. f_equal. simpl. rewrite Z.add_0_r. f_equal.
    rewrite <- fmap_S_seq, <- list_fmap_compose. apply list_fmap_ext.
    intros ? k ?. simpl. f_equal. lia.
Qed.

Lemma MakeNullString_replicate (count : Z) :
  MakeNullString count = replicate (Z.to_nat count) 0.
Proof.
  unfold MakeNullString.
  rewrite (for_int_snoc (fun _ => 0)). simpl.
  induction (Z.to_nat count) as [|n IH]; [done|].
  rewrite seq_S, fmap_app, IH. simpl.
  change [0] with (replicate 1 0). rewrite <- replicate_add.
  by replace (n + 1)%nat with (S n) by lia.
Qed.

Lemma MakeCollisionName_shape (count : Z) :
  MakeCollisionName count = replicate (Z.to_nat count) 0 ++ [65].
Proof. unfold MakeCollisionName. by rewrite MakeNullString_replicate. Qed.

Lemma zero_run_replicate (n : nat) (tail : wstring) :
  zero_run (replicate n 0 ++ tail) = (n + zero_run tail)%nat.
Proof. induction n as [|n IH]; simpl; [done|]. by rewrite IH. Qed.

Lemma zero_run_collision (count : Z) :
  zero_run (MakeCollisionName count) = Z.to_nat count.
Proof.
  rewrite MakeCollisionName_shape, zero_run_replicate. simpl. lia.
Qed.

Lemma Test6_names_lookup (count : Z) (i : nat) :
  (i < Z.to_nat count)%nat ->
  Test6_names count !! i = Some (MakeCollisionName (count - Z.of_nat i)).
Proof.
  intros Hi. unfold Test6_names.
  rewrite (for_int_snoc (fun j => MakeCollisionName (count - j))). simpl.
  rewrite list_lookup_fmap, lookup_seq_lt by done. done.
Qed.

Lemma Test6_names_length (count : Z) :
  length (Test6_names count) = Z.to_nat count.
Proof.
  unfold Test6_names.
  rewrite (for_int_snoc (fun j => MakeCollisionName (count - j))). simpl.
  by rewrite length_fmap, length_seq.
Qed.

(** C1: for a requested [count >= 1] the names generated by
    [MakeCollisionName (count - i)], [i = 0 .. count-1], are [count] names;
    the [i]-th is [count - i] zero characters followed by the single
    character ['A']; the zero-run lengths strictly decrease from [count]
    down to 1; and the names are pairwise distinct. *)
Theorem collision_names_decreasing_distinct (count : Z) :
  1 <= count ->
  length (Test6_names count) = Z.to_nat count
  /\ (forall i : nat, (i < Z.to_nat count)%nat ->
        Test6_names count !! i = Some (MakeCollisionName (count - Z.of_nat i))
        /\ MakeCollisionName (count - Z.of_nat i)
           = replicate (Z.to_nat count - i) 0 ++ [65])
  /\ (forall (i j : nat) (a b : wstring),
        Test6_names count !! i = Some a ->
        Test6_names count !! j = Some b ->
        (i < j)%nat -> (zero_run b < zero_run a)%nat)
  /\ zero_run <$> Test6_names count
     = (fun i : nat => (Z.to_nat count - i)%nat) <$> seq 0 (Z.to_nat count)
  /\ NoDup (Test6_names count).
Proof.
  intros Hcount.
  assert (Hrun : forall (i : nat) (a : wstring),
             Test6_names count !! i = Some a ->
             (i < Z.to_nat count)%nat /\ zero_run a = (Z.to_nat count - i)%nat).
  { intros i a Ha.
    assert (Hi : (i < Z.to_nat count)%nat).
    { rewrite <- Test6_names_length. by eapply lookup_lt_Some. }
    rewrite Test6_names_lookup in Ha by done.
    injection Ha as <-. rewrite zero_run_collision. split; [done | lia]. }
  split; [apply Test6_names_length|].
  split.
  { intros i Hi. split; [by apply Test6_names_lookup|].
    rewrite MakeCollisionName_shape.
    by replace (Z.to_nat (count - Z.of_nat i)) with (Z.to_nat count - i)%nat by lia. }
  split.
  { intros i j a b Ha Hb Hij.
    destruct (Hrun i a Ha) as [_ ->]. destruct (Hrun j b Hb) as [Hj ->]. lia. }
  split.
  { apply list_eq. intros i. rewrite !list_lookup_fmap.
    destruct (decide (i < Z.to_nat count)%nat) as [Hi|Hi].
    - rewrite Test6_names_lookup, lookup_seq_lt by done. simpl.
      rewrite zero_run_collision.
      by replace (Z.to_nat (count - Z.of_nat i)) with (Z.to_nat count - i)%nat by lia.
    - rewrite (lookup_ge_None_2 (Test6_names count)), (lookup_ge_None_2 (seq _ _));
        [done | rewrite length_seq; lia | rewrite Test6_names_length; lia]. }
  apply NoDup_alt. intros i j a Hi Hj.
  destruct (Hrun i a Hi) as [Hlt1 Hr1]. destruct (Hrun j a Hj) as [Hlt2 Hr2]. lia.
Qed.

(** The names of C1 for [count = 3]. *)
Lemma collision_names_witness :
  Test6_names 3 = [[0; 0; 0; 65]; [0; 0; 65]; [0; 65]]
  /\ NoDup (Test6_names 3).
Proof.
  split; [reflexivity|].
  apply (collision_names_decreasing_distinct 3). lia.
Defined.

(** ** The argument helper *)

Lemma size_t_of_int_nonneg (index : Z) :
  0 <= index <= INT_MAX -> size_t_of_int index = index.
Proof. unfold size_t_of_int, INT_MAX. intros H. apply Z.mod_small. lia. Qed.

(** C9: for an argument list and a position [index] (a non-negative [int])
    with default [def_value], [GetArg] returns the default when the position
    is beyond the end of the list or the token there is the literal ["_"],
    and the [atoi] parse of the token otherwise. *)
Theorem GetArg_default_or_parse (args : list string) (index def_value : Z) :
  0 <= index <= INT_MAX ->
  GetArg args index def_value
  = match args !! Z.to_nat index with
    | None => def_value
    | Some token => if decide (token = "_") then def_value else atoi token
    end.
Proof.
  intros Hindex. unfold GetArg. rewrite size_t_of_int_nonneg by done.
  destruct (args !! Z.to_nat index) as [token|] eqn:Hlookup.
  - pose proof (lookup_lt_Some _ _ _ Hlookup) as Hlt.
    rewrite bool_decide_eq_true_2 by lia.
    rewrite (list_lookup_total_correct _ _ _ Hlookup).
    destruct (String.eqb_spec token "_") as [->|Hne]; simpl.
    + done.
    + by destruct (decide (token = "_")).
  - apply lookup_ge_None_1 in Hlookup.
    by rewrite bool_decide_eq_false_2 by lia.
Qed.

(** C9 on the list [12 _ 7]: a parsed token, the placeholder, a position
    past the end. *)
Lemma GetArg_witness :
  GetArg ["12"; "_"; "7"] 0 1000 = 12
  /\ GetArg ["12"; "_"; "7"] 1 1000 = 1000
  /\ GetArg ["12"; "_"; "7"] 3 1000 = 1000.
Proof.
  split; [|split].
  - rewrite (GetArg_default_or_parse ["12"; "_"; "7"] 0 1000); [reflexivity|].
    unfold INT_MAX. lia.
  - rewrite (GetArg_default_or_parse ["12"; "_"; "7"] 1 1000); [reflexivity|].
    unfold INT_MAX. lia.
  - rewrite (GetArg_default_or_parse ["12"; "_"; "7"] 3 1000); [reflexivity|].
    unfold INT_MAX. lia.
Defined.

(** ** Running programs *)

Lemma bind_run {St A B : Type} (p : Prog St A) (k : A -> Prog St B) (s : St) :
  (p ≫= k) s
  = match p s with
    | (Ok a, s') => k a s'
    | (Throw e, s') => (Throw e, s')
    | (Undefined, s') => (Undefined, s')
    end.
Proof. reflexivity. Qed.

Lemma trace_emit (e : Event) (m : Machine) : trace (emit e m) = trace m ++ [e].
Proof. reflexivity. Qed.

Lemma issued_emit (e : Event) (m : Machine) : issued (emit e m) = issued m.
Proof. reflexivity. Qed.

Lemma trace_issue (m : Machine) : trace (issue m) = trace m.
Proof. reflexivity. Qed.

Lemma issued_issue (m : Machine) : issued (issue m) = S (issued m).
Proof. reflexivity. Qed.

Lemma new_events_app (m m' : Machine) (evs : list Event) :
  trace m' = trace m ++ evs -> new_events m m' = evs.
Proof. unfold new_events. intros ->. by rewrite drop_app_length. Qed.

(** ** Status checks *)

Lemma Check_spec {St : Type} (st : NTSTATUS) (s : St) :
  Check st s = (if NT_ERROR st then Throw {| status := st |} else Ok tt, s).
Proof. unfold Check. by destruct (NT_ERROR st). Qed.

Lemma NT_ERROR_severity (st : NTSTATUS) :
  NT_ERROR st = true <-> 3221225472 <= st mod 2 ^ 32.
Proof.
  unfold NT_ERROR, ULONG_of. rewrite Z.eqb_eq, Z.shiftr_div_pow2 by lia.
  pose proof (Z.mod_pos_bound st (2 ^ 32) ltac:(lia)) as Hb.
  change (2 ^ 30) with 1073741824. change (2 ^ 32) with 4294967296 in *.
  split; intros H.
  - pose proof (Z.mul_div_le (st mod 4294967296) 1073741824 ltac:(lia)). lia.
  - symmetry. apply Z.div_unique with (r := st mod 4294967296 - 3 * 1073741824); lia.
Qed.

Lemma NT_ERROR_not_SUCCESS (st : NTSTATUS) :
  NT_ERROR st = true -> NT_SUCCESS st = false.
Proof.
  rewrite NT_ERROR_severity. unfold NT_SUCCESS, ULONG_of. intros H.
  apply Z.ltb_ge. change (2 ^ 31) with 2147483648. lia.
Qed.

(** The four operations that return a handle share one body; it has three
    outcomes, by the status of its kernel call. *)
Lemma handle_call_cases (w : World) (c : Syscall) (m : Machine) :
  let st := nt_status w (steps m) c in
  let h := fresh_handle (issued m) in
  let g := indeterminate w (steps m) in
  let run :=
    (handle ← ScopedHandle_default w;
     '(st, handle) ← syscall_ptr w c handle;
     unwinding (Check st) (ScopedHandle_dtor handle);;
     mret handle) m in
  (NT_SUCCESS st = true /\ NT_ERROR st = false
   /\ run = (Ok {| m_handle := h |}, issue (emit (EvSyscall c st h) m)))
  \/ (NT_SUCCESS st = false /\ NT_ERROR st = false
      /\ run = (Ok {| m_handle := g |}, emit (EvSyscall c st g) m))
  \/ (NT_SUCCESS st = false /\ NT_ERROR st = true
      /\ run = (Throw {| status := st |},
                emit (EvCloseHandle g) (emit (EvSyscall c st g) m))).
Proof.
  cbv zeta.
  pose proof (NT_ERROR_not_SUCCESS (nt_status w (steps m) c)) as Hexcl.
  cbv [ScopedHandle_default syscall_ptr syscall uninitialised unwinding
       ScopedHandle_dtor CloseHandle mbind prog_bind mret prog_ret m_handle fst snd].
  destruct (NT_ERROR (nt_status w (steps m) c)) eqn:He.
  - right. right. rewrite Hexcl by done. by rewrite Check_spec, He.
  - destruct (NT_SUCCESS (nt_status w (steps m) c)) eqn:Hs; [left | right; left];
      by rewrite Check_spec, He.
Qed.

Lemma handle_call_surfaces (w : World) (c : Syscall) :
  surfaces w
    (handle ← ScopedHandle_default w;
     '(st, handle) ← syscall_ptr w c handle;
     unwinding (Check st) (ScopedHandle_dtor handle);;
     mret handle) c.
Proof.
  intros m. cbv zeta.
  destruct (handle_call_cases w c m) as [(Hs & He & ->)|[(Hs & He & ->)|(Hs & He & ->)]];
    rewrite Hs, He; cbn [fst snd]; (split; [|done]).
  - erewrite new_events_app; [|reflexivity]. reflexivity.
  - erewrite new_events_app; [|reflexivity]. reflexivity.
  - erewrite new_events_app; [|by rewrite !trace_emit, <- app_assoc]. reflexivity.
Qed.

(** C3: the status check raises exactly when the status is an error (the
    two top bits of the status are set), and the exception carries that
    status; each namespace operation makes its kernel call once and an error
    status comes back from it at once as that exception. *)
Theorem Check_raises_iff_error (w : World) (st : NTSTATUS) :
  (forall (St : Type) (s : St),
     Check st s = (if NT_ERROR st then Throw {| status := st |} else Ok tt, s))
  /\ (forall (St : Type) (s : St),
        (exists e, fst (Check st s) = Throw e) <-> NT_ERROR st = true)
  /\ (NT_ERROR st = true <-> 3221225472 <= st mod 2 ^ 32)
  /\ (forall name root shadow,
        surfaces w (CreateDirectory w name root shadow)
          (NtCreateDirectoryObjectEx (counted (UnicodeString name)) root shadow))
  /\ (forall name root,
        surfaces w (OpenDirectory w name root)
          (NtOpenDirectoryObject (counted (UnicodeString name)) root))
  /\ (forall name root target,
        surfaces w (CreateLink w name root target)
          (NtCreateSymbolicLinkObject (counted (UnicodeString name)) root
             (counted (UnicodeString target))))
  /\ (forall name root,
        surfaces w (CreateEvent w name root)
          (NtCreateEvent (counted (UnicodeString name)) root)).
Proof.
  split; [intros; apply Check_spec|].
  split.
  { intros St s. rewrite Check_spec. cbn [fst].
    destruct (NT_ERROR st); split; intros H; try done.
    - by eexists.
    - by destruct H. }
  split; [apply NT_ERROR_severity|].
  repeat split; intros; apply handle_call_surfaces.
Qed.

(** ** Doubles *)

Lemma shr_1_nonneg (mrs : shr_record) : 0 <= shr_m mrs -> 0 <= shr_m (shr_1 mrs).
Proof.
  destruct mrs as [m r s]. simpl. intros Hm.
  destruct m as [|[p|p|]|p]; simpl; lia.
Qed.

Lemma iter_pos_shr_1_nonneg (p : positive) :
  forall mrs, 0 <= shr_m mrs -> 0 <= shr_m (SpecFloat.iter_pos shr_1 p mrs).
Proof.
  induction p as [p IH|p IH|]; intros mrs Hm; simpl.
  - apply IH, IH. by apply shr_1_nonneg.
  - by apply IH, IH.
  - by apply shr_1_nonneg.
Qed.

Lemma shr_nonneg (mrs : shr_record) (e n : Z) :
  0 <= shr_m mrs -> 0 <= shr_m (fst (shr mrs e n)).
Proof.
  intros Hm. destruct n; simpl; try done. by apply iter_pos_shr_1_nonneg.
Qed.

Lemma shr_record_of_loc_m (m : Z) (l : location) : shr_m (shr_record_of_loc m l) = m.
Proof. by destruct l as [|[]]. Qed.

Lemma shr_fexp_nonneg (prec emax m e : Z) (l : location) :
  0 <= m -> 0 <= shr_m (fst (shr_fexp prec emax m e l)).
Proof.
  intros Hm. unfold shr_fexp. apply shr_nonneg. by rewrite shr_record_of_loc_m.
Qed.

Lemma round_nearest_even_nonneg (m : Z) (l : location) :
  0 <= m -> 0 <= round_nearest_even m l.
Proof. intros Hm. destruct l as [|[]]; simpl; try done; [destruct (Z.even m)|]; lia. Qed.

Lemma binary_round_aux_signed (prec emax : Z) (sx : bool) (mx ex : Z) (lx : location) :
  0 <= mx -> signed_as sx (binary_round_aux prec emax sx mx ex lx).
Proof.
  intros Hm. unfold binary_round_aux.
  pose proof (shr_fexp_nonneg prec emax mx ex lx Hm) as H1.
  destruct (shr_fexp prec emax mx ex lx) as [mrs' e']. simpl in H1.
  pose proof (shr_fexp_nonneg prec emax _ e' loc_Exact
                (round_nearest_even_nonneg _ (loc_of_shr_record mrs') H1)) as H2.
  destruct (shr_fexp prec emax _ e' loc_Exact) as [mrs'' e'']. simpl in H2.
  destruct (shr_m mrs'') as [|m|m]; simpl; [done| |lia].
  by destruct (e'' <=? emax - prec).
Qed.

Lemma double_of_Z_signed (z : Z) : 0 <= z -> signed_as false (double_of_Z z).
Proof.
  intros Hz. unfold double_of_Z, binary_normalize.
  destruct z as [|p|p]; [done| |lia].
  unfold binary_round.
  destruct (shl_align p 0 _) as [mz ez]. by apply binary_round_aux_signed.
Qed.

Lemma digits2_pos_iter_xO (d p : positive) :
  digits2_pos (Pos.iter xO p d) = (digits2_pos p + d)%positive.
Proof.
  induction d as [|d IH] using Pos.peano_ind.
  - simpl. lia.
  - rewrite Pos.iter_succ. simpl. rewrite IH. lia.
Qed.

Lemma binary_round_aux_canonical (s : bool) (m : positive) (e : Z) :
  bounded 53 1024 m e = true ->
  binary_round_aux 53 1024 s (Zpos m) e loc_Exact = S754_finite s m e.
Proof.
  unfold bounded, canonical_mantissa. intros [Hc He]%andb_prop.
  apply Z.eqb_eq in Hc.
  unfold binary_round_aux, shr_fexp. simpl Zdigits2. rewrite Hc, Z.sub_diag. simpl.
  rewrite Hc, Z.sub_diag. simpl. by rewrite He.
Qed.

Lemma digits2_pos_bound (p : positive) (n : Z) :
  0 <= n -> Zpos p < 2 ^ n -> Zpos (digits2_pos p) <= n.
Proof.
  revert n. induction p as [p IH|p IH|]; intros n Hn Hp; simpl.
  - destruct (decide (n = 0)) as [->|]; [simpl in Hp; lia|].
    replace n with (Z.succ (n - 1)) in Hp by lia. rewrite Z.pow_succ_r in Hp by lia.
    specialize (IH (n - 1)). lia.
  - destruct (decide (n = 0)) as [->|]; [simpl in Hp; lia|].
    replace n with (Z.succ (n - 1)) in Hp by lia. rewrite Z.pow_succ_r in Hp by lia.
    specialize (IH (n - 1)). lia.
  - destruct (decide (n = 0)) as [->|]; [simpl in Hp; lia|]. lia.
Qed.

Lemma double_of_Z_finite (z : Z) :
  1 <= z < 2 ^ 53 -> exists m e, double_of_Z z = S754_finite false m e.
Proof.
  intros [Hlo Hhi]. destruct z as [|p|p]; try lia.
  pose proof (digits2_pos_bound p 53 ltac:(lia) Hhi) as Hd.
  unfold double_of_Z, binary_normalize, binary_round, shl_align, fexp, emin.
  set (d := digits2_pos p) in *.
  replace (Z.max (Zpos d + 0 - 53) (3 - 1024 - 53)) with (Zpos d - 53) by lia.
  destruct (Zpos d - 53 - 0) as [|k|k] eqn:Hk; try lia.
  - eexists _, _. apply binary_round_aux_canonical.
    unfold bounded, canonical_mantissa, fexp, emin. fold d.
    apply andb_true_intro. split; [apply Z.eqb_eq | apply Z.leb_le]; lia.
  - eexists _, _. apply binary_round_aux_canonical.
    unfold bounded, canonical_mantissa, fexp, emin.
    rewrite digits2_pos_iter_xO. fold d.
    apply andb_true_intro. split; [apply Z.eqb_eq | apply Z.leb_le]; lia.
Qed.

Lemma double_div_signed (x y : double) (m : positive) (e : Z) :
  signed_as false x -> y = S754_finite false m e -> signed_as false (double_div x y).
Proof.
  intros Hx ->. unfold double_div, SFdiv.
  destruct x as [sx|sx| |sx mx ex]; simpl in Hx; try done; subst sx; try done.
  simpl xorb.
  destruct (SFdiv_core_binary 53 1024 (Zpos mx) ex (Zpos m) e) as [[mz ez] lz] eqn:Hcore.
  apply binary_round_aux_signed.
  unfold SFdiv_core_binary in Hcore.
  set (s := ex - e - _) in Hcore.
  set (m' := match s with Z0 => _ | _ => _ end) in Hcore.
  assert (Hm' : 0 <= m').
  { subst m'. destruct s; try lia. apply Z.shiftl_nonneg. lia. }
  pose proof (Z.div_pos m' (Zpos m) Hm' ltac:(lia)) as Hq.
  unfold Z.div in Hq. destruct (Z.div_eucl m' (Zpos m)) as [q r].
  by injection Hcore as <- _ _.
Qed.

Lemma double_zero_div (y : double) (m : positive) (e : Z) :
  y = S754_finite false m e -> double_div (double_of_Z 0) y = S754_zero false.
Proof. by intros ->. Qed.

Lemma signed_nonneg (x : double) : signed_as false x -> double_nonneg x = true.
Proof. destruct x as [s|s| |s m e]; simpl; try done; by intros ->. Qed.

Lemma GetTime_at_signed (t0 t1 iterations : Z) :
  t0 <= t1 -> 1 <= iterations <= INT_MAX ->
  signed_as false (GetTime_at {| m_start := t0 |} t1 iterations).
Proof.
  intros Ht Hi. unfold GetTime_at, duration_cast_microseconds. cbn [m_start].
  destruct (double_of_Z_finite iterations) as (m & e & Hfin).
  { unfold INT_MAX in Hi. change (2 ^ 53) with 9007199254740992. lia. }
  eapply double_div_signed; [|exact Hfin].
  apply double_of_Z_signed. apply Z.quot_pos; lia.
Qed.

(** ** The timer *)

(** C6: with [t0] the clock at the construction of the timer and [t1] the
    clock at the sample, [t0 <= t1], and [iterations >= 1], [GetTime] returns
    the elapsed whole microseconds divided, as doubles, by [iterations]; the
    value is a number whose sign bit is clear, so it compares as [>= 0]. *)
Theorem Timer_GetTime_quotient_nonneg (w : World) (m m2 : Machine) (iterations : Z) :
  clock w (steps m) <= clock w (steps m2) ->
  1 <= iterations <= INT_MAX ->
  let t0 := clock w (steps m) in
  let t1 := clock w (steps m2) in
  let value := double_div (double_of_Z ((t1 - t0) / 1000)) (double_of_Z iterations) in
  fst (Timer_new w m) = Ok {| m_start := t0 |}
  /\ fst (GetTime w {| m_start := t0 |} iterations m2) = Ok value
  /\ signed_as false value
  /\ double_nonneg value = true.
Proof.
  intros Ht Hi t0 t1 value.
  assert (Hvalue : GetTime_at {| m_start := t0 |} t1 iterations = value).
  { unfold GetTime_at, duration_cast_microseconds, value. cbn [m_start].
    by rewrite Z.quot_div_nonneg by lia. }
  split; [reflexivity|]. split.
  { unfold GetTime, now. cbv [mbind prog_bind mret prog_ret fst]. by rewrite <- Hvalue. }
  rewrite <- Hvalue.
  split; [|apply signed_nonneg]; by apply GetTime_at_signed.
Qed.

(** C10: for timestamps [start <= stop] and [iterations >= 1] the elapsed
    nanoseconds are cut down to whole microseconds before the division: the
    value is [floor ((stop - start) / 1000)] divided by [iterations], and an
    elapsed time under one microsecond gives exactly [+0.0]. *)
Theorem GetTime_truncates_to_microseconds (start stop iterations : Z) :
  start <= stop ->
  1 <= iterations <= INT_MAX ->
  let us := (stop - start) / 1000 in
  duration_cast_microseconds (stop - start) = us
  /\ 1000 * us <= stop - start < 1000 * us + 1000
  /\ GetTime_at {| m_start := start |} stop iterations
     = double_div (double_of_Z us) (double_of_Z iterations)
  /\ (stop - start < 1000 ->
        GetTime_at {| m_start := start |} stop iterations = S754_zero false).
Proof.
  intros Ht Hi us.
  assert (Hus : duration_cast_microseconds (stop - start) = us).
  { unfold duration_cast_microseconds, us. apply Z.quot_div_nonneg; lia. }
  split; [done|]. split.
  { unfold us. pose proof (Z.mul_div_le (stop - start) 1000 ltac:(lia)).
    pose proof (Z.mul_succ_div_gt (stop - start) 1000 ltac:(lia)). lia. }
  split.
  { unfold GetTime_at. cbn [m_start]. by rewrite Hus. }
  intros Hshort. unfold GetTime_at. cbn [m_start]. rewrite Hus.
  assert (us = 0) as -> by (unfold us; apply Z.div_small; lia).
  destruct (double_of_Z_finite iterations) as (mi & ei & Hfin).
  { unfold INT_MAX in Hi. change (2 ^ 53) with 9007199254740992. lia. }
  by apply (double_zero_div _ mi ei).
Qed.

(** C6 in [calm]: 2500 microseconds over 1000 iterations are 2.5. *)
Lemma Timer_GetTime_witness :
  fst (GetTime calm {| m_start := 0 |} 1000 (emit (EvClock 0) boot))
  = Ok (S754_finite false 5629499534213120 (-51))
  /\ double_nonneg (S754_finite false 5629499534213120 (-51)) = true.
Proof.
  pose proof (Timer_GetTime_quotient_nonneg calm boot (emit (EvClock 0) boot) 1000)
    as Hthm.
  destruct Hthm as (_ & Hvalue & _ & Hnonneg).
  - by vm_compute.
  - unfold INT_MAX. lia.
  - vm_compute in Hvalue, Hnonneg. by split.
Defined.

(** C10 at 999 ns over 5 iterations: zero whole microseconds. *)
Lemma GetTime_truncates_witness :
  duration_cast_microseconds (999 - 0) = 0
  /\ GetTime_at {| m_start := 0 |} 999 5 = S754_zero false.
Proof.
  pose proof (GetTime_truncates_to_microseconds 0 999 5) as Hthm.
  destruct Hthm as (Hus & _ & _ & Hzero).
  - lia.
  - unfold INT_MAX. lia.
  - split; [exact Hus | apply Hzero; lia].
Defined.

(** ** The entry point *)

Lemma hex_digits_length (fuel : nat) :
  forall n : Z, (length (hex_digits fuel n) <= fuel)%nat.
Proof.
  induction fuel as [|fuel IH]; intros n; simpl; [lia|].
  destruct (n <? 16); simpl; [lia|].
  rewrite length_app. simpl. specialize (IH (n / 16)). lia.
Qed.

Lemma string_of_list_ascii_length (l : list ascii) :
  String.length (String.string_of_list_ascii l) = length l.
Proof. induction l as [|c l IH]; simpl; [done|]. by rewrite IH. Qed.

Lemma printf_08X_length (v : Z) : String.length (printf_08X v) = 8%nat.
Proof.
  unfold printf_08X. cbv zeta.
  rewrite string_of_list_ascii_length, length_app, length_replicate.
  pose proof (hex_digits_length 8 (ULONG_of v)). lia.
Qed.

Lemma dispatch_known (w : World) (test_no : Z) (args : list string) :
  1 <= test_no <= 8 ->
  dispatch w test_no args = (scenario w test_no args;; mret None).
Proof.
  intros H.
  assert (test_no = 1 \/ test_no = 2 \/ test_no = 3 \/ test_no = 4 \/ test_no = 5
          \/ test_no = 6 \/ test_no = 7 \/ test_no = 8) as Hcases by lia.
  destruct Hcases as [->|[->|[->|[->|[->|[->|[->| ->]]]]]]]; reflexivity.
Qed.

Lemma dispatch_unknown (w : World) (test_no : Z) (args : list string) :
  ~ 1 <= test_no <= 8 ->
  dispatch w test_no args
  = (printf (Line_unknown_test test_no);; PrintHelp;; mret (Some 1)).
Proof.
  intros H. destruct test_no as [|p|p]; [reflexivity| |reflexivity].
  do 4 (destruct p as [p|p|]; try reflexivity; try lia).
Qed.

(** C4: [main] returns 1 when the scenario argument is missing or is not one
    of 1..8, and 0 when the scenario completes; when a scenario throws, the
    handler prints the status as 8 hexadecimal digits and [main] still
    returns 0. *)
Theorem main_exit_status (w : World) (argv : list string) (m : Machine) :
  let argc := Z.of_nat (length argv) in
  let test_no := atoi (argv !!! 1%nat) in
  let run := scenario w test_no (drop 2 argv) m in
  fst (main w argv m)
  = (if decide (argc < 2) then Ok 1
     else if decide (1 <= test_no <= 8) then
       match fst run with
       | Ok _ => Ok 0
       | Throw _ => Ok 0
       | Undefined => Undefined
       end
     else Ok 1)
  /\ (forall e : NtException,
        2 <= argc -> 1 <= test_no <= 8 -> fst run = Throw e ->
        fst (main w argv m) = Ok 0
        /\ trace (snd (main w argv m))
           = trace (snd run) ++ [EvPrintf (Line_error (printf_08X (status e)))]
        /\ String.length (printf_08X (status e)) = 8%nat).
Proof.
  intros argc test_no run. unfold main. fold argc. fold test_no.
  destruct (decide (argc < 2)) as [Hargc|Hargc].
  { split; [reflexivity|]. intros; lia. }
  destruct (decide (1 <= test_no <= 8)) as [Hknown|Hunknown].
  - rewrite dispatch_known by done.
    cbv [mbind prog_bind mret prog_ret try_catch].
    fold run. destruct run as [[[]|e|] m'] eqn:Hrun; cbn [fst snd].
    + split; [reflexivity|]. intros; discriminate.
    + split; [reflexivity|]. intros e' _ _ [= <-].
      split; [reflexivity|]. split; [reflexivity|]. apply printf_08X_length.
    + split; [reflexivity|]. intros; discriminate.
  - rewrite dispatch_unknown by done. split; [reflexivity|]. intros; lia.
Qed.

(** C4 on four command lines: no argument, an unknown test, scenario 6
    completing in [calm], scenario 6 failing in [stormy]. *)
Lemma main_exit_status_witness :
  fst (main calm ["prog"] boot) = Ok 1
  /\ fst (main calm ["prog"; "9"] boot) = Ok 1
  /\ fst (main calm ["prog"; "6"; "2"] boot) = Ok 0
  /\ fst (main stormy ["prog"; "6"; "2"] boot) = Ok 0
  /\ last (printed (trace (snd (main stormy ["prog"; "6"; "2"] boot))))
     = Some (Line_error "C0000034").
Proof.
  split; [exact (proj1 (main_exit_status calm ["prog"] boot))|].
  split; [exact (proj1 (main_exit_status calm ["prog"; "9"] boot))|].
  split; [exact (proj1 (main_exit_status calm ["prog"; "6"; "2"] boot))|].
  destruct (proj2 (main_exit_status stormy ["prog"; "6"; "2"] boot)
              {| status := -1073741772 |}) as (Hexit & Htrace & _).
  - by vm_compute.
  - by vm_compute.
  - by vm_compute.
  - split; [exact Hexit|]. rewrite Htrace. by vm_compute.
Defined.

(** ** Composition of specifications *)

Section Yields.

Context {St : Type} `{HasMachine St}.

Lemma yields_ret {A : Type} (C : Event -> Prop) (Q : A -> Prop) (a : A) :
  Q a -> yields C Q (mret a : Prog St A).
Proof.
  intros Ha s. exists []. cbn. rewrite app_nil_r.
  split; [done|]. split; [constructor|]. by intros ? [= <-].
Qed.

Lemma yields_throw {A : Type} (C : Event -> Prop) (Q : A -> Prop) (e : NtException) :
  yields C Q (throw e : Prog St A).
Proof.
  intros s. exists []. cbn. rewrite app_nil_r.
  split; [done|]. split; [constructor|]. discriminate.
Qed.

Lemma yields_undefined {A : Type} (C : Event -> Prop) (Q : A -> Prop) :
  yields C Q (undefined : Prog St A).
Proof.
  intros s. exists []. cbn. rewrite app_nil_r.
  split; [done|]. split; [constructor|]. discriminate.
Qed.

Lemma yields_bind {A B : Type} (C : Event -> Prop) (Q : A -> Prop) (R : B -> Prop)
    (p : Prog St A) (k : A -> Prog St B) :
  yields C Q p -> (forall a, Q a -> yields C R (k a)) -> yields C R (p ≫= k).
Proof.
  intros Hp Hk s. rewrite bind_run.
  destruct (Hp s) as (evs1 & Ht1 & Hc1 & Hq).
  destruct (p s) as [[a|e|] s1]; cbn [fst snd] in *.
  - destruct (Hk a (Hq a eq_refl) s1) as (evs2 & Ht2 & Hc2 & Hr).
    exists (evs1 ++ evs2). rewrite Ht2, Ht1, app_assoc.
    split; [done|]. split; [by apply Forall_app|done].
  - exists evs1. split; [done|]. split; [done|discriminate].
  - exists evs1. split; [done|]. split; [done|discriminate].
Qed.

Lemma yields_weaken {A : Type} (C C' : Event -> Prop) (Q Q' : A -> Prop)
    (p : Prog St A) :
  (forall e, C e -> C' e) -> (forall a, Q a -> Q' a) -> yields C Q p -> yields C' Q' p.
Proof.
  intros HC HQ Hp s. destruct (Hp s) as (evs & Ht & Hc & Hq).
  exists evs. split; [done|]. split; [|by auto].
  eapply Forall_impl; [exact Hc|exact HC].
Qed.

Lemma yields_Check (C : Event -> Prop) (st : NTSTATUS) :
  yields C any_value (Check st : Prog St unit).
Proof.
  unfold Check. destruct (NT_ERROR st); [apply yields_throw|by apply yields_ret].
Qed.

Lemma yields_for_prog (C : Event -> Prop) (body : Z -> Prog St unit) (fuel : nat) :
  (forall i, yields C any_value (body i)) ->
  forall i, yields C any_value (for_prog i fuel body).
Proof.
  intros Hbody. induction fuel as [|fuel IH]; intros i; simpl.
  - by apply yields_ret.
  - eapply yields_bind; [apply Hbody|]. intros _ _. apply IH.
Qed.

Lemma yields_for_each {A : Type} (C : Event -> Prop) (body : A -> Prog St unit)
    (l : list A) :
  (forall x, yields C any_value (body x)) -> yields C any_value (for_each l body).
Proof.
  intros Hbody. induction l as [|x l IH]; simpl.
  - by apply yields_ret.
  - eapply yields_bind; [apply Hbody|]. intros _ _. apply IH.
Qed.

Lemma yields_unwinding {A : Type} (C : Event -> Prop) (Q : A -> Prop)
    (body : Prog St A) (cleanup : Prog St unit) :
  yields C Q body -> yields C any_value cleanup -> yields C Q (unwinding body cleanup).
Proof.
  intros Hb Hc s. unfold unwinding.
  destruct (Hb s) as (evs1 & Ht1 & Hc1 & Hq).
  destruct (body s) as [[a|e|] s1]; cbn [fst snd] in *.
  - exists evs1. by split.
  - destruct (Hc s1) as (evs2 & Ht2 & Hc2 & _).
    exists (evs1 ++ evs2). rewrite Ht2, Ht1, app_assoc.
    split; [done|]. split; [by apply Forall_app|discriminate].
  - exists evs1. by split.
Qed.

Lemma yields_finally {A : Type} (C : Event -> Prop) (Q : A -> Prop)
    (body : Prog St A) (cleanup : Prog St unit) :
  yields C Q body -> yields C any_value cleanup -> yields C Q (finally body cleanup).
Proof.
  intros Hb Hc s. unfold finally.
  destruct (Hb s) as (evs1 & Ht1 & Hc1 & Hq).
  destruct (body s) as [r s1]; cbn [fst snd] in *.
  destruct (Hc s1) as (evs2 & Ht2 & Hc2 & _).
  exists (evs1 ++ evs2). rewrite Ht2, Ht1, app_assoc.
  split; [done|]. split; [by apply Forall_app|done].
Qed.

Lemma yields_try_catch {A : Type} (C : Event -> Prop) (Q : A -> Prop)
    (body : Prog St A) (handler : NtException -> Prog St A) :
  yields C Q body -> (forall e, yields C Q (handler e)) ->
  yields C Q (try_catch body handler).
Proof.
  intros Hb Hh s. unfold try_catch.
  destruct (Hb s) as (evs1 & Ht1 & Hc1 & Hq).
  destruct (body s) as [[a|e|] s1]; cbn [fst snd] in *.
  - exists evs1. by split.
  - destruct (Hh e s1) as (evs2 & Ht2 & Hc2 & Hq2).
    exists (evs1 ++ evs2). rewrite Ht2, Ht1, app_assoc.
    split; [done|]. split; [by apply Forall_app|done].
  - exists evs1. by split.
Qed.

End Yields.

Lemma yields_lift {Loc A : Type} (C : Event -> Prop) (Q : A -> Prop)
    (p : Prog Machine A) :
  yields C Q p -> yields C Q (lift p : Prog (Loc * Machine) A).
Proof.
  intros Hp [l m]. unfold lift. destruct (Hp m) as (evs & Ht & Hc & Hq).
  destruct (p m) as [r m']. exists evs. by split.
Qed.

Lemma yields_get_locals {Loc : Type} (C : Event -> Prop) :
  yields C any_value (get_locals : Prog (Loc * Machine) Loc).
Proof.
  intros [l m]. exists []. cbn. rewrite app_nil_r.
  split; [done|]. by split; [constructor|].
Qed.

Lemma yields_set_locals {Loc : Type} (C : Event -> Prop) (l : Loc) :
  yields C any_value (set_locals l : Prog (Loc * Machine) unit).
Proof.
  intros [l0 m]. exists []. cbn. rewrite app_nil_r.
  split; [done|]. by split; [constructor|].
Qed.

Lemma yields_run_block {Loc A : Type} (C : Event -> Prop) (Q : A -> Prop) (init : Loc)
    (body : Prog (Loc * Machine) A) (dtors : Loc -> Prog Machine unit) :
  yields C Q body -> (forall l, yields C any_value (dtors l)) ->
  yields C Q (run_block init body dtors).
Proof.
  intros Hb Hd m. unfold run_block.
  destruct (Hb (init, m)) as (evs1 & Ht1 & Hc1 & Hq).
  destruct (body (init, m)) as [r [l m1]]; cbn [fst snd] in *.
  destruct (Hd l m1) as (evs2 & Ht2 & Hc2 & _).
  exists (evs1 ++ evs2). unfold machine_of, machine_with_locals, machine_itself in *.
  cbn [snd] in *. rewrite Ht2, Ht1, app_assoc.
  split; [done|]. split; [by apply Forall_app|done].
Qed.

(** ** Specifications of the primitive effects *)

Section Primitives.

Context (w : World) (C : Event -> Prop).

Lemma yields_uninitialised : yields C any_value (uninitialised w).
Proof.
  intros m. exists []. cbn. rewrite app_nil_r.
  split; [done|]. by split; [constructor|].
Qed.

Lemma yields_syscall (c : Syscall) (out : HANDLE) :
  (forall st h, C (EvSyscall c st h)) -> yields C any_value (syscall w c out).
Proof.
  intros Hc m. unfold syscall.
  destruct (NT_SUCCESS _); eexists [_]; cbn; (split; [done|]);
    (split; [|done]); repeat constructor; apply Hc.
Qed.

Lemma yields_NtQueryObject_name (h : HANDLE) :
  (forall st name, C (EvQueryName h st name)) ->
  yields C any_value (NtQueryObject_name w h).
Proof.
  intros Hc m. unfold NtQueryObject_name. destruct (nt_name w (steps m) h) as [st name].
  eexists [_]; cbn. split; [done|]. split; [|done]. repeat constructor. apply Hc.
Qed.

Lemma yields_CloseHandle (h : HANDLE) :
  C (EvCloseHandle h) -> yields C any_value (CloseHandle h).
Proof.
  intros Hc m. eexists [_]; cbn. split; [done|]. split; [|done]. by repeat constructor.
Qed.

Lemma yields_now : (forall t, C (EvClock t)) -> yields C any_value (now w).
Proof.
  intros Hc m. eexists [_]; cbn. split; [done|]. split; [|done]. repeat constructor.
  apply Hc.
Qed.

Lemma yields_printf (l : Line) : C (EvPrintf l) -> yields C any_value (printf l).
Proof.
  intros Hc m. eexists [_]; cbn. split; [done|]. split; [|done]. by repeat constructor.
Qed.

Lemma yields_GetTime (timer : Timer) (iterations : Z) :
  (forall t, C (EvClock t)) ->
  yields C (fun t => exists stop, t = GetTime_at timer stop iterations)
    (GetTime w timer iterations).
Proof.
  intros Hc m. eexists [_]; cbn. split; [done|]. split.
  - repeat constructor. apply Hc.
  - intros a [= <-]. by eexists.
Qed.

Lemma yields_vector_make_room (v : list ScopedHandle) :
  C (EvCloseHandle nullptr) -> yields C any_value (vector_make_room w v).
Proof.
  intros Hc. unfold vector_make_room.
  destruct (vector_full w (length v)); [|by apply (yields_ret _ any_value)].
  unfold vector_reallocate. cbv zeta.
  apply (yields_bind C any_value any_value);
    [|intros _ _; by apply (yields_ret _ any_value)].
  unfold vector_dtor. induction v as [|x v IH]; cbn [fmap list_fmap for_each].
  { by apply (yields_ret _ any_value). }
  apply (yields_bind C any_value any_value);
    [by apply yields_CloseHandle|]. intros _ _. apply IH.
Qed.

Lemma yields_emplace_back_handle (v : list ScopedHandle) (h : HANDLE) :
  C (EvCloseHandle nullptr) -> yields C any_value (emplace_back_handle w v h).
Proof.
  intros Hc. unfold emplace_back_handle. cbv zeta.
  eapply yields_bind; [by apply yields_vector_make_room|].
  intros v' _. by apply (yields_ret _ any_value).
Qed.

Lemma yields_push_temporary (v : list ScopedHandle) (tmp : ScopedHandle) :
  C (EvCloseHandle nullptr) -> yields C any_value (push_temporary w v tmp).
Proof.
  intros Hc. unfold push_temporary, emplace_back_move, ScopedHandle_move.
  apply (yields_bind C (fun p : list ScopedHandle * ScopedHandle =>
                          m_handle (snd p) = nullptr) any_value).
  { apply (yields_bind C any_value _); [by apply yields_vector_make_room|].
    intros v' _. by apply yields_ret. }
  intros [v' tmp'] Hnull. cbn [snd] in Hnull.
  apply (yields_bind C any_value any_value);
    [|intros _ _; by apply (yields_ret _ any_value)].
  unfold ScopedHandle_dtor. rewrite Hnull. by apply yields_CloseHandle.
Qed.

End Primitives.

(** One step of a derivation of [yields]. *)
Ltac yields_step :=
  lazymatch goal with
  | |- yields _ _ (emplace_back_handle _ _ _) =>
      apply yields_emplace_back_handle; done
  | |- yields _ _ (push_temporary _ _ _) => apply yields_push_temporary; done
  | |- yields _ _ (mret _) =>
      first [apply (yields_ret _ any_value); done | apply yields_ret; done]
  | |- yields _ _ (_ ≫= _) => eapply yields_bind; [|intros ? ?]
  | |- yields _ _ (let '(_, _) := ?x in _) => destruct x
  | |- yields _ _ (if ?b then _ else _) => destruct b
  | |- yields _ _ (match ?x with _ => _ end) => destruct x
  | |- yields _ _ (lift _) => apply yields_lift
  | |- yields _ _ get_locals => apply yields_get_locals
  | |- yields _ _ (set_locals _) => apply yields_set_locals
  | |- yields _ _ (throw _) => apply yields_throw
  | |- yields _ _ undefined => apply yields_undefined
  | |- yields _ _ (Check _) => apply yields_Check
  | |- yields _ _ (unwinding _ _) => apply yields_unwinding
  | |- yields _ _ (finally _ _) => apply yields_finally
  | |- yields _ _ (run_block _ _ _) => apply yields_run_block; [|intros ?]
  | |- yields _ _ (try_catch _ _) => apply yields_try_catch; [|intros ?]
  | |- yields _ _ (for_prog _ _ _) => apply yields_for_prog; intros ?
  | |- yields _ _ (for_each _ _) => apply yields_for_each; intros ?
  | |- yields _ _ (uninitialised _) => apply yields_uninitialised
  | |- yields _ _ (syscall _ _ _) => apply yields_syscall; intros; done
  | |- yields _ _ (NtQueryObject_name _ _) =>
      apply yields_NtQueryObject_name; intros; done
  | |- yields _ _ (CloseHandle _) => apply yields_CloseHandle; done
  | |- yields _ _ (now _) => apply yields_now; intros; done
  | |- yields _ _ (printf _) => apply yields_printf; done
  end.

Ltac yields_auto := repeat yields_step.

(** ** What the operations print: nothing *)

Lemma quiet_handle_ops (w : World) :
  (forall name root shadow, yields quiet any_value (CreateDirectory w name root shadow))
  /\ (forall name root, yields quiet any_value (OpenDirectory w name root))
  /\ (forall name root target, yields quiet any_value (CreateLink w name root target))
  /\ (forall name root, yields quiet any_value (CreateEvent w name root)).
Proof.
  repeat split; intros;
    unfold CreateDirectory, OpenDirectory, CreateLink, CreateEvent,
      ScopedHandle_default, syscall_ptr, ScopedHandle_dtor; cbv zeta; yields_auto.
Qed.

Lemma quiet_CreateDirectory (w : World) name root shadow :
  yields quiet any_value (CreateDirectory w name root shadow).
Proof. apply quiet_handle_ops. Qed.

Lemma quiet_OpenDirectory (w : World) name root :
  yields quiet any_value (OpenDirectory w name root).
Proof. apply quiet_handle_ops. Qed.

Lemma quiet_CreateLink (w : World) name root target :
  yields quiet any_value (CreateLink w name root target).
Proof. apply quiet_handle_ops. Qed.

Lemma quiet_CreateEvent (w : World) name root :
  yields quiet any_value (CreateEvent w name root).
Proof. apply quiet_handle_ops. Qed.

Lemma quiet_GetName (w : World) (h : HANDLE) : yields quiet any_value (GetName w h).
Proof. unfold GetName. yields_auto. Qed.

Lemma quiet_vector_dtor (v : list ScopedHandle) : yields quiet any_value (vector_dtor v).
Proof. unfold vector_dtor, ScopedHandle_dtor. yields_auto. Qed.

Lemma quiet_push_temporary (w : World) (v : list ScopedHandle) (tmp : ScopedHandle) :
  yields quiet any_value (push_temporary w v tmp).
Proof. by apply yields_push_temporary. Qed.

Lemma quiet_RunTest (w : World) name iterations create_name root :
  yields quiet any_value (RunTest w name iterations create_name root).
Proof.
  unfold RunTest. cbv zeta.
  eapply yields_bind; [apply quiet_CreateEvent|]. intros event_handle _.
  unfold RunTest_open, Timer_new, GetTime, ScopedHandle_dtor.
  yields_auto. apply quiet_vector_dtor.
Qed.

(** ** Scenario 6 *)

Lemma quiet_reports_over_one (e : Event) : quiet e -> reports_over_one e.
Proof. unfold quiet, reports_over_one. by intros ->. Qed.

Lemma Test6_reports (w : World) (args : list string) :
  yields reports_over_one any_value (Test6 w args).
Proof.
  unfold Test6. cbv zeta.
  eapply yields_bind.
  { eapply yields_weaken; [apply quiet_reports_over_one|done|apply quiet_CreateDirectory]. }
  intros base_dir _.
  apply yields_finally; [|unfold ScopedHandle_dtor; yields_auto].
  apply yields_run_block.
  2:{ intros l. eapply yields_weaken;
        [apply quiet_reports_over_one|done|apply quiet_vector_dtor]. }
  unfold Timer_new. yields_auto.
  - unfold Test6_insert. yields_auto.
    eapply yields_weaken;
      [apply quiet_reports_over_one|done|apply quiet_CreateDirectory].
  - apply yields_GetTime. done.
  - cbv beta in *.
    match goal with H : exists _, _ |- _ => destruct H as [stop ->] end.
    apply yields_printf. intros l [= <-]. by eexists _, _.
Qed.

Lemma yields_new_events {A : Type} (C : Event -> Prop) (Q : A -> Prop)
    (p : Prog Machine A) (m : Machine) :
  yields C Q p ->
  trace (snd (p m)) = trace m ++ new_events m (snd (p m))
  /\ Forall C (new_events m (snd (p m)))
  /\ forall a, fst (p m) = Ok a -> Q a.
Proof.
  intros Hp. destruct (Hp m) as (evs & Htrace & Hclass & Hq).
  unfold machine_of, machine_itself in Htrace.
  by rewrite (new_events_app _ _ _ Htrace).
Qed.

Lemma printed_in_class (C : Event -> Prop) (evs : list Event) (l : Line) :
  Forall C evs -> l ∈ printed evs -> exists e, C e /\ line_of e = Some l.
Proof.
  intros Hc Hl. apply list_elem_of_omap in Hl as (e & He & Hline).
  exists e. split; [|done]. by eapply Forall_forall in Hc.
Qed.



(** ** What a program prints *)

Lemma printed_app (evs1 evs2 : list Event) :
  printed (evs1 ++ evs2) = printed evs1 ++ printed evs2.
Proof. apply omap_app. Qed.

Lemma printed_quiet (evs : list Event) : Forall quiet evs -> printed evs = [].
Proof.
  induction 1 as [|e evs He _ IH]; [done|].
  unfold printed in *. cbn. unfold quiet in He. by rewrite He.
Qed.

Section Prints.

Context {St : Type} `{HasMachine St}.

Lemma prints_quiet {A : Type} (Q : A -> Prop) (P : Result A -> list Line -> Prop)
    (p : Prog St A) :
  yields quiet Q p -> (forall r, P r []) -> prints P p.
Proof.
  intros Hp HP s. destruct (Hp s) as (evs & Ht & Hc & _).
  exists evs. split; [done|]. rewrite printed_quiet by done. apply HP.
Qed.

Lemma prints_after_quiet {A B : Type} (Q : A -> Prop)
    (P : Result B -> list Line -> Prop) (p : Prog St A) (k : A -> Prog St B) :
  yields quiet Q p ->
  (forall a, Q a -> prints P (k a)) ->
  (forall e, P (Throw e) []) -> P Undefined [] ->
  prints P (p ≫= k).
Proof.
  intros Hp Hk Hthrow Hundef s. rewrite bind_run.
  destruct (Hp s) as (evs1 & Ht1 & Hc1 & Hq).
  destruct (p s) as [[a|e|] s1]; cbn [fst snd] in *.
  - destruct (Hk a (Hq a eq_refl) s1) as (evs2 & Ht2 & HP).
    exists (evs1 ++ evs2). rewrite Ht2, Ht1, app_assoc. split; [done|].
    by rewrite printed_app, printed_quiet.
  - exists evs1. split; [done|]. rewrite printed_quiet by done. apply Hthrow.
  - exists evs1. split; [done|]. by rewrite printed_quiet.
Qed.

Lemma prints_before_quiet {A : Type} (P : Result A -> list Line -> Prop)
    (body : Prog St A) (cleanup : Prog St unit) :
  prints P body -> yields quiet any_value cleanup -> prints P (finally body cleanup).
Proof.
  intros Hb Hc s. unfold finally.
  destruct (Hb s) as (evs1 & Ht1 & HP).
  destruct (body s) as [r s1]; cbn [fst snd] in *.
  destruct (Hc s1) as (evs2 & Ht2 & Hc2 & _).
  exists (evs1 ++ evs2). rewrite Ht2, Ht1, app_assoc. split; [done|].
  by rewrite printed_app, (printed_quiet evs2), app_nil_r.
Qed.

End Prints.

Lemma prints_lift_printf {Loc : Type} (l : Line) :
  prints (fun r ls => r = Ok tt /\ ls = [l]) (lift (printf l) : Prog (Loc * Machine) unit).
Proof. intros [loc m]. by exists [EvPrintf l]. Qed.

Lemma prints_run_block {Loc A : Type} (P : Result A -> list Line -> Prop) (init : Loc)
    (body : Prog (Loc * Machine) A) (dtors : Loc -> Prog Machine unit) :
  prints P body -> (forall l, yields quiet any_value (dtors l)) ->
  prints P (run_block init body dtors).
Proof.
  intros Hb Hd m. unfold run_block.
  destruct (Hb (init, m)) as (evs1 & Ht1 & HP).
  destruct (body (init, m)) as [r [l m1]]; cbn [fst snd] in *.
  destruct (Hd l m1) as (evs2 & Ht2 & Hc2 & _).
  exists (evs1 ++ evs2). unfold machine_of, machine_with_locals, machine_itself in *.
  cbn [snd] in *. rewrite Ht2, Ht1, app_assoc. split; [done|].
  by rewrite printed_app, (printed_quiet evs2), app_nil_r.
Qed.

(** ** Scenario 3 *)

Ltac stopped_at i := intros; by destruct (decide (sampled i)).

(** One round of the loop prints its line exactly when the index is sampled
    and the round completes. *)
Lemma Test3_step_prints (w : World) (iterations i : Z) :
  prints (fun r ls => if decide (sampled i)
                      then match r with
                           | Ok _ => exists l, Test3_line i l /\ ls = [l]
                           | _ => ls = []
                           end
                      else ls = [])
    (Test3_step w iterations i).
Proof.
  unfold Test3_step.
  eapply prints_after_quiet;
    [apply yields_get_locals| |stopped_at i|stopped_at i].
  intros [last_dir dirs] _.
  eapply prints_after_quiet;
    [apply yields_lift, quiet_CreateDirectory| |stopped_at i|stopped_at i].
  intros tmp _.
  eapply prints_after_quiet;
    [apply yields_lift, quiet_push_temporary| |stopped_at i|stopped_at i].
  intros dirs' _.
  eapply prints_after_quiet;
    [unfold vector_back; yields_auto| |stopped_at i|stopped_at i].
  intros back _. cbv zeta.
  eapply prints_after_quiet;
    [apply yields_set_locals| |stopped_at i|stopped_at i].
  intros _ _. unfold sampled.
  destruct (decide (Z.rem i 500 = 0)) as [Hs|Hs].
  - eapply prints_after_quiet; [apply yields_lift, quiet_GetName| |done|done].
    intros dir_name _.
    eapply prints_after_quiet; [apply yields_lift, quiet_RunTest| |done|done].
    intros result _. intros s.
    destruct (prints_lift_printf (Line_d_f (i + 1) result) s) as (evs & Ht & Hr & Hls).
    exists evs. split; [done|]. rewrite Hr, Hls.
    eexists. split; [|done]. by eexists.
  - eapply prints_quiet; [|done]. by apply (yields_ret _ any_value).
Qed.

Lemma Test3_lines_stopped (from : Z) (fuel : nat) (r : Result unit) :
  r <> Ok tt -> Test3_lines from fuel r [].
Proof.
  intros Hr. exists []. split; [constructor|]. split; [apply prefix_nil|done].
Qed.

Lemma Test3_loop_prints (w : World) (iterations : Z) (fuel : nat) :
  forall i : Z,
    prints (Test3_lines i fuel) (for_prog i fuel (Test3_step w iterations)).
Proof.
  induction fuel as [|fuel IH]; intros i s.
  - exists []. cbn. rewrite app_nil_r. split; [done|].
    exists []. by split; [constructor|].
  - cbn [for_prog]. rewrite bind_run.
    destruct (Test3_step_prints w iterations i s) as (evs1 & Ht1 & Hstep).
    assert (Hseq : seqZ i (Z.of_nat (S fuel)) = i :: seqZ (i + 1) (Z.of_nat fuel)).
    { rewrite seqZ_cons by lia. do 2 f_equal; lia. }
    destruct (Test3_step w iterations i s) as [[[]|e|] s1]; cbn [fst snd] in *.
    + destruct (IH (i + 1) s1) as (evs2 & Ht2 & idxs & Hlines & Hprefix & Hall).
      exists (evs1 ++ evs2). rewrite Ht2, Ht1, app_assoc. split; [done|].
      rewrite printed_app. unfold Test3_lines. rewrite Hseq, filter_cons.
      destruct (decide (sampled i)) as [Hs|Hs].
      * destruct Hstep as (l & Hl & ->). exists (i :: idxs).
        split; [by constructor|]. split; [by apply prefix_cons|].
        intros Hok. by rewrite Hall.
      * rewrite Hstep. by exists idxs.
    + exists evs1. split; [done|].
      replace (printed evs1) with (@nil Line) by (by destruct (decide (sampled i))).
      by apply Test3_lines_stopped.
    + exists evs1. split; [done|].
      replace (printed evs1) with (@nil Line) by (by destruct (decide (sampled i))).
      by apply Test3_lines_stopped.
Qed.

Lemma Test3_prints (w : World) (args : list string) :
  prints (Test3_lines 0 (Z.to_nat (GetArg args 1 16000))) (Test3 w args).
Proof.
  unfold Test3. cbv zeta.
  eapply prints_after_quiet; [apply quiet_OpenDirectory| | |].
  - intros base_dir _. apply prints_before_quiet.
    + apply prints_run_block; [apply Test3_loop_prints|].
      intros [last_dir dirs]. apply quiet_vector_dtor.
    + unfold ScopedHandle_dtor. yields_auto.
  - intros e. by apply Test3_lines_stopped.
  - by apply Test3_lines_stopped.
Qed.

(** C7: scenario 3 with [dir_count = 10], whatever [iterations] is: of the
    loop indices 0..9 only 0 is sampled; a run that completes prints exactly
    one line, and its first field is 1; a run that an exception cuts short
    prints that line or nothing. *)
Theorem Test3_ten_directories (w : World) (args : list string) (m : Machine) :
  GetArg args 1 16000 = 10 ->
  let run := Test3 w args m in
  let lines := printed (new_events m (snd run)) in
  filter sampled (seqZ 0 10) = [0]
  /\ (fst run = Ok tt -> exists t : double, lines = [Line_d_f 1 t])
  /\ (lines = [] \/ exists t : double, lines = [Line_d_f 1 t]).
Proof.
  intros Hcount run lines.
  assert (Hsampled : filter sampled (seqZ 0 10) = [0]) by reflexivity.
  split; [done|].
  destruct (Test3_prints w args m) as (evs & Htrace & idxs & Hlines & Hprefix & Hall).
  unfold machine_of, machine_itself in Htrace.
  fold run in Htrace, Hall. rewrite Hcount in Hprefix, Hall.
  change (Z.of_nat (Z.to_nat 10)) with 10 in Hprefix, Hall.
  rewrite Hsampled in Hprefix, Hall.
  assert (Hl : lines = printed evs).
  { unfold lines. by rewrite (new_events_app _ _ _ Htrace). }
  rewrite Hl. clear Hl lines.
  assert (Hone : forall ls, Forall2 Test3_line [0] ls -> exists t, ls = [Line_d_f 1 t]).
  { intros ls H1. apply Forall2_cons_inv_l in H1 as (l & ls' & [t ->] & Hnil & ->).
    apply Forall2_nil_inv_l in Hnil as ->. by exists t. }
  split.
  - intros Hok. apply Hone. by rewrite <- Hall.
  - destruct idxs as [|j idxs].
    + left. by apply Forall2_nil_inv_l in Hlines.
    + right. apply Hone.
      destruct Hprefix as [rest Hrest]. destruct idxs; [|done].
      by injection Hrest as <- _.
Qed.

(** C7 in [calm] with 3 iterations: one line, first field 1. *)
Lemma Test3_ten_directories_witness :
  fst (Test3 calm ["3"; "10"] boot) = Ok tt
  /\ exists t : double,
       printed (new_events boot (snd (Test3 calm ["3"; "10"] boot))) = [Line_d_f 1 t].
Proof.
  assert (Hok : fst (Test3 calm ["3"; "10"] boot) = Ok tt) by (by vm_compute).
  split; [exact Hok|].
  destruct (Test3_ten_directories calm ["3"; "10"] boot) as (_ & Hline & _).
  - reflexivity.
  - exact (Hline Hok).
Defined.

(** ** Handle lifetimes: the measured loop *)

Lemma vector_dtor_run (v : list ScopedHandle) :
  forall m : Machine,
    fst (vector_dtor v m) = Ok tt
    /\ trace (snd (vector_dtor v m)) = trace m ++ (EvCloseHandle <$> (m_handle <$> v))
    /\ issued (snd (vector_dtor v m)) = issued m.
Proof.
  unfold vector_dtor. induction v as [|x v IH]; intros m.
  - cbn. by rewrite app_nil_r.
  - change (for_each (x :: v) ScopedHandle_dtor m)
      with (for_each v ScopedHandle_dtor (emit (EvCloseHandle (m_handle x)) m)).
    destruct (IH (emit (EvCloseHandle (m_handle x)) m)) as (Hok & Htrace & Hissued).
    rewrite Hok, Htrace, Hissued, trace_emit, <- app_assoc. done.
Qed.

Lemma kept_app (evs1 evs2 : list Event) : kept (evs1 ++ evs2) = kept evs1 ++ kept evs2.
Proof. apply omap_app. Qed.

(** ** Insertion into a vector *)

Lemma emits_nil (m : Machine) : emits [] m = m.
Proof. destruct m. unfold emits. cbn. by rewrite app_nil_r. Qed.

Lemma trace_emits (evs : list Event) (m : Machine) : trace (emits evs m) = trace m ++ evs.
Proof. done. Qed.

Lemma issued_emits (evs : list Event) (m : Machine) : issued (emits evs m) = issued m.
Proof. done. Qed.

Lemma moved_elements (v : list ScopedHandle) : (ScopedHandle_move <$> v).*1 = v.
Proof. induction v as [|[h] v IH]; [done|]. cbn. by rewrite IH. Qed.

Lemma emptied_elements (v : list ScopedHandle) :
  m_handle <$> (ScopedHandle_move <$> v).*2 = replicate (length v) nullptr.
Proof. induction v as [|x v IH]; [done|]. cbn. by rewrite IH. Qed.

Lemma vector_dtor_emits (v : list ScopedHandle) (m : Machine) :
  vector_dtor v m = (Ok tt, emits (EvCloseHandle <$> (m_handle <$> v)) m).
Proof.
  unfold vector_dtor. revert m. induction v as [|x v IH]; intros m.
  - cbn. by rewrite emits_nil.
  - change (for_each (x :: v) ScopedHandle_dtor m)
      with (for_each v ScopedHandle_dtor (emit (EvCloseHandle (m_handle x)) m)).
    rewrite IH. unfold emits, emit. cbn. by rewrite <- app_assoc.
Qed.

(** Making room for one more element returns the elements as they were;
    what can be seen of it is the closes of [reallocation_closes]. *)
Lemma vector_make_room_run (w : World) (v : list ScopedHandle) (m : Machine) :
  vector_make_room w v m = (Ok v, emits (reallocation_closes w (length v)) m).
Proof.
  unfold vector_make_room, reallocation_closes.
  destruct (vector_full w (length v)).
  - unfold vector_reallocate. cbv zeta. rewrite bind_run, vector_dtor_emits.
    rewrite emptied_elements, fmap_replicate, moved_elements. done.
  - cbn. by rewrite emits_nil.
Qed.

Lemma emplace_back_handle_run (w : World) (v : list ScopedHandle) (h : HANDLE)
    (m : Machine) :
  emplace_back_handle w v h m
  = (Ok (v ++ [ScopedHandle_explicit h]), emits (reallocation_closes w (length v)) m).
Proof.
  unfold emplace_back_handle. cbv zeta. by rewrite bind_run, vector_make_room_run.
Qed.

Lemma push_temporary_run (w : World) (v : list ScopedHandle) (tmp : ScopedHandle)
    (m : Machine) :
  push_temporary w v tmp m
  = (Ok (v ++ [{| m_handle := m_handle tmp |}]),
     emits (reallocation_closes w (length v) ++ [EvCloseHandle nullptr]) m).
Proof.
  unfold push_temporary, emplace_back_move, ScopedHandle_move.
  rewrite !bind_run, vector_make_room_run. cbn [fst snd].
  unfold ScopedHandle_dtor, CloseHandle, emit, emits.
  cbv [mbind prog_bind mret prog_ret trace issued m_handle].
  by rewrite <- app_assoc.
Qed.

Lemma kept_closes (hs : list HANDLE) : kept (EvCloseHandle <$> hs) = [].
Proof. by induction hs. Qed.

Lemma kept_reallocation_closes (w : World) (size : nat) :
  kept (reallocation_closes w size) = [].
Proof. unfold reallocation_closes. rewrite <- fmap_replicate. apply kept_closes. Qed.

Lemma timed_reallocation_closes (w : World) (size : nat) :
  Forall timed (reallocation_closes w size).
Proof. apply Forall_replicate. by right. Qed.

Lemma grants_reallocation_closes (w : World) (size : nat) :
  Forall grants_non_null (reallocation_closes w size).
Proof. apply Forall_replicate. by intros c st h. Qed.

Lemma fresh_handle_not_null (k : nat) : fresh_handle k <> nullptr.
Proof. unfold fresh_handle, nullptr. lia. Qed.

(** One round of the loop of [RunTest]: one [NtOpenEvent] call; unless the
    status is an error its handle joins [handles], which may take new
    storage for it. *)
Lemma RunTest_open_run (w : World) (obja : OBJECT_ATTRIBUTES)
    (handles : list ScopedHandle) (m : Machine) :
  exists (evs : list Event) (r : Result unit) (handles' : list ScopedHandle)
         (m' : Machine),
    RunTest_open w obja (handles, m) = (r, (handles', m'))
    /\ trace m' = trace m ++ evs
    /\ Forall timed evs
    /\ Forall grants_non_null evs
    /\ m_handle <$> handles' = (m_handle <$> handles) ++ kept evs
    /\ (issued m <= issued m')%nat
    /\ (kernel_sane w -> Forall (issued_between (issued m) (issued m')) (kept evs)).
Proof.
  unfold RunTest_open, syscall, uninitialised.
  cbv [mbind prog_bind mret prog_ret lift get_locals set_locals fst snd].
  set (c := NtOpenEvent _ _). set (st := nt_status w (steps m) c).
  pose proof (NT_ERROR_not_SUCCESS st) as Hexcl.
  assert (Hkept : forall h size,
            kept (EvSyscall c st h :: reallocation_closes w size)
            = if NT_ERROR st then [] else [h]).
  { intros h size. change (EvSyscall c st h :: reallocation_closes w size)
      with ([EvSyscall c st h] ++ reallocation_closes w size).
    rewrite kept_app, kept_reallocation_closes, app_nil_r.
    unfold kept. cbn. by destruct (NT_ERROR st). }
  assert (Hgrant : forall h, (NT_SUCCESS st = true -> h <> nullptr) ->
            grants_non_null (EvSyscall c st h)).
  { intros h Hh c' st' h' [= _ <- <-]. exact Hh. }
  destruct (NT_SUCCESS st) eqn:Hs; rewrite Check_spec;
    destruct (NT_ERROR st) eqn:He; try (by specialize (Hexcl eq_refl));
    rewrite ?emplace_back_handle_run.
  - eexists (EvSyscall c st _ :: reallocation_closes w (length handles)), _, _, _.
    split; [reflexivity|]. rewrite trace_emits, trace_issue, trace_emit, <- app_assoc.
    split; [reflexivity|].
    split; [constructor; [by left|apply timed_reallocation_closes]|].
    split.
    { constructor; [|apply grants_reallocation_closes].
      apply Hgrant. intros _. apply fresh_handle_not_null. }
    rewrite Hkept, fmap_app, issued_emits, issued_issue, issued_emit.
    split; [done|]. split; [lia|].
    intros _. repeat constructor. exists (issued m). split; [lia|done].
  - eexists [EvSyscall c st _], _, _, _.
    split; [reflexivity|]. rewrite trace_emit. split; [reflexivity|].
    split; [constructor; [by left|constructor]|].
    split; [repeat constructor; by apply Hgrant|].
    unfold kept. cbn [omap list_omap kept_of]. fold st. rewrite He, app_nil_r.
    split; [done|]. split; [rewrite issued_emit; lia|]. by intros _.
  - eexists (EvSyscall c st _ :: reallocation_closes w (length handles)), _, _, _.
    split; [reflexivity|]. rewrite trace_emits, trace_emit, <- app_assoc.
    split; [reflexivity|].
    split; [constructor; [by left|apply timed_reallocation_closes]|].
    split.
    { constructor; [|apply grants_reallocation_closes]. by apply Hgrant. }
    rewrite Hkept, fmap_app, issued_emits, issued_emit.
    split; [done|]. split; [lia|].
    intros Hsane. destruct (Hsane (steps m) c) as [Hyes|Hyes]; fold st in Hyes; congruence.
Qed.

Lemma issued_between_wider (lo hi lo' hi' : nat) (h : HANDLE) :
  (lo' <= lo)%nat -> (hi <= hi')%nat -> issued_between lo hi h -> issued_between lo' hi' h.
Proof. intros Hlo Hhi (k & Hk & ->). exists k. split; [lia|done]. Qed.

Lemma RunTest_loop_run (w : World) (obja : OBJECT_ATTRIBUTES) (fuel : nat) :
  forall (i : Z) (handles : list ScopedHandle) (m : Machine),
  exists (evs : list Event) (r : Result unit) (handles' : list ScopedHandle)
         (m' : Machine),
    for_prog i fuel (fun _ => RunTest_open w obja) (handles, m) = (r, (handles', m'))
    /\ trace m' = trace m ++ evs
    /\ Forall timed evs
    /\ Forall grants_non_null evs
    /\ m_handle <$> handles' = (m_handle <$> handles) ++ kept evs
    /\ (issued m <= issued m')%nat
    /\ (kernel_sane w -> Forall (issued_between (issued m) (issued m')) (kept evs)).
Proof.
  induction fuel as [|fuel IH]; intros i handles m.
  - exists [], (Ok tt), handles, m. cbn. rewrite !app_nil_r.
    split; [done|]. split; [done|]. split; [constructor|]. split; [constructor|].
    split; [done|]. split; [lia|]. by intros _.
  - cbn [for_prog]. rewrite bind_run.
    destruct (RunTest_open_run w obja handles m)
      as (evs1 & r1 & handles1 & m1 & -> & Ht1 & Hm1 & Hg1 & Hh1 & Hi1 & Hf1).
    destruct r1 as [[]|ex|].
    + destruct (IH (i + 1) handles1 m1)
        as (evs & r & handles' & m' & -> & Ht & Hm & Hg & Hh & Hi & Hf).
      exists (evs1 ++ evs), r, handles', m'.
      split; [done|]. split; [by rewrite Ht, Ht1, <- app_assoc|].
      split; [by apply Forall_app|]. split; [by apply Forall_app|]. split.
      { rewrite Hh, Hh1, <- app_assoc. f_equal. by rewrite <- kept_app. }
      split; [lia|]. intros Hsane.
      rewrite kept_app. apply Forall_app. split.
      * eapply Forall_impl; [exact (Hf1 Hsane)|].
        intros h. apply issued_between_wider; lia.
      * eapply Forall_impl; [exact (Hf Hsane)|].
        intros h. apply issued_between_wider; lia.
    + by exists evs1, (Throw ex), handles1, m1.
    + by exists evs1, Undefined, handles1, m1.
Qed.

Lemma kept_measuring_clock (t : time_point) : kept [EvClock t] = [].
Proof. reflexivity. Qed.

Lemma timed_clock (t : time_point) : Forall timed [EvClock t].
Proof. constructor; [by left|constructor]. Qed.

Lemma grants_clock (t : time_point) : Forall grants_non_null [EvClock t].
Proof. repeat constructor. by intros c st h. Qed.

(** The block of [RunTest] after the event is created: the timer, the loop,
    the sample, and then the destructor of [handles]. *)
Lemma RunTest_block_run (w : World) (obja : OBJECT_ATTRIBUTES) (iterations : Z)
    (m1 : Machine) :
  let blk :=
    run_block []
      (timer ← lift (Timer_new w);
       for_prog 0 (Z.to_nat iterations) (fun _ => RunTest_open w obja);;
       lift (GetTime w timer iterations))
      vector_dtor m1 in
  exists evs : list Event,
    trace (snd blk) = trace m1 ++ evs ++ (EvCloseHandle <$> kept evs)
    /\ Forall timed evs
    /\ Forall grants_non_null evs
    /\ (issued m1 <= issued (snd blk))%nat
    /\ (kernel_sane w -> Forall (issued_between (issued m1) (issued (snd blk))) (kept evs)).
Proof.
  cbv zeta. unfold run_block, Timer_new, GetTime, now.
  cbv [mbind prog_bind mret prog_ret lift fst].
  set (t0 := clock w (steps m1)). set (m2 := emit (EvClock t0) m1).
  destruct (RunTest_loop_run w obja (Z.to_nat iterations) 0 [] m2)
    as (evs & r & handles & m3 & -> & Ht & Hm & Hg & Hh & Hi & Hf).
  rewrite fmap_nil, app_nil_l in Hh.
  assert (Ht2 : trace m2 = trace m1 ++ [EvClock t0]) by reflexivity.
  assert (Hi2 : issued m2 = issued m1) by reflexivity.
  destruct r as [[]|ex|].
  - set (t1 := clock w (steps m3)).
    destruct (vector_dtor_run handles (emit (EvClock t1) m3)) as (_ & Hd & Hdi).
    destruct (vector_dtor handles (emit (EvClock t1) m3)) as [rd m4]. cbn [fst snd] in *.
    exists ([EvClock t0] ++ evs ++ [EvClock t1]).
    rewrite !kept_app, !kept_measuring_clock, app_nil_l, app_nil_r.
    split.
    { rewrite Hd, trace_emit, Ht, Ht2, Hh. by rewrite <- !app_assoc. }
    split.
    { apply Forall_app. split; [apply timed_clock|].
      apply Forall_app. split; [done|apply timed_clock]. }
    split.
    { apply Forall_app. split; [apply grants_clock|].
      apply Forall_app. split; [done|apply grants_clock]. }
    rewrite Hdi, issued_emit. split; [lia|].
    intros Hsane. rewrite <- Hi2. by apply Hf.
  - destruct (vector_dtor_run handles m3) as (_ & Hd & Hdi).
    destruct (vector_dtor handles m3) as [rd m4]. cbn [fst snd] in *.
    exists ([EvClock t0] ++ evs).
    rewrite !kept_app, !kept_measuring_clock, app_nil_l.
    split.
    { rewrite Hd, Ht, Ht2, Hh. by rewrite <- !app_assoc. }
    split.
    { apply Forall_app. split; [apply timed_clock|done]. }
    split.
    { apply Forall_app. split; [apply grants_clock|done]. }
    rewrite Hdi. split; [lia|].
    intros Hsane. rewrite <- Hi2. by apply Hf.
  - destruct (vector_dtor_run handles m3) as (_ & Hd & Hdi).
    destruct (vector_dtor handles m3) as [rd m4]. cbn [fst snd] in *.
    exists ([EvClock t0] ++ evs).
    rewrite !kept_app, !kept_measuring_clock, app_nil_l.
    split.
    { rewrite Hd, Ht, Ht2, Hh. by rewrite <- !app_assoc. }
    split.
    { apply Forall_app. split; [apply timed_clock|done]. }
    split.
    { apply Forall_app. split; [apply grants_clock|done]. }
    rewrite Hdi. split; [lia|].
    intros Hsane. rewrite <- Hi2. by apply Hf.
Qed.

(** The trace of [RunTest]: timed events, then closes; every handle a call
    left in a variable is among the closed ones.  In a sane world a run that
    does not throw at the creation of the event closes only handles it
    obtained itself. *)
Lemma RunTest_shape (w : World) (name : wstring) (iterations : Z)
    (create_name : wstring) (root : HANDLE) (m : Machine) :
  let run := RunTest w name iterations create_name root m in
  exists (body : list Event) (hs : list HANDLE),
    trace (snd run) = trace m ++ body ++ (EvCloseHandle <$> hs)
    /\ Forall timed body
    /\ Forall grants_non_null body
    /\ (forall h, h ∈ kept body -> h ∈ hs)
    /\ (issued m <= issued (snd run))%nat
    /\ (kernel_sane w ->
        (exists e, fst run = Throw e)
        \/ Forall (issued_between (issued m) (issued (snd run))) hs).
Proof.
  cbv zeta. unfold RunTest. cbv zeta. rewrite bind_run.
  unfold CreateEvent. cbv zeta. cbn [ObjectAttributes ObjectName RootDirectory].
  set (c := NtCreateEvent _ root).
  set (obja := {| ObjectName := UnicodeString name; RootDirectory := nullptr |}).
  assert (Hgrant : forall st h, (NT_SUCCESS st = true -> h <> nullptr) ->
            grants_non_null (EvSyscall c st h)).
  { intros st h Hh c' st' h' [= _ <- <-]. exact Hh. }
  destruct (handle_call_cases w c m)
    as [(Hs & He & ->)|[(Hs & He & ->)|(Hs & He & ->)]].
  - set (h0 := fresh_handle (issued m)).
    set (m1 := issue (emit (EvSyscall c _ h0) m)).
    unfold finally, ScopedHandle_dtor, CloseHandle. cbn [m_handle].
    destruct (RunTest_block_run w obja iterations m1) as (evs & Ht & Hm & Hg & Hi & Hf).
    cbv zeta in Ht, Hi, Hf.
    destruct (run_block _ _ _ m1) as [r m2]. cbn [fst snd] in *.
    exists (EvSyscall c (nt_status w (steps m) c) h0 :: evs), (kept evs ++ [h0]).
    split.
    { rewrite trace_emit, Ht. unfold m1. rewrite trace_issue, trace_emit.
      rewrite fmap_app. cbn. by rewrite <- !app_assoc. }
    split; [constructor; [by left|done]|].
    split.
    { constructor; [|done]. apply Hgrant. intros _. apply fresh_handle_not_null. }
    split.
    { intros h. unfold kept. cbn [omap list_omap kept_of]. rewrite He.
      intros [->|Hh]%elem_of_cons; apply elem_of_app; [right|by left].
      apply elem_of_cons. by left. }
    rewrite issued_emit. unfold m1 in Hi. rewrite issued_issue, issued_emit in Hi.
    split; [lia|]. intros Hsane. right. apply Forall_app. split.
    + eapply Forall_impl; [exact (Hf Hsane)|]. intros h.
      apply issued_between_wider; [|lia]. unfold m1.
      rewrite issued_issue, issued_emit. lia.
    + repeat constructor. exists (issued m). split; [lia|done].
  - set (g := indeterminate w (steps m)).
    set (m1 := emit (EvSyscall c _ g) m).
    unfold finally, ScopedHandle_dtor, CloseHandle. cbn [m_handle].
    destruct (RunTest_block_run w obja iterations m1) as (evs & Ht & Hm & Hg & Hi & Hf).
    cbv zeta in Ht, Hi, Hf.
    destruct (run_block _ _ _ m1) as [r m2]. cbn [fst snd] in *.
    exists (EvSyscall c (nt_status w (steps m) c) g :: evs), (kept evs ++ [g]).
    split.
    { rewrite trace_emit, Ht. unfold m1. rewrite trace_emit.
      rewrite fmap_app. cbn. by rewrite <- !app_assoc. }
    split; [constructor; [by left|done]|].
    split.
    { constructor; [|done]. apply Hgrant. congruence. }
    split.
    { intros h. unfold kept. cbn [omap list_omap kept_of]. rewrite He.
      intros [->|Hh]%elem_of_cons; apply elem_of_app; [right|by left].
      apply elem_of_cons. by left. }
    rewrite issued_emit. unfold m1 in Hi. rewrite issued_emit in Hi.
    split; [lia|]. intros Hsane.
    destruct (Hsane (steps m) c); congruence.
  - exists [EvSyscall c (nt_status w (steps m) c) (indeterminate w (steps m))],
      [indeterminate w (steps m)].
    cbn [fst snd]. split; [by rewrite !trace_emit, <- app_assoc|].
    split; [constructor; [by left|constructor]|].
    split.
    { repeat constructor. apply Hgrant. pose proof (NT_ERROR_not_SUCCESS
        (nt_status w (steps m) c)). congruence. }
    split.
    { intros h. unfold kept. cbn [omap list_omap kept_of]. rewrite He.
      intros Hh. by apply elem_of_nil in Hh. }
    rewrite !issued_emit. split; [lia|]. intros _. left. by eexists.
Qed.

(** ** Handle lifetimes: reading traces *)

Lemma scan_app (tracks : Syscall -> bool) (ph : Phase) (evs1 evs2 : list Event) :
  scan tracks ph (evs1 ++ evs2) = scan tracks (scan tracks ph evs1) evs2.
Proof. apply foldl_app. Qed.

Lemma scan_closes (tracks : Syscall -> bool) (hs : list HANDLE) :
  forall ph : Phase, ph <> Broken -> scan tracks ph (EvCloseHandle <$> hs) <> Broken.
Proof.
  induction hs as [|h hs IH]; intros ph Hph; [done|].
  cbn. apply IH. destruct ph as [held| |]; cbn; [|done|done].
  by destruct (bool_decide (h ∈ held)).
Qed.

Lemma scan_closing (tracks : Syscall -> bool) (evs : list Event) :
  Forall closing evs ->
  forall ph : Phase, ph <> Broken -> scan tracks ph evs <> Broken.
Proof.
  induction 1 as [|e evs He _ IH]; intros ph Hph; [done|].
  cbn. apply IH. destruct e; try done.
  destruct ph as [held| |]; cbn; [|done|done].
  by destruct (bool_decide (h ∈ held)).
Qed.

Lemma scan_null_closes (tracks : Syscall -> bool) (held : list HANDLE)
    (evs : list Event) :
  nullptr ∉ held -> Forall (eq (EvCloseHandle nullptr)) evs ->
  scan tracks (Holding held) evs = Holding held.
Proof.
  intros Hnull. induction 1 as [|e evs <- _ IH]; [done|].
  cbn. by rewrite bool_decide_eq_false_2.
Qed.

Lemma scan_timed (tracks : Syscall -> bool) (held : list HANDLE) (evs : list Event) :
  ignores_events tracks -> nullptr ∉ held -> Forall timed evs ->
  scan tracks (Holding held) evs = Holding held.
Proof.
  intros Hev Hnull. induction 1 as [|e evs He _ IH]; [done|].
  cbn. destruct He as [He| ->].
  - destruct e as [[| | |name root|name root] st h| | | |]; try done.
    + destruct (Hev name root) as [Hc _]. by rewrite Hc.
    + destruct (Hev name root) as [_ Hc]. by rewrite Hc.
  - cbn. by rewrite bool_decide_eq_false_2.
Qed.

Lemma fresh_handle_inj (j k : nat) : fresh_handle j = fresh_handle k -> j = k.
Proof. unfold fresh_handle. lia. Qed.

Lemma fresh_below_wider (n n' : nat) (held : list HANDLE) :
  (n <= n')%nat -> fresh_below n held -> fresh_below n' held.
Proof.
  intros Hn Hf h Hh. destruct (Hf h Hh) as (k & Hk & ->). exists k. split; [lia|done].
Qed.

Lemma fresh_below_cons (n : nat) (held : list HANDLE) :
  fresh_below n held -> fresh_below (S n) (fresh_handle n :: held).
Proof.
  intros Hf h [->|Hh]%elem_of_cons.
  - exists n. split; [lia|done].
  - destruct (Hf h Hh) as (k & Hk & ->). exists k. split; [lia|done].
Qed.

Lemma fresh_below_not_issued (n n' : nat) (held : list HANDLE) (h : HANDLE) :
  fresh_below n held -> issued_between n n' h -> h ∉ held.
Proof.
  intros Hf (k & Hk & ->) Hh. destruct (Hf _ Hh) as (j & Hj & Heq).
  apply fresh_handle_inj in Heq. lia.
Qed.

Lemma fresh_below_not_null (n : nat) (held : list HANDLE) :
  fresh_below n held -> nullptr ∉ held.
Proof.
  intros Hf Hh. destruct (Hf _ Hh) as (k & _ & Heq).
  symmetry in Heq. by apply fresh_handle_not_null in Heq.
Qed.

Lemma scan_close_own (tracks : Syscall -> bool) (n n' : nat) (held : list HANDLE)
    (hs : list HANDLE) :
  fresh_below n held -> Forall (issued_between n n') hs ->
  scan tracks (Holding held) (EvCloseHandle <$> hs) = Holding held.
Proof.
  intros Hf. induction 1 as [|h hs Hh _ IH]; [done|].
  cbn. rewrite bool_decide_eq_false_2; [done|].
  by eapply fresh_below_not_issued.
Qed.

(** ** Handle lifetimes: composition *)

Section Keeps.

Context {St : Type} `{HasMachine St} (tracks : Syscall -> bool).

Lemma keeps_ret {A : Type} (a : A) : keeps tracks (mret a : Prog St A).
Proof.
  intros s held Hf. exists []. cbn. rewrite app_nil_r. split; [done|]. by exists held.
Qed.

Lemma keeps_throw {A : Type} (e : NtException) : keeps tracks (throw e : Prog St A).
Proof. intros s held Hf. exists []. cbn. rewrite app_nil_r. by split. Qed.

Lemma keeps_undefined {A : Type} : keeps tracks (undefined : Prog St A).
Proof. intros s held Hf. exists []. cbn. rewrite app_nil_r. by split. Qed.

Lemma keeps_Check (st : NTSTATUS) : keeps tracks (Check st : Prog St unit).
Proof. unfold Check. destruct (NT_ERROR st); [apply keeps_throw|apply keeps_ret]. Qed.

Lemma keeps_bind {A B : Type} (p : Prog St A) (k : A -> Prog St B) :
  keeps tracks p -> (forall a, keeps tracks (k a)) -> keeps tracks (p ≫= k).
Proof.
  intros Hp Hk s held Hf. rewrite bind_run.
  destruct (Hp s held Hf) as (evs1 & Ht1 & Hr1).
  destruct (p s) as [[a|e|] s1]; cbn [fst snd] in *.
  - destruct Hr1 as (held1 & Hscan1 & Hf1).
    destruct (Hk a s1 held1 Hf1) as (evs2 & Ht2 & Hr2).
    exists (evs1 ++ evs2). rewrite Ht2, Ht1, app_assoc. split; [done|].
    by rewrite scan_app, Hscan1.
  - by exists evs1.
  - by exists evs1.
Qed.

Lemma keeps_for_prog (body : Z -> Prog St unit) (fuel : nat) :
  (forall i, keeps tracks (body i)) -> forall i, keeps tracks (for_prog i fuel body).
Proof.
  intros Hbody. induction fuel as [|fuel IH]; intros i; cbn [for_prog].
  - apply keeps_ret.
  - apply keeps_bind; [apply Hbody|]. intros _. apply IH.
Qed.

Lemma keeps_for_each {A : Type} (body : A -> Prog St unit) (l : list A) :
  (forall x, keeps tracks (body x)) -> keeps tracks (for_each l body).
Proof.
  intros Hbody. induction l as [|x l IH]; cbn [for_each].
  - apply keeps_ret.
  - apply keeps_bind; [apply Hbody|]. intros _. apply IH.
Qed.

Lemma settles_keeps {A : Type} (p : Prog St A) : keeps tracks p -> settles tracks p.
Proof.
  intros Hp s held Hf. destruct (Hp s held Hf) as (evs & Ht & Hr).
  exists evs. split; [done|].
  destruct (fst (p s)); [|done|done]. destruct Hr as (held' & -> & _). done.
Qed.

Lemma settles_bind {A B : Type} (p : Prog St A) (k : A -> Prog St B) :
  keeps tracks p -> (forall a, settles tracks (k a)) -> settles tracks (p ≫= k).
Proof.
  intros Hp Hk s held Hf. rewrite bind_run.
  destruct (Hp s held Hf) as (evs1 & Ht1 & Hr1).
  destruct (p s) as [[a|e|] s1]; cbn [fst snd] in *.
  - destruct Hr1 as (held1 & Hscan1 & Hf1).
    destruct (Hk a s1 held1 Hf1) as (evs2 & Ht2 & Hr2).
    exists (evs1 ++ evs2). rewrite Ht2, Ht1, app_assoc. split; [done|].
    by rewrite scan_app, Hscan1.
  - by exists evs1.
  - by exists evs1.
Qed.

Lemma settles_finally {A : Type} (body : Prog St A) (cleanup : Prog St unit) :
  settles tracks body -> yields closing any_value cleanup ->
  settles tracks (finally body cleanup).
Proof.
  intros Hb Hc s held Hf. unfold finally.
  destruct (Hb s held Hf) as (evs1 & Ht1 & Hr1).
  destruct (body s) as [r s1]; cbn [fst snd] in *.
  destruct (Hc s1) as (evs2 & Ht2 & Hc2 & _).
  exists (evs1 ++ evs2). rewrite Ht2, Ht1, app_assoc. split; [done|].
  rewrite scan_app. by apply scan_closing.
Qed.

End Keeps.

Lemma keeps_lift {Loc A : Type} (tracks : Syscall -> bool) (p : Prog Machine A) :
  keeps tracks p -> keeps tracks (lift p : Prog (Loc * Machine) A).
Proof.
  intros Hp [l m] held Hf. unfold lift.
  destruct (Hp m held Hf) as (evs & Ht & Hr).
  destruct (p m) as [r m']. by exists evs.
Qed.

Lemma keeps_get_locals {Loc : Type} (tracks : Syscall -> bool) :
  keeps tracks (get_locals : Prog (Loc * Machine) Loc).
Proof.
  intros [l m] held Hf. exists []. cbn. rewrite app_nil_r. split; [done|]. by exists held.
Qed.

Lemma keeps_set_locals {Loc : Type} (tracks : Syscall -> bool) (l : Loc) :
  keeps tracks (set_locals l : Prog (Loc * Machine) unit).
Proof.
  intros [l0 m] held Hf. exists []. cbn. rewrite app_nil_r. split; [done|]. by exists held.
Qed.

Lemma settles_run_block {Loc A : Type} (tracks : Syscall -> bool) (init : Loc)
    (body : Prog (Loc * Machine) A) (dtors : Loc -> Prog Machine unit) :
  settles tracks body -> (forall l, yields closing any_value (dtors l)) ->
  settles tracks (run_block init body dtors).
Proof.
  intros Hb Hd m held Hf. unfold run_block.
  destruct (Hb (init, m) held Hf) as (evs1 & Ht1 & Hr1).
  destruct (body (init, m)) as [r [l m1]]; cbn [fst snd] in *.
  destruct (Hd l m1) as (evs2 & Ht2 & Hc2 & _).
  exists (evs1 ++ evs2). unfold machine_of, machine_with_locals, machine_itself in *.
  cbn [snd] in *. rewrite Ht2, Ht1, app_assoc. split; [done|].
  rewrite scan_app. by apply scan_closing.
Qed.

(** ** Handle lifetimes: the operations *)

Lemma closing_ScopedHandle_dtor (x : ScopedHandle) :
  yields closing any_value (ScopedHandle_dtor x).
Proof. unfold ScopedHandle_dtor. yields_auto. Qed.

Lemma closing_vector_dtor (v : list ScopedHandle) :
  yields closing any_value (vector_dtor v).
Proof. unfold vector_dtor, ScopedHandle_dtor. yields_auto. Qed.

Lemma keeps_event (tracks : Syscall -> bool) (p : Prog Machine unit) (e : Event) :
  (forall m, p m = (Ok tt, emit e m)) ->
  (forall held, scan_step tracks (Holding held) e = Holding held) ->
  keeps tracks p.
Proof.
  intros Hp He m held Hf. exists [e]. rewrite Hp. cbn [fst snd].
  split; [done|]. exists held. split; [|done]. cbn. apply He.
Qed.

Lemma keeps_printf (tracks : Syscall -> bool) (l : Line) : keeps tracks (printf l).
Proof. by apply keeps_event with (e := EvPrintf l). Qed.

Section SaneWorld.

Context (w : World) (Hsane : kernel_sane w) (tracks : Syscall -> bool).

Lemma keeps_now : keeps tracks (now w).
Proof.
  intros m held Hf. exists [EvClock (clock w (steps m))]. cbn [now fst snd].
  split; [done|]. by exists held.
Qed.

Lemma keeps_Timer_new : keeps tracks (Timer_new w).
Proof.
  unfold Timer_new. apply keeps_bind; [apply keeps_now|]. intros t. apply keeps_ret.
Qed.

Lemma keeps_GetTime (timer : Timer) (iterations : Z) :
  keeps tracks (GetTime w timer iterations).
Proof. unfold GetTime. apply keeps_bind; [apply keeps_now|]. intros t. apply keeps_ret. Qed.

Lemma keeps_GetName (h : HANDLE) : keeps tracks (GetName w h).
Proof.
  unfold GetName. apply keeps_bind.
  - intros m held Hf. unfold NtQueryObject_name.
    destruct (nt_name w (steps m) h) as [st name]. eexists [_]. cbn [fst snd].
    split; [done|]. by exists held.
  - intros [st name]. apply keeps_bind; [apply keeps_Check|]. intros _. apply keeps_ret.
Qed.

Lemma keeps_handle_call (c : Syscall) :
  keeps tracks
    (handle ← ScopedHandle_default w;
     '(st, handle) ← syscall_ptr w c handle;
     unwinding (Check st) (ScopedHandle_dtor handle);;
     mret handle).
Proof.
  intros m held Hf. unfold machine_of, machine_itself in *.
  destruct (handle_call_cases w c m)
    as [(Hs & He & ->)|[(Hs & He & ->)|(Hs & He & ->)]]; cbn [fst snd].
  - eexists [_]. split; [done|]. cbn. rewrite Hs.
    destruct (tracks c); cbn [andb]; eexists; (split; [done|]).
    + by apply fresh_below_cons.
    + eapply fresh_below_wider; [|exact Hf]. lia.
  - destruct (Hsane (steps m) c); congruence.
  - eexists [_; _]. split; [by rewrite !trace_emit, <- app_assoc|].
    cbn. rewrite Hs, andb_false_r. cbn. by case_bool_decide.
Qed.

Lemma keeps_CreateDirectory name root shadow :
  keeps tracks (CreateDirectory w name root shadow).
Proof. apply keeps_handle_call. Qed.

Lemma keeps_OpenDirectory name root : keeps tracks (OpenDirectory w name root).
Proof. apply keeps_handle_call. Qed.

Lemma keeps_CreateLink name root target : keeps tracks (CreateLink w name root target).
Proof. apply keeps_handle_call. Qed.

Lemma keeps_CreateEvent name root : keeps tracks (CreateEvent w name root).
Proof. apply keeps_handle_call. Qed.

Lemma keeps_null_closes {A : Type} (p : Prog Machine A) (a : A) (evs : list Event) :
  Forall (eq (EvCloseHandle nullptr)) evs ->
  (forall m, p m = (Ok a, emits evs m)) -> keeps tracks p.
Proof.
  intros Hevs Hp m held Hf. exists evs. rewrite Hp. cbn [fst snd].
  split; [done|]. exists held. split; [|done].
  apply scan_null_closes; [|done]. by eapply fresh_below_not_null.
Qed.

Lemma keeps_push_temporary (v : list ScopedHandle) (tmp : ScopedHandle) :
  keeps tracks (push_temporary w v tmp).
Proof.
  eapply keeps_null_closes; [|apply push_temporary_run].
  apply Forall_app. split; [by apply Forall_replicate|by repeat constructor].
Qed.

End SaneWorld.

Section SaneWorldOwned.

Context (w : World) (Hsane : kernel_sane w).
Context (tracks : Syscall -> bool) (Hevents : ignores_events tracks).

Lemma keeps_RunTest name iterations create_name root :
  keeps tracks (RunTest w name iterations create_name root).
Proof.
  intros m held Hf. unfold machine_of, machine_itself in *.
  destruct (RunTest_shape w name iterations create_name root m)
    as (body & hs & Ht & Hm & _ & _ & Hi & Hown).
  cbv zeta in Ht, Hi, Hown. specialize (Hown Hsane).
  exists (body ++ (EvCloseHandle <$> hs)). split; [done|].
  rewrite scan_app, (scan_timed _ _ _ Hevents (fresh_below_not_null _ _ Hf) Hm).
  destruct (fst (RunTest w name iterations create_name root m)) as [t|e|] eqn:Hr.
  - destruct Hown as [[e He]|Hown]; [done|].
    exists held. split; [by eapply scan_close_own|].
    by eapply fresh_below_wider.
  - by apply scan_closes.
  - by apply scan_closes.
Qed.

(** The timed statement of [Test5]: the handle it opens is closed before the
    statement ends, and it is none of the handles held so far. *)
Lemma keeps_Test5_open base_dir_name base_dir j :
  ignores_opens tracks -> keeps tracks (Test5_open w base_dir_name base_dir j).
Proof.
  intros Hopens m held Hf. unfold machine_of, machine_itself in *.
  unfold Test5_open. rewrite bind_run. unfold OpenDirectory. cbv zeta.
  cbn [ObjectAttributes ObjectName RootDirectory].
  set (c := NtOpenDirectoryObject _ _).
  assert (Hc : tracks c = false) by apply Hopens.
  destruct (handle_call_cases w c m)
    as [(Hs & He & ->)|[(Hs & He & ->)|(Hs & He & ->)]]; cbn [fst snd].
  - eexists [_; _]. unfold ScopedHandle_dtor, CloseHandle. cbn [fst snd m_handle].
    split; [by rewrite trace_emit, trace_issue, trace_emit, <- app_assoc|].
    exists held. cbn. rewrite Hc. cbn. rewrite bool_decide_eq_false_2.
    + split; [done|]. eapply fresh_below_wider; [|exact Hf]. lia.
    + eapply fresh_below_not_issued; [exact Hf|].
      exists (issued m). split; [|done]. split; [lia|]. apply Nat.lt_succ_diag_r.
  - destruct (Hsane (steps m) c); congruence.
  - eexists [_; _]. split; [by rewrite !trace_emit, <- app_assoc|].
    cbn. rewrite Hc. cbn. by case_bool_decide.
Qed.

End SaneWorldOwned.

(** ** Handle lifetimes: the scenarios *)

Ltac keeps_step w Hsane Hevents :=
  lazymatch goal with
  | |- keeps _ (mret _) => apply keeps_ret
  | |- keeps _ (_ ≫= _) => apply keeps_bind; [|intros ?]
  | |- keeps _ (let '(_, _) := ?x in _) => destruct x
  | |- keeps _ (if ?b then _ else _) => destruct b
  | |- keeps _ (lift _) => apply keeps_lift
  | |- keeps _ get_locals => apply keeps_get_locals
  | |- keeps _ (set_locals _) => apply keeps_set_locals
  | |- keeps _ (throw _) => apply keeps_throw
  | |- keeps _ undefined => apply keeps_undefined
  | |- keeps _ (Check _) => apply keeps_Check
  | |- keeps _ (for_prog _ _ _) => apply keeps_for_prog; intros ?
  | |- keeps _ (for_each _ _) => apply keeps_for_each; intros ?
  | |- keeps _ (CreateDirectory _ _ _ _) => apply (keeps_CreateDirectory w Hsane)
  | |- keeps _ (OpenDirectory _ _ _) => apply (keeps_OpenDirectory w Hsane)
  | |- keeps _ (CreateLink _ _ _ _) => apply (keeps_CreateLink w Hsane)
  | |- keeps _ (CreateEvent _ _ _) => apply (keeps_CreateEvent w Hsane)
  | |- keeps _ (RunTest _ _ _ _ _) => apply (keeps_RunTest w Hsane _ Hevents)
  | |- keeps _ (Test5_open _ _ _ _) =>
      apply (keeps_Test5_open w Hsane); assumption
  | |- keeps _ (GetName _ _) => apply keeps_GetName
  | |- keeps _ (name _ _) => apply keeps_GetName
  | |- keeps _ (push_temporary _ _ _) => apply keeps_push_temporary
  | |- keeps _ (Timer_new _) => apply keeps_Timer_new
  | |- keeps _ (GetTime _ _ _) => apply keeps_GetTime
  | |- keeps _ (printf _) => apply keeps_printf
  | |- keeps _ (vector_front ?v) => unfold vector_front; destruct v
  | |- keeps _ (vector_back ?v) => unfold vector_back; destruct (last v)
  end.

Ltac keeps_auto w Hsane Hevents := repeat keeps_step w Hsane Hevents.

Section Scenarios.

Context (w : World) (Hsane : kernel_sane w).
Context (tracks : Syscall -> bool) (Hevents : ignores_events tracks).

Lemma keeps_Test2_while (iterations : Z) (path : wstring) :
  keeps tracks (Test2_while w iterations path).
Proof.
  funelim (Test2_while w iterations path).
  - apply keeps_bind; [apply (keeps_RunTest w Hsane _ Hevents)|]. intros result.
    apply keeps_bind; [apply keeps_printf|]. intros u.
    exact (H result u boot).
  - apply keeps_ret.
Qed.

Lemma keeps_Test7_loop (iterations dir_count : Z) (dir_name : wstring)
    (shadow_dir : ScopedHandle) (i : Z) :
  keeps tracks (Test7_loop w iterations dir_count dir_name shadow_dir i).
Proof.
  funelim (Test7_loop w iterations dir_count dir_name shadow_dir i).
  - apply keeps_bind; [apply (keeps_RunTest w Hsane _ Hevents)|]. intros result.
    apply keeps_bind; [apply keeps_printf|]. intros u.
    destruct (decide (i + 500 <= INT_MAX)) as [Hstep|Hstep].
    + exact (H result u Hstep boot).
    + apply keeps_undefined.
  - apply keeps_ret.
Qed.

Ltac settles_tail :=
  apply settles_finally; [|apply closing_ScopedHandle_dtor].

Lemma settles_Test1 (args : list string) : settles tracks (Test1 w args).
Proof. apply settles_keeps. unfold Test1. cbv zeta. keeps_auto w Hsane Hevents. Qed.

Lemma settles_Test2 (args : list string) : settles tracks (Test2 w args).
Proof. apply settles_keeps. apply keeps_Test2_while. Qed.

Lemma settles_Test3 (args : list string) : settles tracks (Test3 w args).
Proof.
  unfold Test3. cbv zeta.
  apply settles_bind; [apply (keeps_OpenDirectory w Hsane)|]. intros base_dir.
  settles_tail. apply settles_run_block.
  - apply settles_keeps. unfold Test3_step. keeps_auto w Hsane Hevents.
  - intros [last_dir dirs]. apply closing_vector_dtor.
Qed.

Lemma settles_Test4 (args : list string) : settles tracks (Test4 w args).
Proof.
  unfold Test4. cbv zeta.
  apply settles_bind; [apply (keeps_OpenDirectory w Hsane)|]. intros base_dir.
  settles_tail. apply settles_run_block.
  - apply settles_keeps. unfold Test4_dir_step, Test4_link_step.
    keeps_auto w Hsane Hevents.
  - intros [[last_dir dirs] links].
    eapply yields_bind; [apply closing_vector_dtor|]. intros _ _.
    apply closing_vector_dtor.
Qed.

Lemma settles_Test5 (args : list string) :
  ignores_opens tracks -> settles tracks (Test5 w args).
Proof.
  intros Hopens. unfold Test5. cbv zeta.
  apply settles_bind; [apply (keeps_CreateDirectory w Hsane)|]. intros base_dir.
  settles_tail. apply settles_run_block; [|apply closing_vector_dtor].
  apply settles_keeps. unfold Test5_step. cbv zeta. keeps_auto w Hsane Hevents.
Qed.

Lemma settles_Test6 (args : list string) : settles tracks (Test6 w args).
Proof.
  unfold Test6. cbv zeta.
  apply settles_bind; [apply (keeps_CreateDirectory w Hsane)|]. intros base_dir.
  settles_tail. apply settles_run_block; [|apply closing_vector_dtor].
  apply settles_keeps. unfold Test6_insert. keeps_auto w Hsane Hevents.
Qed.

Lemma settles_Test7 (args : list string) : settles tracks (Test7 w args).
Proof.
  unfold Test7. cbv zeta.
  apply settles_bind; [apply (keeps_CreateDirectory w Hsane)|]. intros shadow_dir.
  settles_tail.
  apply settles_bind; [apply (keeps_CreateDirectory w Hsane)|]. intros target_dir.
  settles_tail. apply settles_keeps. apply keeps_Test7_loop.
Qed.

Lemma settles_Test8 (args : list string) : settles tracks (Test8 w args).
Proof.
  unfold Test8. cbv zeta.
  apply settles_bind; [apply (keeps_CreateDirectory w Hsane)|]. intros shadow_dir.
  settles_tail.
  apply settles_bind; [apply (keeps_CreateDirectory w Hsane)|]. intros target_dir.
  settles_tail. apply settles_run_block.
  - apply settles_keeps. unfold Test8_dir_step, Test8_link_step.
    keeps_auto w Hsane Hevents.
  - intros [dirs links].
    eapply yields_bind; [apply closing_vector_dtor|]. intros _ _.
    apply closing_vector_dtor.
Qed.

End Scenarios.

Lemma scenario_kept_ignores_events (test_no : Z) : ignores_events (scenario_kept test_no).
Proof. by intros name root. Qed.

Lemma settles_scenario (w : World) (test_no : Z) (args : list string) :
  kernel_sane w -> settles (scenario_kept test_no) (scenario w test_no args).
Proof.
  intros Hsane. pose proof (scenario_kept_ignores_events test_no) as Hevents.
  destruct (decide (1 <= test_no <= 8)) as [Hknown|Hunknown].
  - assert (test_no = 1 \/ test_no = 2 \/ test_no = 3 \/ test_no = 4 \/ test_no = 5
            \/ test_no = 6 \/ test_no = 7 \/ test_no = 8) as Hcases by lia.
    destruct Hcases as [->|[->|[->|[->|[->|[->|[->| ->]]]]]]];
      [by apply settles_Test1|by apply settles_Test2|by apply settles_Test3
      |by apply settles_Test4|by apply settles_Test5|by apply settles_Test6
      |by apply settles_Test7|by apply settles_Test8].
  - assert (Hret : scenario w test_no args = mret tt).
    { destruct test_no as [|p|p]; [reflexivity| |reflexivity].
      do 4 (destruct p as [p|p|]; try reflexivity; try lia). }
    rewrite Hret. apply settles_keeps, keeps_ret.
Qed.

Lemma settles_retained (tracks : Syscall -> bool) (p : Prog Machine unit) (m : Machine) :
  settles tracks p -> retained tracks (new_events m (snd (p m))) = true.
Proof.
  intros Hp. destruct (Hp m []) as (evs & Ht & Hscan).
  { intros h Hh. by apply elem_of_nil in Hh. }
  unfold machine_of, machine_itself in Ht.
  rewrite (new_events_app _ _ _ Ht). unfold retained.
  by destruct (scan tracks (Holding []) evs).
Qed.

Lemma retained_timed_then_closes (body : list Event) (hs : list HANDLE) :
  Forall timed body -> Forall grants_non_null body ->
  retained every_handle (body ++ (EvCloseHandle <$> hs)) = true.
Proof.
  intros Hbody Hgrants. unfold retained. rewrite scan_app.
  assert (Hhold : forall held, nullptr ∉ held -> exists held',
             scan every_handle (Holding held) body = Holding held').
  { induction Hbody as [|e body He _ IH]; intros held Hnull; [by exists held|].
    apply Forall_cons in Hgrants as [Hg Hgrants].
    cbn [scan foldl]. fold (scan every_handle).
    destruct e as [c st h| |h| |]; cbn [scan_step every_handle andb].
    - destruct (NT_SUCCESS st) eqn:Hs; [|by apply IH].
      apply IH; [done|]. intros [Heq|Hh]%elem_of_cons; [|done].
      by apply (Hg c st h).
    - by apply IH.
    - destruct He as [[]|[= ->]]. rewrite bool_decide_eq_false_2 by done. by apply IH.
    - by apply IH.
    - by apply IH. }
  destruct (Hhold []) as [held' ->]; [by intros ?%elem_of_nil|].
  pose proof (scan_closes every_handle hs (Holding held') ltac:(done)) as Hc.
  by destruct (scan every_handle (Holding held') (EvCloseHandle <$> hs)).
Qed.

(** C2, as the code has it: handles are kept by the scope that owns them.
    [RunTest] keeps every handle it creates or opens until it has sampled the
    timer: before its destructors run it closes nothing but null, for the
    emptied elements a growing vector destroys, and its destructors close
    every handle it kept.  The timed statement of [Test5] closes the handle
    it opened at once.  In every scenario the handles of the directories and
    links it creates, and of the directories it opens into a variable of its
    own, stay open until the destructors at the end of the scenario (in a
    world whose kernel calls return success or an error). *)
Theorem handles_kept_by_owning_scope (w : World) (m : Machine) :
  (forall name iterations create_name root,
     let run := RunTest w name iterations create_name root m in
     exists (body : list Event) (hs : list HANDLE),
       new_events m (snd run) = body ++ (EvCloseHandle <$> hs)
       /\ Forall timed body
       /\ (forall h, h ∈ kept body -> h ∈ hs)
       /\ retained every_handle (new_events m (snd run)) = true)
  /\ (forall base_dir_name base_dir j,
        let c := NtOpenDirectoryObject (counted (UnicodeString base_dir_name))
                   (get base_dir) in
        NT_SUCCESS (nt_status w (steps m) c) = true ->
        fst (Test5_open w base_dir_name base_dir j m) = Ok tt
        /\ new_events m (snd (Test5_open w base_dir_name base_dir j m))
           = [EvSyscall c (nt_status w (steps m) c) (fresh_handle (issued m));
              EvCloseHandle (fresh_handle (issued m))])
  /\ (kernel_sane w ->
      forall test_no args,
        retained (scenario_kept test_no)
          (new_events m (snd (scenario w test_no args m))) = true).
Proof.
  split; [|split].
  - intros name iterations create_name root run.
    destruct (RunTest_shape w name iterations create_name root m)
      as (body & hs & Ht & Hm & Hg & Hk & _ & _).
    cbv zeta in Ht. fold run in Ht.
    exists body, hs. rewrite (new_events_app _ _ _ Ht).
    split; [done|]. split; [done|]. split; [done|].
    by apply retained_timed_then_closes.
  - intros base_dir_name base_dir j c Hs.
    unfold Test5_open. rewrite bind_run. unfold OpenDirectory. cbv zeta.
    cbn [ObjectAttributes ObjectName RootDirectory]. fold c.
    destruct (handle_call_cases w c m)
      as [(_ & He & ->)|[(Hs' & _ & _)|(Hs' & _ & _)]]; [|congruence|congruence].
    unfold ScopedHandle_dtor, CloseHandle. cbn [fst snd m_handle].
    split; [done|]. apply new_events_app.
    by rewrite trace_emit, trace_issue, trace_emit, <- app_assoc.
  - intros Hsane test_no args. apply settles_retained.
    by apply settles_scenario.
Qed.

(** Not every handle lives to the end of its scenario (C2 as worded).  In
    scenario 5, run in [calm] with one iteration and one colliding name, the
    handle that the timed [OpenDirectory] returns, 12, is closed before the
    clock is read again and the sample is printed.  In scenario 1, run in
    [calm] with one iteration, the handles of the event, 4 and 8, are
    closed when [RunTest] returns, before the scenario prints its line. *)
Lemma handles_closed_before_scenario_ends :
  retained every_handle (new_events boot (snd (Test5 calm ["1"; "1"] boot))) = false
  /\ new_events boot (snd (Test5 calm ["1"; "1"] boot))
     = [EvSyscall (NtCreateDirectoryObjectEx BaseNamedObjects_A 0 0) 0 4;
        EvSyscall (NtCreateDirectoryObjectEx [0; 65] 4 0) 0 8;
        EvCloseHandle 0;
        EvClock 7500000;
        EvSyscall (NtOpenDirectoryObject [0; 65] 4) 0 12;
        EvCloseHandle 12;
        EvClock 15000000;
        EvPrintf (Line_d_f 0 (S754_finite false 8246337208320000 (-40)));
        EvCloseHandle 8;
        EvCloseHandle 4]
  /\ retained every_handle (new_events boot (snd (Test1 calm ["1"] boot))) = false
  /\ (exists name : wstring,
        new_events boot (snd (Test1 calm ["1"] boot))
        = [EvSyscall (NtCreateEvent name 0) 0 4;
           EvClock 2500000;
           EvSyscall (NtOpenEvent name 0) 0 8;
           EvClock 7500000;
           EvCloseHandle 8;
           EvCloseHandle 4;
           EvPrintf (Line_us_for (S754_finite false 5497558138880000 (-40)) 1)]).
Proof.
  split; [by vm_compute|]. split; [by vm_compute|]. split; [by vm_compute|].
  eexists. by vm_compute.
Qed.

Lemma calm_sane : kernel_sane calm.
Proof. intros n c. by left. Qed.

(** C2 in [calm]: [RunTest] alone retains every handle; scenario 5 retains
    the directories it creates, scenario 3 those it creates and the one it
    opens. *)
Lemma handles_kept_witness :
  retained every_handle
    (new_events boot (snd (RunTest calm (L "\BaseNamedObjects\X") 2 [] nullptr boot)))
  = true
  /\ retained (scenario_kept 5) (new_events boot (snd (scenario calm 5 ["1"; "1"] boot)))
     = true
  /\ retained (scenario_kept 3) (new_events boot (snd (scenario calm 3 ["1"; "2"] boot)))
     = true.
Proof.
  destruct (handles_kept_by_owning_scope calm boot) as (Hrun & _ & Hscenario).
  split; [|split].
  - destruct (Hrun (L "\BaseNamedObjects\X") 2 [] nullptr) as (body & hs & _ & _ & _ & H).
    exact H.
  - exact (Hscenario calm_sane 5 ["1"; "1"]).
  - exact (Hscenario calm_sane 3 ["1"; "2"]).
Defined.

(** ** Lifetimes of scoped handles *)

Lemma closed_app (tr1 tr2 : list Event) : closed (tr1 ++ tr2) = closed tr1 ++ closed tr2.
Proof. apply omap_app. Qed.

Lemma entered_app (ops1 ops2 : list Op) :
  entered (ops1 ++ ops2) = entered ops1 ++ entered ops2.
Proof. apply omap_app. Qed.

Lemma non_null_app (hs1 hs2 : list HANDLE) :
  non_null (hs1 ++ hs2) = non_null hs1 ++ non_null hs2.
Proof. apply filter_app. Qed.

Lemma non_null_cons (h : HANDLE) (hs : list HANDLE) :
  non_null (h :: hs) = non_null [h] ++ non_null hs.
Proof. apply (non_null_app [h] hs). Qed.

Lemma non_null_null (hs : list HANDLE) : non_null (nullptr :: hs) = non_null hs.
Proof. unfold non_null. by rewrite filter_cons_False by (by intros ?). Qed.

Global Instance non_null_Permutation : Proper ((≡ₚ) ==> (≡ₚ)) non_null.
Proof. intros hs1 hs2 Hperm. unfold non_null. by rewrite Hperm. Qed.

Lemma held_by_insert (objs : gmap nat ScopedHandle) (o : nat) (x : ScopedHandle) :
  objs !! o = None -> held_by (<[o := x]> objs) ≡ₚ m_handle x :: held_by objs.
Proof. intros Ho. unfold held_by. by rewrite map_to_list_insert. Qed.

Lemma held_by_delete (objs : gmap nat ScopedHandle) (o : nat) (x : ScopedHandle) :
  objs !! o = Some x -> m_handle x :: held_by (delete o objs) ≡ₚ held_by objs.
Proof. intros Ho. unfold held_by. by rewrite <- (map_to_list_delete objs o x). Qed.

Lemma held_by_replace (objs : gmap nat ScopedHandle) (o : nat) (x y : ScopedHandle) :
  objs !! o = Some x ->
  held_by (<[o := y]> objs) ≡ₚ m_handle y :: held_by (delete o objs).
Proof.
  intros Ho. rewrite <- insert_delete_eq. apply held_by_insert, lookup_delete_eq.
Qed.

Lemma step_op_accounted (op : Op) (st st' : Objects) (ent : list HANDLE) :
  step_op op st = Some st' -> accounted st ent -> accounted st' (ent ++ entered [op]).
Proof.
  unfold accounted. intros Hstep Hacc.
  destruct op as [o g|o h|dst src|o h|o|dst src|dst src]; cbn in Hstep;
    [| | | | |done|done].
  - destruct (decide (live st !! o = None)) as [Ho|]; [|done].
    injection Hstep as <-. cbn [live os lost entered omap list_omap entered_of].
    rewrite held_by_insert by done. cbn [m_handle].
    rewrite non_null_app, <- Hacc, (non_null_cons g (held_by _)). solve_Permutation.
  - destruct (decide (live st !! o = None)) as [Ho|]; [|done].
    injection Hstep as <-. cbn [live os lost entered omap list_omap entered_of].
    rewrite held_by_insert by done. cbn [m_handle ScopedHandle_explicit].
    rewrite non_null_app, <- Hacc, (non_null_cons h (held_by _)). solve_Permutation.
  - destruct (live st !! src) as [other|] eqn:Hsrc; [|done].
    destruct (decide (live st !! dst = None)) as [Hdst|]; [|done].
    injection Hstep as <-. cbn [live os lost entered omap list_omap entered_of].
    rewrite app_nil_r, <- Hacc. apply Permutation_app_head, Permutation_app_tail.
    assert (Hne : dst <> src) by congruence.
    rewrite held_by_insert by (by rewrite lookup_insert_ne).
    rewrite (held_by_replace _ src other) by done.
    cbn [m_handle]. rewrite <- (held_by_delete (live st) src other Hsrc).
    by rewrite (non_null_cons (m_handle other)), non_null_null, <- non_null_cons.
  - destruct (live st !! o) as [x|] eqn:Ho; [|done].
    injection Hstep as <-. cbn [live os lost entered omap list_omap entered_of].
    rewrite (held_by_replace _ o x) by done. cbn [m_handle].
    rewrite !non_null_app, <- Hacc, <- (held_by_delete (live st) o x Ho).
    rewrite (non_null_cons h (held_by _)), (non_null_cons (m_handle x) (held_by _)).
    solve_Permutation.
  - destruct (live st !! o) as [x|] eqn:Ho; [|done].
    injection Hstep as <-. cbn [live os lost entered omap list_omap entered_of].
    rewrite app_nil_r, <- Hacc.
    unfold ScopedHandle_dtor, CloseHandle. cbn [snd]. rewrite trace_emit, closed_app.
    cbn [closed omap list_omap closed_of]. rewrite non_null_app.
    rewrite <- (held_by_delete (live st) o x Ho).
    rewrite (non_null_cons (m_handle x) (held_by _)). solve_Permutation.
Qed.

Lemma run_ops_accounted (ops : list Op) :
  forall (st st' : Objects) (ent : list HANDLE),
    run_ops ops st = Some st' -> accounted st ent -> accounted st' (ent ++ entered ops).
Proof.
  induction ops as [|op ops IH]; intros st st' ent Hrun Hacc.
  - injection Hrun as <-. by rewrite app_nil_r.
  - cbn in Hrun. destruct (step_op op st) as [st1|] eqn:Hstep; [|done].
    cbn in Hrun.
    change (op :: ops) with ([op] ++ ops). rewrite entered_app, app_assoc.
    eapply IH; [exact Hrun|]. by eapply step_op_accounted.
Qed.

Lemma run_ops_no_copy (ops : list Op) :
  forall st st' : Objects,
    run_ops ops st = Some st' -> Forall (fun op => is_copy op = false) ops.
Proof.
  induction ops as [|op ops IH]; intros st st' Hrun; [constructor|].
  cbn in Hrun. destruct (step_op op st) as [st1|] eqn:Hstep; [|done].
  cbn in Hrun. constructor; [|by eapply IH]. by destruct op.
Qed.

Lemma owning_preserves_lost (op : Op) (st st' : Objects) :
  owning op -> step_op op st = Some st' -> lost st' = lost st.
Proof.
  intros Hop Hstep.
  destruct op as [o g|o h|dst src|o h|o|dst src|dst src]; try done; cbn in Hstep.
  - destruct (decide (live st !! o = None)); [|done]. by injection Hstep as <-.
  - destruct (live st !! src); [|done].
    destruct (decide (live st !! dst = None)); [|done]. by injection Hstep as <-.
  - destruct (live st !! o); [|done]. by injection Hstep as <-.
Qed.

(** In a history that fills its default-constructed objects at once, what
    the stores overwrite and what the history puts into objects without
    obtaining it are the same: the indeterminate contents. *)
Lemma fills_defaults_lost (ops : list Op) :
  fills_defaults ops ->
  forall st st' : Objects,
    run_ops ops st = Some st' ->
    exists gs : list HANDLE,
      lost st' = lost st ++ gs /\ entered ops ≡ₚ obtained ops ++ gs.
Proof.
  induction 1 as [|o g h rest _ IH|op rest Hop _ IH]; intros st st' Hrun.
  - injection Hrun as <-. exists []. by rewrite app_nil_r.
  - cbn [run_ops] in Hrun. cbn [step_op] in Hrun.
    destruct (decide (live st !! o = None)) as [Ho|]; [|done].
    cbn [mbind option_bind run_ops step_op live] in Hrun.
    rewrite lookup_insert_eq in Hrun. cbn [mbind option_bind] in Hrun.
    destruct (IH _ _ Hrun) as (gs & Hlost & Hent).
    cbn [lost m_handle] in Hlost.
    exists (g :: gs). split; [by rewrite Hlost, <- app_assoc|].
    unfold entered, obtained in *. cbn [omap list_omap entered_of obtained_of].
    rewrite Hent. solve_Permutation.
  - cbn [run_ops] in Hrun. destruct (step_op op st) as [st1|] eqn:Hstep; [|done].
    cbn [mbind option_bind] in Hrun.
    destruct (IH _ _ Hrun) as (gs & Hlost & Hent).
    rewrite (owning_preserves_lost op st st1 Hop Hstep) in Hlost.
    exists gs. split; [done|].
    unfold entered, obtained in *.
    destruct op; try done; cbn [omap list_omap entered_of obtained_of];
      by rewrite ?Hent.
Qed.





(** * Part III: further properties *)

(** ** Counted strings *)

Lemma counted_at_most (str : wstring) :
  0 <= Length (UnicodeString str) / 2 < 32768.
Proof.
  cbn [UnicodeString Length].
  pose proof (Z.mod_pos_bound (Z.of_nat (length str) * 2) 65536 ltac:(lia)) as Hmod.
  split; [apply Z.div_pos; lia|]. apply Z.div_lt_upper_bound; lia.
Qed.

Lemma as_kernel_reads_whole (str : wstring) :
  as_kernel_reads str = str <-> Z.of_nat (length str) < 32768.
Proof.
  unfold as_kernel_reads, counted. pose proof (counted_at_most str) as Hhalf.
  cbn [Buffer UnicodeString Length] in *. split.
  - intros Heq. apply (f_equal length) in Heq. rewrite length_take in Heq. lia.
  - intros Hlen. apply take_ge.
    rewrite Z.mod_small by lia. rewrite Z.div_mul by lia. lia.
Qed.

(** X1: the byte count of a counted string is cut to 16 bits, so the kernel
    reads a prefix of the name, of fewer than 32768 characters; it reads the
    whole name exactly when the name has fewer than 32768 characters. *)
Theorem UnicodeString_reads_whole_name (str : wstring) :
  as_kernel_reads str `prefix_of` str
  /\ Z.of_nat (length (as_kernel_reads str)) < 32768
  /\ (as_kernel_reads str = str <-> Z.of_nat (length str) < 32768).
Proof.
  split; [apply prefix_take|]. split.
  - unfold as_kernel_reads, counted. rewrite length_take.
    pose proof (counted_at_most str). lia.
  - apply as_kernel_reads_whole.
Qed.

(** ** Collision names at the kernel *)

Lemma MakeCollisionName_length (count : Z) :
  length (MakeCollisionName count) = S (Z.to_nat count).
Proof.
  rewrite MakeCollisionName_shape, length_app, length_replicate. cbn. lia.
Qed.

Lemma MakeCollisionName_whole (count : Z) :
  as_kernel_reads (MakeCollisionName count) = MakeCollisionName count
  <-> count <= 32766.
Proof.
  rewrite as_kernel_reads_whole, MakeCollisionName_length. lia.
Qed.

(** X2: a collision name has one character more than the requested number
    of zeros, so a count of zero or less gives the name ["A"]; distinct
    non-negative counts give distinct names; and the kernel reads the name
    whole exactly when the count is at most 32766. *)
Theorem MakeCollisionName_edges (count : Z) :
  length (MakeCollisionName count) = S (Z.to_nat count)
  /\ (count <= 0 -> MakeCollisionName count = L "A")
  /\ (forall other : Z,
        0 <= count -> 0 <= other ->
        MakeCollisionName count = MakeCollisionName other -> count = other)
  /\ (as_kernel_reads (MakeCollisionName count) = MakeCollisionName count
      <-> count <= 32766).
Proof.
  split; [apply MakeCollisionName_length|]. split.
  { intros Hcount. rewrite MakeCollisionName_shape.
    by replace (Z.to_nat count) with O by lia. }
  split.
  { intros other Hcount Hother Heq. apply (f_equal zero_run) in Heq.
    rewrite !zero_run_collision in Heq. lia. }
  apply MakeCollisionName_whole.
Qed.

(** X2 for the counts 0 and -3. *)
Lemma MakeCollisionName_edges_witness :
  MakeCollisionName 0 = L "A" /\ MakeCollisionName (-3) = L "A".
Proof.
  split.
  - apply (MakeCollisionName_edges 0). lia.
  - apply (MakeCollisionName_edges (-3)). lia.
Defined.

Lemma Test6_names_NoDup (count : Z) : NoDup (Test6_names count).
Proof.
  assert (Hrun : forall (i : nat) (a : wstring),
             Test6_names count !! i = Some a ->
             (i < Z.to_nat count)%nat /\ zero_run a = (Z.to_nat count - i)%nat).
  { intros i a Ha.
    assert (Hi : (i < Z.to_nat count)%nat).
    { rewrite <- Test6_names_length. by eapply lookup_lt_Some. }
    rewrite Test6_names_lookup in Ha by done.
    injection Ha as <-. rewrite zero_run_collision. split; [done | lia]. }
  apply NoDup_alt. intros i j a Hi Hj.
  destruct (Hrun i a Hi) as [? ?]. destruct (Hrun j a Hj) as [? ?]. lia.
Qed.

(** X3: for a collision count of at most 32766 the kernel reads every name
    of the collision scenarios whole, so the names it receives are pairwise
    distinct. *)
Theorem collision_names_whole_at_kernel (collision_count : Z) :
  collision_count <= 32766 ->
  as_kernel_reads <$> Test6_names collision_count = Test6_names collision_count
  /\ NoDup (as_kernel_reads <$> Test6_names collision_count).
Proof.
  intros Hcount.
  assert (Hwhole : as_kernel_reads <$> Test6_names collision_count
                   = Test6_names collision_count).
  { rewrite <- (list_fmap_id (Test6_names collision_count)) at 2.
    apply list_fmap_ext. intros i a Ha.
    assert (Hi : (i < Z.to_nat collision_count)%nat).
    { rewrite <- Test6_names_length. by eapply lookup_lt_Some. }
    rewrite Test6_names_lookup in Ha by done. injection Ha as <-.
    apply MakeCollisionName_whole. lia. }
  split; [done|]. rewrite Hwhole. apply Test6_names_NoDup.
Qed.

(** X3 for three names. *)
Lemma collision_names_whole_witness :
  as_kernel_reads <$> Test6_names 3 = [[0; 0; 0; 65]; [0; 0; 65]; [0; 65]].
Proof.
  rewrite (proj1 (collision_names_whole_at_kernel 3 ltac:(lia))). reflexivity.
Defined.

(** ** The timer outside its contract *)

Lemma binary_round_finite (s : bool) (p : positive) :
  Zpos p < 2 ^ 53 -> exists m e, binary_round 53 1024 s p 0 = S754_finite s m e.
Proof.
  intros Hhi.
  pose proof (digits2_pos_bound p 53 ltac:(lia) Hhi) as Hd.
  unfold binary_round, shl_align, fexp, emin.
  set (d := digits2_pos p) in *.
  replace (Z.max (Zpos d + 0 - 53) (3 - 1024 - 53)) with (Zpos d - 53) by lia.
  destruct (Zpos d - 53 - 0) as [|k|k] eqn:Hk; try lia.
  - eexists _, _. apply binary_round_aux_canonical.
    unfold bounded, canonical_mantissa, fexp, emin. fold d.
    apply andb_true_intro. split; [apply Z.eqb_eq | apply Z.leb_le]; lia.
  - eexists _, _. apply binary_round_aux_canonical.
    unfold bounded, canonical_mantissa, fexp, emin.
    rewrite digits2_pos_iter_xO. fold d.
    apply andb_true_intro. split; [apply Z.eqb_eq | apply Z.leb_le]; lia.
Qed.

Lemma double_of_Z_negative (z : Z) :
  - 2 ^ 53 < z < 0 -> exists m e, double_of_Z z = S754_finite true m e.
Proof.
  intros Hz. destruct z as [|p|p]; try lia.
  apply binary_round_finite. lia.
Qed.

Lemma double_div_by_negative (x : double) (m : positive) (e : Z) :
  signed_as false x -> signed_as true (double_div x (S754_finite true m e)).
Proof.
  intros Hx. unfold double_div, SFdiv.
  destruct x as [sx|sx| |sx mx ex]; simpl in Hx; try done; subst sx; try done.
  simpl xorb.
  destruct (SFdiv_core_binary 53 1024 (Zpos mx) ex (Zpos m) e) as [[mz ez] lz] eqn:Hcore.
  apply binary_round_aux_signed.
  unfold SFdiv_core_binary in Hcore.
  set (s := ex - e - _) in Hcore.
  set (m' := match s with Z0 => _ | _ => _ end) in Hcore.
  assert (Hm' : 0 <= m').
  { subst m'. destruct s; try lia. apply Z.shiftl_nonneg. lia. }
  pose proof (Z.div_pos m' (Zpos m) Hm' ltac:(lia)) as Hq.
  unfold Z.div in Hq. destruct (Z.div_eucl m' (Zpos m)) as [q r].
  by injection Hcore as <- _ _.
Qed.

(** X4: [GetTime] called with [iterations = 0] divides by zero as doubles
    do: the value is NaN when less than a microsecond has elapsed and
    [+infinity] otherwise; with negative [iterations] the value has its sign
    bit set. *)
Theorem GetTime_outside_contract (t0 t1 iterations : Z) :
  t0 <= t1 ->
  (t1 - t0) / 1000 < 2 ^ 53 ->
  (iterations = 0 ->
   GetTime_at {| m_start := t0 |} t1 iterations
   = if decide (t1 - t0 < 1000) then S754_nan else S754_infinity false)
  /\ (INT_MIN <= iterations < 0 ->
      signed_as true (GetTime_at {| m_start := t0 |} t1 iterations)).
Proof.
  intros Ht Hbound.
  assert (Hus : duration_cast_microseconds (t1 - t0) = (t1 - t0) / 1000).
  { unfold duration_cast_microseconds. apply Z.quot_div_nonneg; lia. }
  unfold GetTime_at. cbn [m_start]. rewrite Hus. split.
  - intros ->. destruct (decide (t1 - t0 < 1000)) as [Hshort|Hlong].
    + by rewrite Z.div_small by lia.
    + destruct (double_of_Z_finite ((t1 - t0) / 1000)) as (m & e & ->); [|done].
      split; [|done].
      pose proof (Z.div_le_mono 1000 (t1 - t0) 1000 ltac:(lia) ltac:(lia)) as Hle.
      by rewrite Z.div_same in Hle by lia.
  - intros Hneg. destruct (double_of_Z_negative iterations) as (m & e & ->).
    { unfold INT_MIN in Hneg. change (2 ^ 53) with 9007199254740992. lia. }
    apply double_div_by_negative, double_of_Z_signed.
    apply Z.div_pos; lia.
Qed.

(** X4 at 7500 microseconds: [+infinity] for 0 iterations, a negative value
    for -3. *)
Lemma GetTime_outside_contract_witness :
  GetTime_at {| m_start := 0 |} 7500000 0 = S754_infinity false
  /\ signed_as true (GetTime_at {| m_start := 0 |} 7500000 (-3)).
Proof.
  destruct (GetTime_outside_contract 0 7500000 0) as [Hzero _]; [lia|by vm_compute|].
  destruct (GetTime_outside_contract 0 7500000 (-3)) as [_ Hneg]; [lia|by vm_compute|].
  split; [exact (Hzero eq_refl)|]. apply Hneg. unfold INT_MIN. lia.
Defined.

(** ** The measured loop, event by event *)

Lemma unfailed_call (c : Syscall) (st : NTSTATUS) (h : HANDLE) :
  NT_ERROR st = false -> unfailed (EvSyscall c st h).
Proof. intros He st' [= <-]. done. Qed.

Lemma kept_unfailed_call (c : Syscall) (st : NTSTATUS) (h : HANDLE) :
  kept [EvSyscall c st h] = if NT_ERROR st then [] else [h].
Proof. unfold kept. cbn. by destruct (NT_ERROR st). Qed.

Lemma RunTest_rounds_call (w : World) (size : nat) (c : Syscall) (st : NTSTATUS)
    (h : HANDLE) (rest : list Event) :
  RunTest_rounds w size (EvSyscall c st h :: rest)
  = if NT_ERROR st then EvSyscall c st h :: RunTest_rounds w size rest
    else EvSyscall c st h :: reallocation_closes w size ++ RunTest_rounds w (S size) rest.
Proof. cbn. by destruct (NT_ERROR st). Qed.

Lemma RunTest_rounds_app (w : World) (opens1 opens2 : list Event) :
  forall size : nat,
    RunTest_rounds w size (opens1 ++ opens2)
    = RunTest_rounds w size opens1
        ++ RunTest_rounds w (size + length (kept opens1)) opens2.
Proof.
  induction opens1 as [|e opens1 IH]; intros size.
  - cbn. by rewrite Nat.add_0_r.
  - cbn [app RunTest_rounds]. unfold kept. cbn [omap list_omap]. fold (kept opens1).
    destruct (kept_of e).
    + rewrite IH. cbn [length]. rewrite <- Nat.add_succ_comm.
      cbn [app]. by rewrite <- app_assoc.
    + by rewrite IH.
Qed.

Lemma RunTest_rounds_Forall (P : Event -> Prop) (w : World) (opens : list Event) :
  P (EvCloseHandle nullptr) -> Forall P opens ->
  forall size : nat, Forall P (RunTest_rounds w size opens).
Proof.
  intros Hnull. induction 1 as [|e opens He _ IH]; intros size; [constructor|].
  cbn. destruct (kept_of e).
  - constructor; [done|]. apply Forall_app. split; [|apply IH].
    by apply Forall_replicate.
  - by constructor.
Qed.

Lemma RunTest_rounds_omap {A : Type} (f : Event -> option A) (w : World)
    (opens : list Event) :
  f (EvCloseHandle nullptr) = None ->
  forall size : nat, omap f (RunTest_rounds w size opens) = omap f opens.
Proof.
  intros Hnull. induction opens as [|e opens IH]; intros size; [done|].
  assert (Hcl : omap f (reallocation_closes w size) = []).
  { unfold reallocation_closes. induction (if vector_full w size then size else 0%nat);
      [done|]. cbn. by rewrite Hnull. }
  cbn [RunTest_rounds]. destruct (kept_of e).
  - change (e :: ?l) with ([e] ++ l). rewrite !omap_app, Hcl, IH. done.
  - change (e :: ?l) with ([e] ++ l). by rewrite !omap_app, IH.
Qed.

Lemma kept_RunTest_rounds (w : World) (size : nat) (opens : list Event) :
  kept (RunTest_rounds w size opens) = kept opens.
Proof. by apply RunTest_rounds_omap. Qed.

Lemma syscalls_RunTest_rounds (w : World) (size : nat) (opens : list Event) :
  syscalls (RunTest_rounds w size opens) = syscalls opens.
Proof. by apply RunTest_rounds_omap. Qed.

Lemma RunTest_open_exact (w : World) (obja : OBJECT_ATTRIBUTES)
    (handles : list ScopedHandle) (m : Machine) :
  let c := NtOpenEvent (counted (ObjectName obja)) (RootDirectory obja) in
  let st := nt_status w (steps m) c in
  exists (h : HANDLE) (m' : Machine),
    trace m' = trace m ++ RunTest_rounds w (length handles) [EvSyscall c st h]
    /\ RunTest_open w obja (handles, m)
       = (if NT_ERROR st then Throw {| status := st |} else Ok tt,
          (if NT_ERROR st then handles else handles ++ [ScopedHandle_explicit h], m')).
Proof.
  cbv zeta.
  unfold RunTest_open, syscall, uninitialised.
  cbv [mbind prog_bind mret prog_ret lift get_locals set_locals fst snd].
  set (c := NtOpenEvent _ _). set (st := nt_status w (steps m) c).
  destruct (NT_SUCCESS st); rewrite Check_spec, ?emplace_back_handle_run;
    destruct (NT_ERROR st) eqn:He; rewrite ?emplace_back_handle_run;
    eexists _, _; rewrite RunTest_rounds_call, He;
    (split; [|reflexivity]);
    rewrite ?trace_emits, ?trace_issue, ?trace_emit, <- ?app_assoc, ?app_nil_r;
    reflexivity.
Qed.

Lemma RunTest_loop_exact (w : World) (obja : OBJECT_ATTRIBUTES) (fuel : nat) :
  let c := NtOpenEvent (counted (ObjectName obja)) (RootDirectory obja) in
  forall (i : Z) (handles : list ScopedHandle) (m : Machine),
  exists (evs : list Event) (r : Result unit) (m' : Machine),
    for_prog i fuel (fun _ => RunTest_open w obja) (handles, m)
    = (r, (handles ++ (ScopedHandle_explicit <$> kept evs), m'))
    /\ trace m' = trace m ++ RunTest_rounds w (length handles) evs
    /\ calls_of c evs
    /\ (length evs <= fuel)%nat
    /\ outcome_of_calls r fuel evs.
Proof.
  cbv zeta. induction fuel as [|fuel IH]; intros i handles m.
  - exists [], (Ok tt), m. cbn. rewrite !app_nil_r.
    split; [done|]. split; [done|]. split; [constructor|]. split; [lia|].
    split; [done|constructor].
  - cbn [for_prog]. rewrite bind_run.
    destruct (RunTest_open_exact w obja handles m) as (h & m1 & Ht1 & ->).
    set (c := NtOpenEvent _ _) in *. set (st := nt_status w (steps m) c) in *.
    rewrite RunTest_rounds_call in Ht1.
    destruct (NT_ERROR st) eqn:He.
    + exists [EvSyscall c st h], (Throw {| status := st |}), m1.
      rewrite RunTest_rounds_call, kept_unfailed_call, He. cbn. rewrite app_nil_r.
      split; [done|]. split; [done|].
      split; [repeat constructor; by eexists _, _|]. split; [lia|].
      exists [], (EvSyscall c st h). by repeat split.
    + destruct (IH (i + 1) (handles ++ [ScopedHandle_explicit h]) m1)
        as (evs & r & m' & -> & Ht & Hcalls & Hlen & Hout).
      rewrite length_app, Nat.add_1_r in Ht. cbn [RunTest_rounds app] in Ht1.
      exists (EvSyscall c st h :: evs), r, m'.
      rewrite RunTest_rounds_call, He.
      change (EvSyscall c st h :: evs) with ([EvSyscall c st h] ++ evs).
      rewrite kept_app, kept_unfailed_call, He, fmap_app, <- !app_assoc.
      split; [done|].
      split.
      { rewrite Ht, Ht1, app_nil_r, <- !app_assoc. done. }
      split; [constructor; [by eexists _, _|done]|].
      split; [cbn; lia|].
      destruct r as [[]|ex|]; cbn in Hout |- *.
      * destruct Hout as [<- Hun]. split; [done|].
        constructor; [by apply unfailed_call|done].
      * destruct Hout as (pre & e & -> & Hpre & Hst & Herr).
        exists (EvSyscall c st h :: pre), e.
        split; [done|]. split; [|done].
        constructor; [by apply unfailed_call|done].
      * done.
Qed.

Lemma handles_of_explicit (hs : list HANDLE) :
  m_handle <$> (ScopedHandle_explicit <$> hs) = hs.
Proof. induction hs as [|h hs IH]; [done|]. cbn. by rewrite IH. Qed.

(** The whole of [RunTest], event by event.  [r] is the outcome of the
    loop. *)
Lemma RunTest_exact (w : World) (name : wstring) (iterations : Z)
    (create_name : wstring) (root : HANDLE) (m : Machine) :
  let c0 :=
    NtCreateEvent
      (as_kernel_reads (if decide (create_name = []) then name else create_name)) root in
  let c := NtOpenEvent (as_kernel_reads name) nullptr in
  let st0 := nt_status w (steps m) c0 in
  let run := RunTest w name iterations create_name root m in
  exists (h0 : HANDLE),
    if NT_ERROR st0 then
      run.1 = Throw {| status := st0 |}
      /\ trace run.2 = trace m ++ [EvSyscall c0 st0 h0; EvCloseHandle h0]
    else
      exists (t0 t1 : time_point) (opens : list Event) (r : Result unit),
        calls_of c opens
        /\ (length opens <= Z.to_nat iterations)%nat
        /\ outcome_of_calls r (Z.to_nat iterations) opens
        /\ run.1 = match r with
                   | Ok _ => Ok (GetTime_at {| m_start := t0 |} t1 iterations)
                   | Throw ex => Throw ex
                   | Undefined => Undefined
                   end
        /\ trace run.2
           = trace m ++ [EvSyscall c0 st0 h0; EvClock t0] ++ RunTest_rounds w 0 opens
               ++ match r with Ok _ => [EvClock t1] | _ => [] end
               ++ (EvCloseHandle <$> (kept opens ++ [h0])).
Proof.
  cbv zeta. unfold RunTest. cbv zeta. rewrite bind_run.
  unfold CreateEvent, as_kernel_reads. cbv zeta.
  cbn [ObjectAttributes ObjectName RootDirectory].
  set (c0 := NtCreateEvent _ root).
  set (obja := {| ObjectName := UnicodeString name; RootDirectory := nullptr |}).
  change (ObjectAttributes name nullptr) with obja.
  assert (Hblock : forall (h0 : HANDLE) (m1 : Machine),
    let run :=
      finally
        (run_block []
           (timer ← lift (Timer_new w);
            for_prog 0 (Z.to_nat iterations) (fun _ => RunTest_open w obja);;
            lift (GetTime w timer iterations))
           vector_dtor)
        (ScopedHandle_dtor {| m_handle := h0 |}) m1 in
    exists (t0 t1 : time_point) (opens : list Event) (r : Result unit),
      calls_of (NtOpenEvent (counted (UnicodeString name)) nullptr) opens
      /\ (length opens <= Z.to_nat iterations)%nat
      /\ outcome_of_calls r (Z.to_nat iterations) opens
      /\ run.1 = match r with
                 | Ok _ => Ok (GetTime_at {| m_start := t0 |} t1 iterations)
                 | Throw ex => Throw ex
                 | Undefined => Undefined
                 end
      /\ trace run.2
         = trace m1 ++ [EvClock t0] ++ RunTest_rounds w 0 opens
             ++ match r with Ok _ => [EvClock t1] | _ => [] end
             ++ (EvCloseHandle <$> (kept opens ++ [h0]))).
  { intros h0 m1. cbv zeta.
    unfold finally, run_block, Timer_new, GetTime, now, ScopedHandle_dtor, CloseHandle.
    cbv [mbind prog_bind mret prog_ret lift fst m_handle].
    set (t0 := clock w (steps m1)). set (m2 := emit (EvClock t0) m1).
    destruct (RunTest_loop_exact w obja (Z.to_nat iterations) 0 [] m2)
      as (opens & r & m3 & -> & Ht & Hcalls & Hlen & Hout).
    rewrite app_nil_l.
    assert (Ht2 : trace m2 = trace m1 ++ [EvClock t0]) by reflexivity.
    exists t0, (clock w (steps m3)), opens, r.
    split; [done|]. split; [done|]. split; [done|].
    destruct r as [[]|ex|]; [| |done].
    - set (t1 := clock w (steps m3)).
      destruct (vector_dtor_run (ScopedHandle_explicit <$> kept opens)
                  (emit (EvClock t1) m3)) as (_ & Hd & _).
      destruct (vector_dtor _ (emit (EvClock t1) m3)) as [rd m4]. cbn [fst snd] in *.
      split; [done|].
      rewrite trace_emit, Hd, trace_emit, Ht, Ht2, handles_of_explicit, fmap_app.
      by rewrite <- !app_assoc.
    - destruct (vector_dtor_run (ScopedHandle_explicit <$> kept opens) m3)
        as (_ & Hd & _).
      destruct (vector_dtor _ m3) as [rd m4]. cbn [fst snd] in *.
      split; [done|].
      rewrite trace_emit, Hd, Ht, Ht2, handles_of_explicit, fmap_app.
      by rewrite <- !app_assoc. }
  destruct (handle_call_cases w c0 m)
    as [(Hs & He & ->)|[(Hs & He & ->)|(Hs & He & ->)]]; rewrite He.
  - exists (fresh_handle (issued m)).
    destruct (Hblock (fresh_handle (issued m))
                (issue (emit (EvSyscall c0 (nt_status w (steps m) c0)
                                (fresh_handle (issued m))) m)))
      as (t0 & t1 & opens & r & Hc & Hl & Ho & Hr & Ht).
    exists t0, t1, opens, r. do 3 (split; [done|]). split; [done|].
    cbv zeta in Ht. rewrite Ht, trace_issue, trace_emit, <- !app_assoc. done.
  - exists (indeterminate w (steps m)).
    destruct (Hblock (indeterminate w (steps m))
                (emit (EvSyscall c0 (nt_status w (steps m) c0)
                         (indeterminate w (steps m))) m))
      as (t0 & t1 & opens & r & Hc & Hl & Ho & Hr & Ht).
    exists t0, t1, opens, r. do 3 (split; [done|]). split; [done|].
    cbv zeta in Ht. rewrite Ht, trace_emit, <- !app_assoc. done.
  - exists (indeterminate w (steps m)). split; [done|].
    cbn [snd]. by rewrite !trace_emit, <- app_assoc.
Qed.

(** ** Stopping at the first error: composition *)

Lemma closing_unfailed (e : Event) : closing e -> unfailed e.
Proof. by destruct e. Qed.

Lemma aborts_at_later (ex : NtException) (evs1 evs2 : list Event) :
  Forall unfailed evs1 -> aborts_at ex evs2 -> aborts_at ex (evs1 ++ evs2).
Proof.
  intros H1 (pre & e & post & -> & Hpre & Hst & Herr & Hpost).
  exists (evs1 ++ pre), e, post. rewrite <- app_assoc.
  split; [done|]. split; [by apply Forall_app|done].
Qed.

Lemma aborts_at_closes (ex : NtException) (evs1 evs2 : list Event) :
  aborts_at ex evs1 -> Forall closing evs2 -> aborts_at ex (evs1 ++ evs2).
Proof.
  intros (pre & e & post & -> & Hpre & Hst & Herr & Hpost) H2.
  exists pre, e, (post ++ evs2). rewrite <- app_assoc.
  split; [done|]. do 3 (split; [done|]). by apply Forall_app.
Qed.

Section Strict.

Context {St : Type} `{HasMachine St}.

Lemma strict_ret {A : Type} (a : A) : strict (mret a : Prog St A).
Proof. intros s. exists []. cbn. by rewrite app_nil_r. Qed.

Lemma strict_undefined {A : Type} : strict (undefined : Prog St A).
Proof. intros s. exists []. cbn. by rewrite app_nil_r. Qed.

Lemma strict_bind {A B : Type} (p : Prog St A) (k : A -> Prog St B) :
  strict p -> (forall a, strict (k a)) -> strict (p ≫= k).
Proof.
  intros Hp Hk s. rewrite bind_run.
  destruct (Hp s) as (evs1 & Ht1 & Hr1).
  destruct (p s) as [[a|e|] s1]; cbn [fst snd] in *.
  - destruct (Hk a s1) as (evs2 & Ht2 & Hr2).
    exists (evs1 ++ evs2). rewrite Ht2, Ht1, app_assoc. split; [done|].
    destruct (fst (k a s1));
      [by apply Forall_app|by apply aborts_at_later|by apply Forall_app].
  - by exists evs1.
  - by exists evs1.
Qed.

Lemma strict_for_prog (body : Z -> Prog St unit) (fuel : nat) :
  (forall i, strict (body i)) -> forall i, strict (for_prog i fuel body).
Proof.
  intros Hbody. induction fuel as [|fuel IH]; intros i; cbn [for_prog].
  - apply strict_ret.
  - apply strict_bind; [apply Hbody|]. intros _. apply IH.
Qed.

Lemma strict_for_each {A : Type} (body : A -> Prog St unit) (l : list A) :
  (forall x, strict (body x)) -> strict (for_each l body).
Proof.
  intros Hbody. induction l as [|x l IH]; cbn [for_each].
  - apply strict_ret.
  - apply strict_bind; [apply Hbody|]. intros _. apply IH.
Qed.

Lemma strict_finally {A : Type} (body : Prog St A) (cleanup : Prog St unit) :
  strict body -> yields closing any_value cleanup -> strict (finally body cleanup).
Proof.
  intros Hb Hc s. unfold finally.
  destruct (Hb s) as (evs1 & Ht1 & Hr1).
  destruct (body s) as [r s1]; cbn [fst snd] in *.
  destruct (Hc s1) as (evs2 & Ht2 & Hc2 & _).
  exists (evs1 ++ evs2). rewrite Ht2, Ht1, app_assoc. split; [done|].
  assert (Forall unfailed evs2).
  { eapply Forall_impl; [exact Hc2|]. apply closing_unfailed. }
  destruct r; [by apply Forall_app|by apply aborts_at_closes|by apply Forall_app].
Qed.

End Strict.

Lemma strict_lift {Loc A : Type} (p : Prog Machine A) :
  strict p -> strict (lift p : Prog (Loc * Machine) A).
Proof.
  intros Hp [l m]. unfold lift.
  destruct (Hp m) as (evs & Ht & Hr).
  destruct (p m) as [r m']. by exists evs.
Qed.

Lemma strict_get_locals {Loc : Type} : strict (get_locals : Prog (Loc * Machine) Loc).
Proof. intros [l m]. exists []. cbn. by rewrite app_nil_r. Qed.

Lemma strict_set_locals {Loc : Type} (l : Loc) :
  strict (set_locals l : Prog (Loc * Machine) unit).
Proof. intros [l0 m]. exists []. cbn. by rewrite app_nil_r. Qed.

Lemma strict_run_block {Loc A : Type} (init : Loc)
    (body : Prog (Loc * Machine) A) (dtors : Loc -> Prog Machine unit) :
  strict body -> (forall l, yields closing any_value (dtors l)) ->
  strict (run_block init body dtors).
Proof.
  intros Hb Hd m. unfold run_block.
  destruct (Hb (init, m)) as (evs1 & Ht1 & Hr1).
  destruct (body (init, m)) as [r [l m1]]; cbn [fst snd] in *.
  destruct (Hd l m1) as (evs2 & Ht2 & Hc2 & _).
  exists (evs1 ++ evs2). unfold machine_of, machine_with_locals, machine_itself in *.
  cbn [snd] in *. rewrite Ht2, Ht1, app_assoc. split; [done|].
  assert (Forall unfailed evs2).
  { eapply Forall_impl; [exact Hc2|]. apply closing_unfailed. }
  destruct r; [by apply Forall_app|by apply aborts_at_closes|by apply Forall_app].
Qed.

(** ** Stopping at the first error: the operations *)

Lemma strict_event (p : Prog Machine unit) (e : Event) :
  (forall m, p m = (Ok tt, emit e m)) -> status_of e = None -> strict p.
Proof.
  intros Hp He m. exists [e]. rewrite Hp. cbn [fst snd]. split; [done|].
  repeat constructor. intros st. by rewrite He.
Qed.

Lemma strict_printf (l : Line) : strict (printf l).
Proof. by apply (strict_event _ (EvPrintf l)). Qed.

Lemma strict_ScopedHandle_dtor (x : ScopedHandle) : strict (ScopedHandle_dtor x).
Proof. by apply (strict_event _ (EvCloseHandle (m_handle x))). Qed.

Lemma unfailed_null_closes (w : World) (size : nat) :
  Forall unfailed (reallocation_closes w size ++ [EvCloseHandle nullptr]).
Proof.
  apply Forall_app. split; [apply Forall_replicate|repeat constructor];
    by apply closing_unfailed.
Qed.

Lemma strict_push_temporary (w : World) (v : list ScopedHandle) (tmp : ScopedHandle) :
  strict (push_temporary w v tmp).
Proof.
  intros m. eexists. rewrite push_temporary_run. cbn [fst snd].
  split; [reflexivity|]. apply unfailed_null_closes.
Qed.

Section StrictWorld.

Context (w : World).

Lemma strict_now : strict (now w).
Proof.
  intros m. exists [EvClock (clock w (steps m))]. cbn [now fst snd].
  split; [done|]. repeat constructor. by intros st.
Qed.

Lemma strict_Timer_new : strict (Timer_new w).
Proof.
  unfold Timer_new. apply strict_bind; [apply strict_now|]. intros t. apply strict_ret.
Qed.

Lemma strict_GetTime (timer : Timer) (iterations : Z) :
  strict (GetTime w timer iterations).
Proof.
  unfold GetTime. apply strict_bind; [apply strict_now|]. intros t. apply strict_ret.
Qed.

Lemma strict_GetName (h : HANDLE) : strict (GetName w h).
Proof.
  intros m. unfold GetName, NtQueryObject_name.
  cbv [mbind prog_bind mret prog_ret fst snd].
  destruct (nt_name w (steps m) h) as [st name]. cbv zeta.
  set (name' := if NT_SUCCESS st then name else []).
  rewrite Check_spec. exists [EvQueryName h st name'].
  destruct (NT_ERROR st) eqn:He; cbn [fst snd]; (split; [reflexivity|]).
  - by exists [], (EvQueryName h st name'), [].
  - repeat constructor. by intros st' [= <-].
Qed.

Lemma strict_handle_call (c : Syscall) :
  strict
    (handle ← ScopedHandle_default w;
     '(st, handle) ← syscall_ptr w c handle;
     unwinding (Check st) (ScopedHandle_dtor handle);;
     mret handle).
Proof.
  intros m. unfold machine_of, machine_itself in *.
  destruct (handle_call_cases w c m)
    as [(Hs & He & ->)|[(Hs & He & ->)|(Hs & He & ->)]]; cbn [fst snd].
  - eexists [_]. split; [done|]. repeat constructor. by apply unfailed_call.
  - eexists [_]. split; [done|]. repeat constructor. by apply unfailed_call.
  - eexists [_; _]. split; [by rewrite !trace_emit, <- app_assoc|].
    eexists [], _, [_]. split; [reflexivity|]. by repeat split; repeat constructor.
Qed.

Lemma strict_CreateDirectory name root shadow :
  strict (CreateDirectory w name root shadow).
Proof. apply strict_handle_call. Qed.

Lemma strict_OpenDirectory name root : strict (OpenDirectory w name root).
Proof. apply strict_handle_call. Qed.

Lemma strict_CreateLink name root target : strict (CreateLink w name root target).
Proof. apply strict_handle_call. Qed.

Lemma strict_RunTest name iterations create_name root :
  strict (RunTest w name iterations create_name root).
Proof.
  intros m. unfold machine_of, machine_itself in *.
  destruct (RunTest_exact w name iterations create_name root m) as (h0 & Hrun).
  cbv zeta in Hrun.
  set (c0 := NtCreateEvent _ root) in Hrun.
  destruct (NT_ERROR (nt_status w (steps m) c0)) eqn:He.
  - destruct Hrun as [-> Ht]. eexists. split; [exact Ht|].
    eexists [], _, [_]. split; [reflexivity|]. by repeat split; repeat constructor.
  - destruct Hrun as (t0 & t1 & opens & r & Hc & Hl & Ho & -> & Ht).
    eexists. split; [exact Ht|].
    assert (Hcl : forall hs, Forall closing (EvCloseHandle <$> hs)).
    { intros hs. apply Forall_fmap, Forall_forall. done. }
    assert (Hhead : Forall unfailed
              [EvSyscall c0 (nt_status w (steps m) c0) h0; EvClock t0]).
    { repeat constructor; [by apply unfailed_call|by intros st]. }
    assert (Hnull : unfailed (EvCloseHandle nullptr)) by (by apply closing_unfailed).
    destruct r as [[]|ex|]; [| |done]; cbn in Ho.
    + destruct Ho as [_ Hun].
      apply Forall_app. split; [done|].
      apply Forall_app. split; [by apply RunTest_rounds_Forall|].
      apply Forall_app. split; [repeat constructor; by intros st|].
      eapply Forall_impl; [apply Hcl|]. apply closing_unfailed.
    + destruct Ho as (pre & e & -> & Hpre & Hst & Herr).
      apply aborts_at_later; [done|]. rewrite app_nil_l, RunTest_rounds_app.
      assert (Hlast : forall size, RunTest_rounds w size [e] = [e]).
      { intros size. destruct e as [c st h| | | |]; try done.
        rewrite RunTest_rounds_call. injection Hst as ->. by rewrite Herr. }
      rewrite Hlast.
      exists (RunTest_rounds w 0 pre), e, (EvCloseHandle <$> kept (pre ++ [e]) ++ [h0]).
      rewrite <- app_assoc. split; [done|].
      split; [by apply RunTest_rounds_Forall|]. by repeat split.
Qed.

Lemma strict_Test5_open base_dir_name base_dir j :
  strict (Test5_open w base_dir_name base_dir j).
Proof.
  unfold Test5_open. apply strict_bind; [apply strict_OpenDirectory|].
  intros tmp. apply strict_ScopedHandle_dtor.
Qed.

End StrictWorld.

(** ** Stopping at the first error: the scenarios *)

Ltac strict_step :=
  lazymatch goal with
  | |- strict (mret _) => apply strict_ret
  | |- strict (_ ≫= _) => apply strict_bind; [|intros ?]
  | |- strict (let '(_, _) := ?x in _) => destruct x
  | |- strict (if ?b then _ else _) => destruct b
  | |- strict (lift _) => apply strict_lift
  | |- strict get_locals => apply strict_get_locals
  | |- strict (set_locals _) => apply strict_set_locals
  | |- strict undefined => apply strict_undefined
  | |- strict (for_prog _ _ _) => apply strict_for_prog; intros ?
  | |- strict (for_each _ _) => apply strict_for_each; intros ?
  | |- strict (finally _ (ScopedHandle_dtor _)) =>
      apply strict_finally; [|apply closing_ScopedHandle_dtor]
  | |- strict (run_block _ _ vector_dtor) =>
      apply strict_run_block; [|apply closing_vector_dtor]
  | |- strict (CreateDirectory _ _ _ _) => apply strict_CreateDirectory
  | |- strict (OpenDirectory _ _ _) => apply strict_OpenDirectory
  | |- strict (CreateLink _ _ _ _) => apply strict_CreateLink
  | |- strict (RunTest _ _ _ _ _) => apply strict_RunTest
  | |- strict (Test5_open _ _ _ _) => apply strict_Test5_open
  | |- strict (GetName _ _) => apply strict_GetName
  | |- strict (name _ _) => apply strict_GetName
  | |- strict (push_temporary _ _ _) => apply strict_push_temporary
  | |- strict (Timer_new _) => apply strict_Timer_new
  | |- strict (GetTime _ _ _) => apply strict_GetTime
  | |- strict (printf _) => apply strict_printf
  | |- strict (vector_front ?v) => unfold vector_front; destruct v
  | |- strict (vector_back ?v) => unfold vector_back; destruct (last v)
  end.

Ltac strict_auto := repeat strict_step.

Lemma closing_two_vectors (v1 v2 : list ScopedHandle) :
  yields closing any_value (vector_dtor v1;; vector_dtor v2).
Proof.
  eapply yields_bind; [apply closing_vector_dtor|]. intros _ _.
  apply closing_vector_dtor.
Qed.

Section StrictScenarios.

Context (w : World).

Lemma strict_Test2_while (iterations : Z) (path : wstring) :
  strict (Test2_while w iterations path).
Proof.
  funelim (Test2_while w iterations path).
  - apply strict_bind; [apply strict_RunTest|]. intros result.
    apply strict_bind; [apply strict_printf|]. intros u.
    exact (H result u boot).
  - apply strict_ret.
Qed.

Lemma strict_Test7_loop (iterations dir_count : Z) (dir_name : wstring)
    (shadow_dir : ScopedHandle) (i : Z) :
  strict (Test7_loop w iterations dir_count dir_name shadow_dir i).
Proof.
  funelim (Test7_loop w iterations dir_count dir_name shadow_dir i).
  - apply strict_bind; [apply strict_RunTest|]. intros result.
    apply strict_bind; [apply strict_printf|]. intros u.
    destruct (decide (i + 500 <= INT_MAX)) as [Hstep|Hstep].
    + exact (H result u Hstep boot).
    + apply strict_undefined.
  - apply strict_ret.
Qed.

Lemma strict_Test1 (args : list string) : strict (Test1 w args).
Proof. unfold Test1. cbv zeta. strict_auto. Qed.

Lemma strict_Test3 (args : list string) : strict (Test3 w args).
Proof.
  unfold Test3. cbv zeta. strict_auto.
  apply strict_run_block.
  - unfold Test3_step. strict_auto.
  - intros [last_dir dirs]. apply closing_vector_dtor.
Qed.

Lemma strict_Test4 (args : list string) : strict (Test4 w args).
Proof.
  unfold Test4. cbv zeta. strict_auto.
  apply strict_run_block.
  - unfold Test4_dir_step, Test4_link_step. strict_auto.
  - intros [[last_dir dirs] links]. apply closing_two_vectors.
Qed.

Lemma strict_Test5 (args : list string) : strict (Test5 w args).
Proof. unfold Test5, Test5_step. cbv zeta. strict_auto. Qed.

Lemma strict_Test6 (args : list string) : strict (Test6 w args).
Proof. unfold Test6, Test6_insert. cbv zeta. strict_auto. Qed.

Lemma strict_Test7 (args : list string) : strict (Test7 w args).
Proof. unfold Test7. cbv zeta. strict_auto. apply strict_Test7_loop. Qed.

Lemma strict_Test8 (args : list string) : strict (Test8 w args).
Proof.
  unfold Test8. cbv zeta. strict_auto.
  apply strict_run_block.
  - unfold Test8_dir_step, Test8_link_step. strict_auto.
  - intros [dirs links]. apply closing_two_vectors.
Qed.

Lemma strict_scenario (test_no : Z) (args : list string) :
  strict (scenario w test_no args).
Proof.
  destruct (decide (1 <= test_no <= 8)) as [Hknown|Hunknown].
  - assert (test_no = 1 \/ test_no = 2 \/ test_no = 3 \/ test_no = 4 \/ test_no = 5
            \/ test_no = 6 \/ test_no = 7 \/ test_no = 8) as Hcases by lia.
    destruct Hcases as [->|[->|[->|[->|[->|[->|[->| ->]]]]]]];
      [apply strict_Test1|apply strict_Test2_while|apply strict_Test3|apply strict_Test4
      |apply strict_Test5|apply strict_Test6|apply strict_Test7|apply strict_Test8].
  - assert (Hret : scenario w test_no args = mret tt).
    { destruct test_no as [|p|p]; [reflexivity| |reflexivity].
      do 4 (destruct p as [p|p|]; try reflexivity; try lia). }
    rewrite Hret. apply strict_ret.
Qed.

End StrictScenarios.

(** ** The measured loop and the first error: results *)

Lemma syscalls_app (evs1 evs2 : list Event) :
  syscalls (evs1 ++ evs2) = syscalls evs1 ++ syscalls evs2.
Proof. apply omap_app. Qed.

Lemma syscalls_calls_of (c : Syscall) (evs : list Event) :
  calls_of c evs -> syscalls evs = replicate (length evs) c.
Proof.
  induction 1 as [|e evs (st & h & ->) _ IH]; [done|]. cbn. by rewrite <- IH.
Qed.

Lemma syscalls_closes (hs : list HANDLE) : syscalls (EvCloseHandle <$> hs) = [].
Proof. by induction hs. Qed.

Lemma RunTest_rounds_unfailed (w : World) (c : Syscall) (opens : list Event) :
  calls_of c opens -> Forall unfailed opens ->
  forall size : nat,
    RunTest_rounds w size opens
    = mjoin (imap (fun j e => e :: reallocation_closes w (size + j)) opens).
Proof.
  induction 1 as [|e opens (st & h & ->) _ IH]; intros Hun size; [done|].
  apply Forall_cons in Hun as [He Hun].
  cbn [imap mjoin list_join]. rewrite Nat.add_0_r.
  assert (Hnext : imap ((fun j e => e :: reallocation_closes w (size + j)) ∘ S) opens
                  = imap (fun j e => e :: reallocation_closes w (S size + j)) opens).
  { apply imap_ext. intros j e' _. cbn. by rewrite Nat.add_succ_r. }
  rewrite Hnext, <- (IH Hun), RunTest_rounds_call. by rewrite (He st eq_refl).
Qed.

(** X5: [RunTest] makes one [NtCreateEvent] call, on [create_name] or on
    [name] when [create_name] is empty, under [root], and then only
    [NtOpenEvent] calls on [name] with no root, at most [iterations] of them;
    it ends by returning or by throwing.  When it returns, the event was
    created before the first clock reading, and between the two readings
    are the [iterations] opens, none reporting an error, and the growth of
    the vector that takes their handles: the open number [j], counted from
    0, is followed by [j] closes of null when a vector of [j] elements is
    full, its elements being moved to new storage and the emptied ones
    destroyed.  After the second reading the handles are closed, those of
    the opens first, in the order they were opened, then the one of the
    event; the result is the quotient [GetTime] gives for the two
    readings. *)
Theorem RunTest_times_the_opens (w : World) (name : wstring) (iterations : Z)
    (create_name : wstring) (root : HANDLE) (m : Machine) :
  let c0 :=
    NtCreateEvent
      (as_kernel_reads (if decide (create_name = []) then name else create_name)) root in
  let c := NtOpenEvent (as_kernel_reads name) nullptr in
  let run := RunTest w name iterations create_name root m in
  let evs := new_events m (snd run) in
  (exists k : nat,
     syscalls evs = c0 :: replicate k c /\ (k <= Z.to_nat iterations)%nat)
  /\ match fst run with
     | Ok t =>
         exists (st0 : NTSTATUS) (h0 : HANDLE) (t0 t1 : time_point) (opens : list Event),
           evs = EvSyscall c0 st0 h0 :: EvClock t0
                   :: mjoin (imap (fun j e => e :: reallocation_closes w j) opens)
                   ++ EvClock t1 :: (EvCloseHandle <$> (kept opens ++ [h0]))
           /\ calls_of c opens
           /\ Forall unfailed opens
           /\ length opens = Z.to_nat iterations
           /\ t = GetTime_at {| m_start := t0 |} t1 iterations
     | Throw _ => True
     | Undefined => False
     end.
Proof.
  cbv zeta.
  destruct (RunTest_exact w name iterations create_name root m) as (h0 & Hrun).
  cbv zeta in Hrun.
  set (c0 := NtCreateEvent _ root) in *. set (c := NtOpenEvent _ nullptr) in *.
  set (run := RunTest w name iterations create_name root m) in *.
  destruct (NT_ERROR (nt_status w (steps m) c0)).
  - destruct Hrun as [-> Ht]. rewrite (new_events_app _ _ _ Ht).
    split; [|done]. exists 0%nat. split; [done|lia].
  - destruct Hrun as (t0 & t1 & opens & r & Hc & Hl & Ho & -> & Ht).
    rewrite (new_events_app _ _ _ Ht). split.
    + exists (length opens). split; [|done].
      rewrite !syscalls_app, syscalls_closes, syscalls_RunTest_rounds.
      rewrite (syscalls_calls_of c opens Hc).
      cbn. rewrite app_nil_r. by destruct r as [[]|ex|]; cbn; rewrite ?app_nil_r.
    + destruct r as [[]|ex|]; [|done|done]. destruct Ho as [Hlen Hun].
      exists (nt_status w (steps m) c0), h0, t0, t1, opens.
      rewrite (RunTest_rounds_unfailed w c opens Hc Hun 0). done.
Qed.

(** X6: a scenario stops at the first error.  When it throws, the events
    before the failing one report no error, the failing kernel call or name
    query reports the error status the exception carries, and after it the
    scenario only closes handles: it makes no further call, reads no clock
    and prints no line.  When it does not throw, none of its kernel calls
    and name queries reported an error. *)
Theorem scenario_stops_at_first_error (w : World) (test_no : Z) (args : list string)
    (m : Machine) :
  let run := scenario w test_no args m in
  let evs := new_events m (snd run) in
  match fst run with
  | Throw ex => aborts_at ex evs
  | _ => Forall unfailed evs
  end.
Proof.
  cbv zeta. destruct (strict_scenario w test_no args m) as (evs & Ht & Hr).
  unfold machine_of, machine_itself in Ht. by rewrite (new_events_app _ _ _ Ht).
Qed.

(** X6 in [stormy]: scenario 1 throws at its first open. *)
Lemma scenario_stops_witness :
  aborts_at {| status := -1073741772 |}
    (new_events boot (snd (scenario stormy 1 ["2"%string] boot))).
Proof. exact (scenario_stops_at_first_error stormy 1 ["2"%string] boot). Defined.

(** ** Sampled lines *)

Lemma sampled_every_500 (fuel : nat) :
  filter sampled (seqZ 0 (Z.of_nat fuel)) = every_500 0 (sample_count (Z.of_nat fuel)).
Proof.
  unfold every_500, sample_count. induction fuel as [|fuel IH]; [done|].
  rewrite Nat2Z.inj_succ, <- Z.add_1_r, seqZ_app by lia.
  rewrite filter_app, IH, !Z.max_l by lia. cbn [seqZ].
  change (seqZ (0 + Z.of_nat fuel) 1) with [0 + Z.of_nat fuel].
  rewrite Z.add_0_l.
  pose proof (Z.div_mod (Z.of_nat fuel) 500 ltac:(lia)) as Hdm.
  pose proof (Z.mod_pos_bound (Z.of_nat fuel) 500 ltac:(lia)) as Hb.
  set (n := Z.of_nat fuel) in *. set (q := n / 500) in *. set (r := n mod 500) in *.
  destruct (decide (r = 0)) as [Hr|Hr].
  - assert (Hs : sampled n).
    { unfold sampled. rewrite Z.rem_mod_nonneg by lia. done. }
    rewrite filter_cons_True, filter_nil by done.
    replace ((n + 499) / 500) with q by (apply Z.div_unique with 499; lia).
    replace ((n + 1 + 499) / 500) with (q + 1)
      by (apply Z.div_unique with 0; lia).
    rewrite seqZ_app, fmap_app by lia.
    change (seqZ (0 + q) 1) with [0 + q]. cbn. do 3 f_equal. lia.
  - assert (Hs : ~ sampled n).
    { unfold sampled. rewrite Z.rem_mod_nonneg by lia. done. }
    rewrite filter_cons_False, filter_nil, app_nil_r by done.
    replace ((n + 499) / 500) with (q + 1)
      by (apply Z.div_unique with (r - 1); lia).
    replace ((n + 1 + 499) / 500) with (q + 1)
      by (apply Z.div_unique with r; lia).
    done.
Qed.

Lemma sample_count_to_nat (n : Z) : sample_count n = sample_count (Z.of_nat (Z.to_nat n)).
Proof. unfold sample_count. do 2 f_equal. lia. Qed.

Lemma lines_at_stopped (ln : Z -> Line -> Prop) (all : list Z) (r : Result unit) :
  r <> Ok tt -> lines_at ln all r [].
Proof.
  intros Hr. exists []. split; [constructor|]. split; [apply prefix_nil|done].
Qed.

(** A loop whose rounds print one line at the sampled indices. *)
Lemma sampled_loop_prints {St : Type} `{HasMachine St} (ln : Z -> Line -> Prop)
    (body : Z -> Prog St unit) (fuel : nat) :
  (forall i,
     prints (fun r ls => if decide (sampled i)
                         then match r with
                              | Ok _ => exists l, ln i l /\ ls = [l]
                              | _ => ls = []
                              end
                         else ls = [])
       (body i)) ->
  forall i : Z,
    prints (lines_at ln (filter sampled (seqZ i (Z.of_nat fuel)))) (for_prog i fuel body).
Proof.
  intros Hbody. induction fuel as [|fuel IH]; intros i s.
  - exists []. cbn. rewrite app_nil_r. split; [done|].
    exists []. by split; [constructor|].
  - cbn [for_prog]. rewrite bind_run.
    destruct (Hbody i s) as (evs1 & Ht1 & Hstep).
    assert (Hseq : seqZ i (Z.of_nat (S fuel)) = i :: seqZ (i + 1) (Z.of_nat fuel)).
    { rewrite seqZ_cons by lia. do 2 f_equal; lia. }
    destruct (body i s) as [[[]|e|] s1]; cbn [fst snd] in *.
    + destruct (IH (i + 1) s1) as (evs2 & Ht2 & idxs & Hlines & Hprefix & Hall).
      exists (evs1 ++ evs2). rewrite Ht2, Ht1, app_assoc. split; [done|].
      rewrite printed_app. unfold lines_at. rewrite Hseq, filter_cons.
      destruct (decide (sampled i)) as [Hs|Hs].
      * destruct Hstep as (l & Hl & ->). exists (i :: idxs).
        split; [by constructor|]. split; [by apply prefix_cons|].
        intros Hok. by rewrite Hall.
      * rewrite Hstep. by exists idxs.
    + exists evs1. split; [done|].
      replace (printed evs1) with (@nil Line) by (by destruct (decide (sampled i))).
      by apply lines_at_stopped.
    + exists evs1. split; [done|].
      replace (printed evs1) with (@nil Line) by (by destruct (decide (sampled i))).
      by apply lines_at_stopped.
Qed.

Lemma prints_new_events {A : Type} (P : Result A -> list Line -> Prop)
    (p : Prog Machine A) (m : Machine) :
  prints P p -> P (fst (p m)) (printed (new_events m (snd (p m)))).
Proof.
  intros Hp. destruct (Hp m) as (evs & Ht & HP).
  unfold machine_of, machine_itself in Ht. by rewrite (new_events_app _ _ _ Ht).
Qed.

(** X7: scenario 3 prints one line for each of the indices 0, 500,
    1000, ... below [dir_count], in this order, with the index plus one as
    the first field; a run that does not complete prints the lines of the
    first few of these indices and no other line. *)
Theorem Test3_sample_lines (w : World) (args : list string) (m : Machine) :
  let dir_count := GetArg args 1 16000 in
  let run := Test3 w args m in
  lines_at (line_d_f 1) (every_500 0 (sample_count dir_count)) (fst run)
    (printed (new_events m (snd run))).
Proof.
  cbv zeta. rewrite sample_count_to_nat, <- sampled_every_500.
  exact (prints_new_events _ _ m (Test3_prints w args)).
Qed.

(** One round of the loop of [Test5] prints its line exactly when the index
    is sampled and the round completes. *)
Lemma Test5_step_prints (w : World) (iterations collision_count : Z)
    (base_dir_name : wstring) (base_dir : ScopedHandle) (i : Z) :
  prints (fun r ls => if decide (sampled i)
                      then match r with
                           | Ok _ => exists l, line_d_f 0 i l /\ ls = [l]
                           | _ => ls = []
                           end
                      else ls = [])
    (Test5_step w iterations collision_count base_dir_name base_dir i).
Proof.
  unfold Test5_step. cbv zeta.
  eapply prints_after_quiet;
    [apply yields_get_locals| |stopped_at i|stopped_at i].
  intros dirs _.
  eapply prints_after_quiet;
    [apply yields_lift, quiet_CreateDirectory| |stopped_at i|stopped_at i].
  intros tmp _.
  eapply prints_after_quiet;
    [apply yields_lift, quiet_push_temporary| |stopped_at i|stopped_at i].
  intros dirs' _.
  eapply prints_after_quiet;
    [apply yields_set_locals| |stopped_at i|stopped_at i].
  intros _ _. unfold sampled.
  destruct (decide (Z.rem i 500 = 0)) as [Hs|Hs].
  - eapply prints_after_quiet;
      [apply (yields_lift _ any_value); unfold Timer_new; yields_auto| |done|done].
    intros timer _.
    eapply prints_after_quiet; [|intros _ _|done|done].
    { apply (yields_lift _ any_value). apply yields_for_prog. intros j.
      unfold Test5_open, ScopedHandle_dtor.
      eapply yields_bind; [apply quiet_OpenDirectory|]. intros tmp' _. yields_auto. }
    eapply prints_after_quiet;
      [apply (yields_lift _ any_value); unfold GetTime; yields_auto| |done|done].
    intros t _. intros s.
    destruct (prints_lift_printf (Line_d_f i t) s) as (evs & Ht & Hr & Hls).
    exists evs. split; [done|]. rewrite Hr, Hls.
    eexists. split; [|done]. exists t. by rewrite Z.add_0_r.
  - eapply prints_quiet; [|done]. by apply (yields_ret _ any_value).
Qed.

(** X8: scenario 5 prints one line for each of the indices 0, 500,
    1000, ... below [collision_count], in this order, with the index itself
    as the first field; a run that does not complete prints the lines of the
    first few of these indices and no other line. *)
Theorem Test5_sample_lines (w : World) (args : list string) (m : Machine) :
  let collision_count := GetArg args 1 32000 in
  let run := Test5 w args m in
  lines_at (line_d_f 0) (every_500 0 (sample_count collision_count)) (fst run)
    (printed (new_events m (snd run))).
Proof.
  cbv zeta. rewrite sample_count_to_nat, <- sampled_every_500.
  apply prints_new_events. unfold Test5. cbv zeta.
  eapply prints_after_quiet; [apply quiet_CreateDirectory| | |].
  - intros base_dir _. apply prints_before_quiet.
    + apply prints_run_block; [|apply quiet_vector_dtor].
      apply sampled_loop_prints. intros i. apply Test5_step_prints.
    + unfold ScopedHandle_dtor. yields_auto.
  - intros e. by apply lines_at_stopped.
  - by apply lines_at_stopped.
Qed.

(** ** Loops that step by 500 *)

Lemma sample_count_nonneg (d : Z) : 0 <= sample_count d.
Proof. unfold sample_count. apply Z.div_pos; lia. Qed.

Lemma sample_count_step (d : Z) : 0 < d -> sample_count d = 1 + sample_count (d - 500).
Proof.
  intros Hd. unfold sample_count. rewrite Z.max_l by lia.
  destruct (decide (d <= 500)) as [Hle|Hgt].
  - rewrite Z.max_r by lia.
    replace ((d + 499) / 500) with 1 by (apply Z.div_unique with (d - 1); lia).
    done.
  - rewrite Z.max_l by lia.
    replace (d + 499) with (d - 500 + 499 + 1 * 500) by lia.
    rewrite Z.div_add by lia. lia.
Qed.

Lemma every_500_cons (i c : Z) :
  0 <= c -> every_500 i (1 + c) = i :: every_500 (i + 500) c.
Proof.
  intros Hc. unfold every_500.
  assert (seqZ 0 (1 + c) = 0 :: (Z.add 1 <$> seqZ 0 c)) as ->.
  { rewrite seqZ_cons, fmap_add_seqZ by lia. do 2 f_equal; lia. }
  rewrite fmap_cons, <- list_fmap_compose.
  f_equal; [lia|]. apply list_fmap_ext. intros ? k ?. cbn. lia.
Qed.

Lemma every_500_step (i n : Z) :
  i < n ->
  every_500 i (sample_count (n - i))
  = i :: every_500 (i + 500) (sample_count (n - (i + 500))).
Proof.
  intros Hi. rewrite sample_count_step by lia.
  rewrite every_500_cons by apply sample_count_nonneg.
  do 3 f_equal. lia.
Qed.

Lemma every_500_done (i n : Z) : n <= i -> every_500 i (sample_count (n - i)) = [].
Proof.
  intros Hi. unfold every_500, sample_count. by rewrite Z.max_r by lia.
Qed.

(** A measurement and its line, and then the rest of a loop. *)
Lemma prints_line_then (w : World) (ln : Z -> Line -> Prop) (mk : double -> Line)
    (i : Z) (rest : list Z) name iterations create_name root
    (k : Prog Machine unit) :
  (forall t, ln i (mk t)) ->
  prints (lines_at ln rest) k ->
  prints (lines_at ln (i :: rest))
    (result ← RunTest w name iterations create_name root;
     printf (mk result);;
     k).
Proof.
  intros Hln Hk m. rewrite bind_run.
  destruct (quiet_RunTest w name iterations create_name root m) as (evs1 & Ht1 & Hq1 & _).
  destruct (RunTest w name iterations create_name root m) as [[t|e|] m1];
    cbn [fst snd] in *.
  - rewrite bind_run. cbn [printf fst snd].
    destruct (Hk (emit (EvPrintf (mk t)) m1)) as (evs2 & Ht2 & idxs & Hl & Hp & Hall).
    exists (evs1 ++ [EvPrintf (mk t)] ++ evs2).
    unfold machine_of, machine_itself in *.
    rewrite Ht2, trace_emit, Ht1, <- !app_assoc. split; [done|].
    rewrite !printed_app, (printed_quiet evs1), app_nil_l by done.
    exists (i :: idxs). split; [by constructor|].
    split; [by apply prefix_cons|]. intros Hok. by rewrite Hall.
  - exists evs1. split; [done|]. rewrite printed_quiet by done.
    by apply lines_at_stopped.
  - exists evs1. split; [done|]. rewrite printed_quiet by done.
    by apply lines_at_stopped.
Qed.

Lemma prints_no_lines (ln : Z -> Line -> Prop) (p : Prog Machine unit) :
  yields quiet any_value p -> prints (lines_at ln []) p.
Proof.
  intros Hp. eapply prints_quiet; [exact Hp|]. intros r.
  exists []. by split; [constructor|].
Qed.

Lemma Test2_while_prints (w : World) (iterations : Z) (path : wstring) :
  let size := Z.of_nat (length path) in
  prints (lines_at line_zu_f (every_500 size (sample_count (32001 - size))))
    (Test2_while w iterations path).
Proof.
  cbv zeta. funelim (Test2_while w iterations path).
  - rewrite every_500_step by lia.
    apply prints_line_then; [by eexists|].
    specialize (H (S754_zero false) tt boot). rewrite length_app, length_replicate in H.
    by rewrite Nat2Z.inj_add in H.
  - rewrite every_500_done by lia.
    apply prints_no_lines. by apply (yields_ret _ any_value).
Qed.

Lemma line_d_f_plain (i : Z) (t : double) : line_d_f 0 i (Line_d_f i t).
Proof. exists t. by rewrite Z.add_0_r. Qed.

Lemma Test7_loop_prints (w : World) (iterations dir_count : Z) (dir_name : wstring)
    (shadow_dir : ScopedHandle) (i : Z) :
  prints (lines_at (line_d_f 0) (every_500 i (sample_count (dir_count - i))))
    (Test7_loop w iterations dir_count dir_name shadow_dir i).
Proof.
  funelim (Test7_loop w iterations dir_count dir_name shadow_dir i).
  - rewrite every_500_step by lia.
    apply prints_line_then; [apply line_d_f_plain|].
    destruct (decide (i + 500 <= INT_MAX)) as [Hstep|Hstep].
    + exact (H (S754_zero false) tt Hstep boot).
    + intros m. exists []. cbn. rewrite app_nil_r. split; [done|].
      by apply lines_at_stopped.
  - rewrite every_500_done by lia.
    apply prints_no_lines. by apply (yields_ret _ any_value).
Qed.

(** X9: scenario 2 measures the names of 0, 500, 1000, ..., 32000 added
    characters, whatever its arguments are: a run that completes prints 65
    lines, whose first fields are these sizes in this order; a run that
    does not complete prints the lines of the first few sizes and no other
    line. *)
Theorem Test2_sample_lines (w : World) (args : list string) (m : Machine) :
  let run := Test2 w args m in
  lines_at line_zu_f (every_500 0 65) (fst run) (printed (new_events m (snd run))).
Proof.
  cbv zeta. apply prints_new_events.
  exact (Test2_while_prints w (GetArg args 0 1000) []).
Qed.


(** X10: scenario 7 prints one line for each of the indices 0, 500,
    1000, ... below [dir_count], in this order, with the index itself as the
    first field; a run that does not complete prints the lines of the first
    few of these indices and no other line. *)
Theorem Test7_sample_lines (w : World) (args : list string) (m : Machine) :
  let dir_count := GetArg args 1 16000 in
  let run := Test7 w args m in
  lines_at (line_d_f 0) (every_500 0 (sample_count dir_count)) (fst run)
    (printed (new_events m (snd run))).
Proof.
  cbv zeta. apply prints_new_events. unfold Test7. cbv zeta.
  pose proof (Test7_loop_prints w (GetArg args 0 1000) (GetArg args 1 16000)
                BaseNamedObjects_A) as Hloop.
  eapply prints_after_quiet; [apply quiet_CreateDirectory| | |].
  - intros shadow_dir _. apply prints_before_quiet.
    + eapply prints_after_quiet; [apply quiet_CreateDirectory| | |].
      * intros target_dir _. apply prints_before_quiet.
        -- specialize (Hloop shadow_dir 0). by rewrite Z.sub_0_r in Hloop.
        -- unfold ScopedHandle_dtor. yields_auto.
      * intros e. by apply lines_at_stopped.
      * by apply lines_at_stopped.
    + unfold ScopedHandle_dtor. yields_auto.
  - intros e. by apply lines_at_stopped.
  - by apply lines_at_stopped.
Qed.

(** ** Outcomes: composition *)

Section Outcome.

Context {St : Type}.

Lemma outcome_ret {A : Type} (a : A) (s : St) (Q : A -> St -> Prop) (U : Prop) :
  Q a s -> outcome (mret a) s Q U.
Proof. done. Qed.

Lemma outcome_bind {A B : Type} (p : Prog St A) (k : A -> Prog St B) (s : St)
    (Q : B -> St -> Prop) (U : Prop) :
  outcome p s (fun a s' => outcome (k a) s' Q U) U -> outcome (p ≫= k) s Q U.
Proof.
  unfold outcome. rewrite bind_run. by destruct (p s) as [[a|e|] s1].
Qed.

Lemma outcome_weaken {A : Type} (p : Prog St A) (s : St) (Q Q' : A -> St -> Prop)
    (U : Prop) :
  outcome p s Q U -> (forall a s', Q a s' -> Q' a s') -> outcome p s Q' U.
Proof.
  unfold outcome. destruct (p s) as [[a|e|] s1]; [|done|done].
  intros HQ Himp. by apply Himp.
Qed.

Lemma outcome_defined {A : Type} (p : Prog St A) (s : St) (Q : A -> St -> Prop)
    (U : Prop) :
  fst (p s) <> Undefined -> (forall a s', Q a s') -> outcome p s Q U.
Proof. unfold outcome. by destruct (p s) as [[a|e|] s1]. Qed.

Lemma outcome_for_prog (I : nat -> St -> Prop) (U : Prop) (body : Z -> Prog St unit)
    (fuel : nat) :
  (forall i n s, I n s -> outcome (body i) s (fun _ => I (S n)) U) ->
  forall i n s, I n s -> outcome (for_prog i fuel body) s (fun _ => I (n + fuel)%nat) U.
Proof.
  intros Hbody. induction fuel as [|fuel IH]; intros i n s Hs; cbn [for_prog].
  - apply outcome_ret. by rewrite Nat.add_0_r.
  - apply outcome_bind. eapply outcome_weaken; [by apply Hbody|].
    intros u s1 Hs1. cbv beta. rewrite <- Nat.add_succ_comm. by apply IH.
Qed.

Lemma outcome_for_each {A : Type} (U : Prop) (body : A -> Prog St unit) (l : list A) :
  (forall x s, outcome (body x) s (fun _ _ => True) U) ->
  forall s, outcome (for_each l body) s (fun _ _ => True) U.
Proof.
  intros Hbody. induction l as [|x l IH]; intros s; cbn [for_each]; [done|].
  apply outcome_bind. eapply outcome_weaken; [apply Hbody|].
  intros _ s1 _. apply IH.
Qed.

Lemma outcome_finally {A : Type} (body : Prog St A) (cleanup : Prog St unit) (s : St)
    (Q : A -> Prop) (U : Prop) :
  outcome body s (fun a _ => Q a) U -> outcome (finally body cleanup) s (fun a _ => Q a) U.
Proof. unfold outcome, finally. by destruct (body s) as [[a|e|] s1]. Qed.

End Outcome.

Lemma outcome_run_block {Loc A : Type} (init : Loc) (body : Prog (Loc * Machine) A)
    (dtors : Loc -> Prog Machine unit) (m : Machine) (Q : A -> Prop) (U : Prop) :
  outcome body (init, m) (fun a _ => Q a) U ->
  outcome (run_block init body dtors) m (fun a _ => Q a) U.
Proof. unfold outcome, run_block. by destruct (body (init, m)) as [[a|e|] [l m1]]. Qed.

Lemma outcome_lift {Loc A : Type} (p : Prog Machine A) (l : Loc) (m : Machine)
    (Q : A -> Loc * Machine -> Prop) (U : Prop) :
  outcome p m (fun a m' => Q a (l, m')) U -> outcome (lift p) (l, m) Q U.
Proof. unfold outcome, lift. by destruct (p m) as [[a|e|] m1]. Qed.

Lemma outcome_get_locals {Loc : Type} (l : Loc) (m : Machine)
    (Q : Loc -> Loc * Machine -> Prop) (U : Prop) :
  Q l (l, m) -> outcome get_locals (l, m) Q U.
Proof. done. Qed.

Lemma outcome_set_locals {Loc : Type} (l l' : Loc) (m : Machine)
    (Q : unit -> Loc * Machine -> Prop) (U : Prop) :
  Q tt (l', m) -> outcome (set_locals l') (l, m) Q U.
Proof. done. Qed.

Lemma outcome_push {Loc : Type} (w : World) (v : list ScopedHandle)
    (tmp : ScopedHandle) (l : Loc) (m : Machine)
    (Q : list ScopedHandle -> Loc * Machine -> Prop) (U : Prop) :
  (forall m', Q (v ++ [{| m_handle := m_handle tmp |}]) (l, m')) ->
  outcome (lift (push_temporary w v tmp)) (l, m) Q U.
Proof. intros HQ. unfold outcome, lift. rewrite push_temporary_run. apply HQ. Qed.

Lemma outcome_back_snoc {St : Type} (v : list ScopedHandle) (x : ScopedHandle) (s : St)
    (Q : ScopedHandle -> St -> Prop) (U : Prop) :
  Q x s -> outcome (vector_back (v ++ [x])) s Q U.
Proof. unfold outcome, vector_back. by rewrite last_snoc. Qed.

Lemma outcome_never_undefined {St A : Type} (p : Prog St A) (s : St) :
  outcome p s (fun _ _ => True) False -> fst (p s) <> Undefined.
Proof. unfold outcome. by destruct (p s) as [[a|e|] s1]. Qed.

Lemma outcome_never_returns {St A : Type} (p : Prog St A) (s : St) :
  outcome p s (fun _ _ => False) True -> forall a, fst (p s) <> Ok a.
Proof. unfold outcome. by destruct (p s) as [[a|e|] s1]. Qed.

(** ** Outcomes: the operations *)

Lemma handle_call_defined (w : World) (c : Syscall) (m : Machine) :
  fst ((handle ← ScopedHandle_default w;
        '(st, handle) ← syscall_ptr w c handle;
        unwinding (Check st) (ScopedHandle_dtor handle);;
        mret handle) m) <> Undefined.
Proof.
  by destruct (handle_call_cases w c m) as [(_ & _ & ->)|[(_ & _ & ->)|(_ & _ & ->)]].
Qed.

Lemma RunTest_defined (w : World) name iterations create_name root (m : Machine) :
  fst (RunTest w name iterations create_name root m) <> Undefined.
Proof.
  destruct (RunTest_exact w name iterations create_name root m) as (h0 & Hrun).
  cbv zeta in Hrun. destruct (NT_ERROR _).
  - destruct Hrun as [-> _]. done.
  - destruct Hrun as (t0 & t1 & opens & r & _ & _ & Ho & -> & _).
    by destruct r as [[]|ex|].
Qed.

Lemma GetName_defined (w : World) (h : HANDLE) (m : Machine) :
  fst (GetName w h m) <> Undefined.
Proof.
  unfold GetName, NtQueryObject_name. cbv [mbind prog_bind mret prog_ret fst snd].
  destruct (nt_name w (steps m) h) as [st name]. cbv zeta.
  rewrite Check_spec. by destruct (NT_ERROR st).
Qed.

(** One step of a derivation of [outcome] for a program that cannot run
    into undefined behaviour by itself. *)
Ltac outcome_step :=
  lazymatch goal with
  | |- outcome (mret _) _ _ _ => apply outcome_ret; cbv beta
  | |- outcome (_ ≫= _) _ _ _ => apply outcome_bind
  | |- outcome (if ?b then _ else _) _ _ _ => destruct b
  | |- outcome (lift (push_temporary _ _ _)) _ _ _ => apply outcome_push; intros ?
  | |- outcome (lift _) (_, _) _ _ => apply outcome_lift
  | |- outcome (lift _) ?s _ _ => destruct s as [? ?]; apply outcome_lift
  | |- outcome get_locals (_, _) _ _ => apply outcome_get_locals; cbv beta iota
  | |- outcome (set_locals _) (_, _) _ _ => apply outcome_set_locals
  | |- outcome (vector_back (_ ++ [_])) _ _ _ => apply outcome_back_snoc
  | |- outcome (finally _ _) _ _ _ => apply outcome_finally
  | |- outcome (CreateDirectory _ _ _ _) _ _ _ =>
      apply outcome_defined; [apply handle_call_defined|intros ? ?]
  | |- outcome (OpenDirectory _ _ _) _ _ _ =>
      apply outcome_defined; [apply handle_call_defined|intros ? ?]
  | |- outcome (CreateLink _ _ _ _) _ _ _ =>
      apply outcome_defined; [apply handle_call_defined|intros ? ?]
  | |- outcome (RunTest _ _ _ _ _) _ _ _ =>
      apply outcome_defined; [apply RunTest_defined|intros ? ?]
  | |- outcome (GetName _ _) _ _ _ =>
      apply outcome_defined; [apply GetName_defined|intros ? ?]
  | |- outcome (name _ _) _ _ _ =>
      apply outcome_defined; [apply GetName_defined|intros ? ?]
  | |- outcome (Timer_new _) _ _ _ => apply outcome_defined; [done|intros ? ?]
  | |- outcome (GetTime _ _ _) _ _ _ => apply outcome_defined; [done|intros ? ?]
  | |- outcome (printf _) _ _ _ => apply outcome_defined; [done|intros ? ?]
  | |- outcome (ScopedHandle_dtor _) _ _ _ => apply outcome_defined; [done|intros ? ?]
  end.

Ltac outcome_auto := repeat outcome_step; try done.

(** ** Outcomes: the rounds of the loops *)

Section OutcomeSteps.

Context (w : World) (U : Prop).

Lemma outcome_loop {St : Type} (body : Z -> Prog St unit) (fuel : nat) :
  (forall i s, outcome (body i) s (fun _ _ => True) U) ->
  forall i s, outcome (for_prog i fuel body) s (fun _ _ => True) U.
Proof.
  intros Hbody i s.
  apply (outcome_weaken _ _ (fun _ _ => True)); [|done].
  apply (outcome_for_prog (fun _ _ => True) U body fuel) with (n := 0%nat); [|done].
  intros j _ s' _. apply Hbody.
Qed.

Lemma Test3_step_outcome (iterations i : Z) s :
  outcome (Test3_step w iterations i) s (fun _ _ => True) U.
Proof. destruct s as [[last_dir dirs] m]. unfold Test3_step. outcome_auto. Qed.

Lemma Test4_dir_step_outcome (i : Z) s :
  outcome (Test4_dir_step w i) s (fun _ s' => Test4_links (fst s') = Test4_links (fst s)) U.
Proof. destruct s as [[[last_dir dirs] links] m]. unfold Test4_dir_step. outcome_auto. Qed.

Lemma Test4_link_step_outcome (last_dir_name : wstring) (i : Z) s :
  outcome (Test4_link_step w last_dir_name i) s
    (fun _ s' => length (Test4_links (fst s')) = S (length (Test4_links (fst s)))) U.
Proof.
  destruct s as [[[last_dir dirs] links] m]. unfold Test4_link_step. outcome_auto.
  unfold Test4_links. cbn [fst snd]. rewrite length_app. cbn. lia.
Qed.

Lemma Test5_step_outcome iterations collision_count base_dir_name base_dir (i : Z) s :
  outcome (Test5_step w iterations collision_count base_dir_name base_dir i) s
    (fun _ _ => True) U.
Proof.
  destruct s as [dirs m]. unfold Test5_step. cbv zeta. outcome_auto.
  eapply outcome_weaken.
  - apply outcome_loop. intros j m1. unfold Test5_open. outcome_auto.
  - intros _ m1 _. outcome_auto.
Qed.

Lemma Test6_insert_outcome base_dir name s :
  outcome (Test6_insert w base_dir name) s (fun _ _ => True) U.
Proof. destruct s as [dirs m]. unfold Test6_insert. outcome_auto. Qed.

Lemma Test8_dir_step_outcome collision_count shadow_dir (i : Z) s :
  outcome (Test8_dir_step w collision_count shadow_dir i) s (fun _ _ => True) U.
Proof. destruct s as [[dirs links] m]. unfold Test8_dir_step. outcome_auto. Qed.

Lemma Test8_link_step_outcome last_dir_name shadow_dir (i : Z) s :
  outcome (Test8_link_step w last_dir_name shadow_dir i) s (fun _ _ => True) U.
Proof. destruct s as [[dirs links] m]. unfold Test8_link_step. outcome_auto. Qed.

End OutcomeSteps.

(** ** Outcomes: the scenarios *)

Ltac outcome_scope :=
  lazymatch goal with
  | |- outcome (run_block _ _ _) _ _ _ => apply outcome_run_block
  | |- outcome (for_prog _ _ (Test3_step _ _)) _ _ _ =>
      eapply outcome_weaken;
        [apply outcome_loop; intros; apply Test3_step_outcome|intros ? ? ?]
  | |- outcome (for_prog _ _ (Test5_step _ _ _ _ _)) _ _ _ =>
      eapply outcome_weaken;
        [apply outcome_loop; intros; apply Test5_step_outcome|intros ? ? ?]
  | |- outcome (for_each _ (Test6_insert _ _)) _ _ _ =>
      eapply outcome_weaken;
        [apply outcome_for_each; intros; apply Test6_insert_outcome|intros ? ? ?]
  | _ => outcome_step
  end.

Ltac outcome_scopes := repeat outcome_scope; try done.

Section OutcomeScenarios.

Context (w : World).

Lemma Test2_while_outcome (iterations : Z) (path : wstring) :
  forall m : Machine, outcome (Test2_while w iterations path) m (fun _ _ => True) False.
Proof.
  funelim (Test2_while w iterations path); intros m; [|done].
  apply outcome_bind, outcome_defined; [apply RunTest_defined|]. intros result m1.
  apply outcome_bind, outcome_defined; [done|]. intros u m2.
  apply (H result u boot).
Qed.

Lemma multiple_of_500_below (i n : Z) :
  i mod 500 = 0 -> n mod 500 = 0 -> i < n -> i + 500 <= n.
Proof.
  intros Hi Hn Hlt.
  pose proof (Z.div_mod i 500 ltac:(lia)). pose proof (Z.div_mod n 500 ltac:(lia)).
  lia.
Qed.

Lemma Test7_loop_defined (iterations dir_count : Z) (dir_name : wstring)
    (shadow_dir : ScopedHandle) (i : Z) :
  dir_count <= 2147483500 -> i mod 500 = 0 ->
  forall m : Machine,
    outcome (Test7_loop w iterations dir_count dir_name shadow_dir i) m
      (fun _ _ => True) False.
Proof.
  funelim (Test7_loop w iterations dir_count dir_name shadow_dir i);
    intros Hdc Hi m; [|done].
  apply outcome_bind, outcome_defined; [apply RunTest_defined|]. intros result m1.
  apply outcome_bind, outcome_defined; [done|]. intros u m2.
  destruct (decide (i + 500 <= INT_MAX)) as [Hstep|Hstep].
  - apply (H result u Hstep boot); [done|].
    by rewrite <- (Z.mul_1_l 500) at 1; rewrite Z.mod_add.
  - assert (Hnext : i + 500 <= 2147483500).
    { apply multiple_of_500_below; [done|done|lia]. }
    unfold INT_MAX in *. lia.
Qed.

Lemma Test7_loop_overflows (iterations dir_count : Z) (dir_name : wstring)
    (shadow_dir : ScopedHandle) (i : Z) :
  2147483500 < dir_count -> 0 <= i <= INT_MAX -> i mod 500 = 0 ->
  forall m : Machine,
    outcome (Test7_loop w iterations dir_count dir_name shadow_dir i) m
      (fun _ _ => False) True.
Proof.
  funelim (Test7_loop w iterations dir_count dir_name shadow_dir i);
    intros Hdc Hrange Hi m.
  - apply outcome_bind, outcome_defined; [apply RunTest_defined|]. intros result m1.
    apply outcome_bind, outcome_defined; [done|]. intros u m2.
    destruct (decide (i + 500 <= INT_MAX)) as [Hstep|Hstep]; [|done].
    apply (H result u Hstep boot); [done|lia|].
    by rewrite <- (Z.mul_1_l 500) at 1; rewrite Z.mod_add.
  - exfalso. unfold INT_MAX in Hrange.
    pose proof (multiple_of_500_below 2147483500 i eq_refl Hi ltac:(lia)). lia.
Qed.

Lemma Test1_defined args m : outcome (Test1 w args) m (fun _ _ => True) False.
Proof. unfold Test1. cbv zeta. outcome_scopes. Qed.

Lemma Test3_defined args m : outcome (Test3 w args) m (fun _ _ => True) False.
Proof. unfold Test3. cbv zeta. outcome_scopes. Qed.

Lemma Test5_defined args m : outcome (Test5 w args) m (fun _ _ => True) False.
Proof. unfold Test5. cbv zeta. outcome_scopes. Qed.

Lemma Test6_defined args m : outcome (Test6 w args) m (fun _ _ => True) False.
Proof. unfold Test6. cbv zeta. outcome_scopes. Qed.

Lemma Test7_defined args m :
  GetArg args 1 16000 <= 2147483500 ->
  outcome (Test7 w args) m (fun _ _ => True) False.
Proof.
  intros Hdc. unfold Test7. cbv zeta. outcome_scopes. by apply Test7_loop_defined.
Qed.

Lemma Test7_never_returns args m :
  2147483500 < GetArg args 1 16000 ->
  outcome (Test7 w args) m (fun _ _ => False) True.
Proof.
  intros Hdc. unfold Test7. cbv zeta. outcome_scopes.
  by apply Test7_loop_overflows.
Qed.

Lemma Test4_defined args m :
  0 < GetArg args 2 63 -> outcome (Test4 w args) m (fun _ _ => True) False.
Proof.
  intros Hsc. unfold Test4. cbv zeta. outcome_scopes.
  eapply outcome_weaken.
  { apply outcome_loop. intros i s.
    eapply outcome_weaken; [apply Test4_dir_step_outcome|done]. }
  intros _ [[[last_dir dirs] links] m1] _. outcome_scopes.
  eapply outcome_weaken.
  { apply (outcome_for_prog
             (fun n s => (n <= length (Test4_links (fst s)))%nat) False)
      with (n := 0%nat); [|lia].
    intros i n s Hn. eapply outcome_weaken; [apply Test4_link_step_outcome|].
    intros u s1 Hs1. cbv beta in *. lia. }
  intros u [[[last_dir' dirs'] links'] m2] Hlen. unfold Test4_links in Hlen.
  cbn [fst snd] in Hlen. outcome_scopes.
  destruct links' as [|front links']; [cbn in Hlen; lia|].
  unfold vector_front. outcome_scopes.
Qed.

Lemma Test4_never_returns args m :
  GetArg args 2 63 <= 0 -> outcome (Test4 w args) m (fun _ _ => False) True.
Proof.
  intros Hsc. unfold Test4. cbv zeta. outcome_scopes.
  eapply outcome_weaken.
  { apply (outcome_for_prog (fun _ s => Test4_links (fst s) = []) True)
      with (n := 0%nat); [|done].
    intros i n s Hn. eapply outcome_weaken; [apply Test4_dir_step_outcome|].
    intros u s1 Hs1. cbv beta in *. congruence. }
  intros u [[[last_dir dirs] links] m1] Hlinks. unfold Test4_links in Hlinks.
  cbn [fst snd] in Hlinks. subst links. outcome_scopes.
  replace (Z.to_nat (GetArg args 2 63)) with 0%nat by lia. cbn [for_prog].
  outcome_scopes.
Qed.

Lemma Test8_defined args m :
  INT_MIN < GetArg args 3 16000 -> outcome (Test8 w args) m (fun _ _ => True) False.
Proof.
  intros Hcc. unfold Test8. cbv zeta. outcome_scopes.
  - eapply outcome_weaken;
      [apply outcome_loop; intros; apply Test8_dir_step_outcome|].
    intros _ [[dirs links] m1] _. outcome_scopes.
    eapply outcome_weaken;
      [apply outcome_loop; intros; apply Test8_link_step_outcome|].
    intros _ [[dirs' links'] m2] _. outcome_scopes.
  - lia.
Qed.

Lemma Test8_never_returns args m :
  GetArg args 3 16000 <= INT_MIN -> outcome (Test8 w args) m (fun _ _ => False) True.
Proof.
  intros Hcc. unfold Test8. cbv zeta. outcome_scopes. lia.
Qed.

End OutcomeScenarios.

(** X11: undefined behaviour in the scenarios.  A scenario ends in the access
    to an empty vector or in a signed overflow only when its arguments are
    [out_of_range]: scenario 4 with [symlink_count <= 0], where
    [links.front()] is taken of an empty vector; scenario 7 with
    [dir_count] above 2147483500, where [i += 500] overflows; scenario 8
    with [collision_count = INT_MIN], where [collision_count - 1]
    overflows.  With such arguments the scenario never completes: it throws
    or ends in that undefined behaviour. *)
Theorem scenario_undefined_behaviour (w : World) (test_no : Z) (args : list string)
    (m : Machine) :
  let run := scenario w test_no args m in
  (fst run = Undefined -> out_of_range test_no args)
  /\ (out_of_range test_no args -> forall u : unit, fst run <> Ok u).
Proof.
  cbv zeta. split.
  - intros Hun. unfold out_of_range.
    destruct (decide (1 <= test_no <= 8)) as [Hknown|Hunknown].
    + assert (test_no = 1 \/ test_no = 2 \/ test_no = 3 \/ test_no = 4 \/ test_no = 5
              \/ test_no = 6 \/ test_no = 7 \/ test_no = 8) as Hcases by lia.
      destruct Hcases as [->|[->|[->|[->|[->|[->|[->| ->]]]]]]]; cbn [scenario] in Hun.
      * by apply (outcome_never_undefined _ _ (Test1_defined w args m)) in Hun.
      * by apply (outcome_never_undefined _ _ (Test2_while_outcome w _ _ m)) in Hun.
      * by apply (outcome_never_undefined _ _ (Test3_defined w args m)) in Hun.
      * destruct (decide (GetArg args 2 63 <= 0)) as [Hsc|Hsc]; [by left|].
        by apply (outcome_never_undefined _ _
                    (Test4_defined w args m ltac:(lia))) in Hun.
      * by apply (outcome_never_undefined _ _ (Test5_defined w args m)) in Hun.
      * by apply (outcome_never_undefined _ _ (Test6_defined w args m)) in Hun.
      * destruct (decide (2147483500 < GetArg args 1 16000)) as [Hdc|Hdc];
          [by right; left|].
        by apply (outcome_never_undefined _ _
                    (Test7_defined w args m ltac:(lia))) in Hun.
      * destruct (decide (GetArg args 3 16000 <= INT_MIN)) as [Hcc|Hcc];
          [by right; right|].
        by apply (outcome_never_undefined _ _
                    (Test8_defined w args m ltac:(lia))) in Hun.
    + exfalso. destruct test_no as [|p|p]; [done| |done].
      do 4 (destruct p as [p|p|]; try done; try lia).
  - intros [[-> Hsc]|[[-> Hdc]|[-> Hcc]]]; apply outcome_never_returns.
    + by apply Test4_never_returns.
    + by apply Test7_never_returns.
    + by apply Test8_never_returns.
Qed.

(** X11 for scenario 4 without a symbolic link. *)
Lemma scenario_undefined_behaviour_witness :
  out_of_range 4 ["1"; "1"; "0"]%string
  /\ forall u : unit, fst (scenario calm 4 ["1"; "1"; "0"]%string boot) <> Ok u.
Proof.
  assert (Hout : out_of_range 4 ["1"; "1"; "0"]%string).
  { apply (scenario_undefined_behaviour calm 4 ["1"; "1"; "0"]%string boot).
    by vm_compute. }
  split; [exact Hout|].
  by apply (scenario_undefined_behaviour calm 4 ["1"; "1"; "0"]%string boot).
Defined.

(** ** Handles obtained and closed: the balance *)

Lemma stray_app (tr1 tr2 : list Event) : stray (tr1 ++ tr2) = stray tr1 ++ stray tr2.
Proof. apply omap_app. Qed.

Lemma balanced_nil (hs : list HANDLE) : balanced [] hs hs.
Proof. by unfold balanced. Qed.

Lemma balanced_app (evs1 evs2 : list Event) (before mid after : list HANDLE) :
  balanced evs1 before mid -> balanced evs2 mid after ->
  balanced (evs1 ++ evs2) before after.
Proof.
  unfold balanced. rewrite closed_app, kept_app, stray_app, !non_null_app.
  intros H1 H2.
  transitivity (non_null (closed evs1) ++ non_null (closed evs2) ++ non_null after);
    [by rewrite app_assoc|].
  rewrite H2.
  transitivity ((non_null (closed evs1) ++ non_null mid)
                  ++ non_null (kept evs2) ++ non_null (stray evs2));
    [solve_Permutation|].
  rewrite H1. solve_Permutation.
Qed.

Lemma balanced_frame (evs : list Event) (before after frame : list HANDLE) :
  balanced evs before after -> balanced evs (frame ++ before) (frame ++ after).
Proof.
  unfold balanced. rewrite !non_null_app. intros H.
  transitivity (non_null frame ++ non_null (closed evs) ++ non_null after);
    [solve_Permutation|].
  rewrite H. solve_Permutation.
Qed.

Lemma balanced_held (evs : list Event) (before before' after after' : list HANDLE) :
  before ≡ₚ before' -> after ≡ₚ after' ->
  balanced evs before after -> balanced evs before' after'.
Proof. unfold balanced. by intros -> ->. Qed.

Lemma balanced_inert (evs : list Event) (hs : list HANDLE) :
  Forall inert evs -> balanced evs hs hs.
Proof.
  intros Hevs. unfold balanced.
  assert (closed evs = [] /\ kept evs = [] /\ stray evs = []) as (-> & -> & ->); [|done].
  induction Hevs as [|e evs (Hc & Hk & Hs) _ (IHc & IHk & IHs)]; [done|].
  unfold closed, kept, stray in *. cbn. by rewrite Hc, Hk, Hs.
Qed.

Lemma balanced_closes (hs : list HANDLE) : balanced (EvCloseHandle <$> hs) hs [].
Proof.
  unfold balanced.
  assert (closed (EvCloseHandle <$> hs) = hs /\ kept (EvCloseHandle <$> hs) = []
          /\ stray (EvCloseHandle <$> hs) = []) as (-> & -> & ->).
  { induction hs as [|h hs (IHc & IHk & IHs)]; [done|].
    unfold closed, kept, stray in *. cbn. by rewrite IHc, IHk, IHs. }
  by rewrite app_nil_r.
Qed.

Lemma stray_RunTest_rounds (w : World) (size : nat) (opens : list Event) :
  stray (RunTest_rounds w size opens) = stray opens.
Proof. by apply RunTest_rounds_omap. Qed.

Lemma non_null_closed_reallocation (w : World) (size : nat) :
  non_null (closed (reallocation_closes w size)) = [].
Proof.
  unfold reallocation_closes.
  induction (if vector_full w size then size else 0%nat) as [|k IH]; [done|].
  cbn [replicate]. change (closed (EvCloseHandle nullptr :: ?l)) with (nullptr :: closed l).
  by rewrite non_null_null.
Qed.

Lemma non_null_closed_RunTest_rounds (w : World) (opens : list Event) :
  forall size : nat,
    non_null (closed (RunTest_rounds w size opens)) = non_null (closed opens).
Proof.
  induction opens as [|e opens IH]; intros size; [done|].
  cbn [RunTest_rounds]. destruct (kept_of e).
  - change (e :: ?l) with ([e] ++ l).
    by rewrite !closed_app, !non_null_app, non_null_closed_reallocation, IH.
  - change (e :: ?l) with ([e] ++ l). by rewrite !closed_app, !non_null_app, IH.
Qed.

Section Neutral.

Context {St : Type} `{HasMachine St} (own : St -> list HANDLE).

Lemma neutral_ret {A : Type} (a : A) : neutral own no_handles (mret a : Prog St A).
Proof.
  intros s. exists []. cbn. rewrite !app_nil_r. split; [done|]. apply balanced_nil.
Qed.

Lemma neutral_undefined {A : Type} : neutral own no_handles (undefined : Prog St A).
Proof.
  intros s. exists []. cbn. rewrite !app_nil_r. split; [done|]. apply balanced_nil.
Qed.

Lemma neutral_bind {A B : Type} (res : B -> list HANDLE) (p : Prog St A)
    (k : A -> Prog St B) :
  neutral own no_handles p -> (forall a, neutral own res (k a)) ->
  neutral own res (p ≫= k).
Proof.
  intros Hp Hk s. rewrite bind_run.
  destruct (Hp s) as (evs1 & Ht1 & Hb1).
  destruct (p s) as [[a|e|] s1]; cbn [fst snd] in *.
  - destruct (Hk a s1) as (evs2 & Ht2 & Hb2).
    exists (evs1 ++ evs2). rewrite Ht2, Ht1, app_assoc. split; [done|].
    eapply balanced_app; [|exact Hb2]. unfold no_handles in Hb1.
    by rewrite app_nil_r in Hb1.
  - by exists evs1.
  - by exists evs1.
Qed.

Lemma neutral_for_prog (body : Z -> Prog St unit) (fuel : nat) :
  (forall i, neutral own no_handles (body i)) ->
  forall i, neutral own no_handles (for_prog i fuel body).
Proof.
  intros Hbody. induction fuel as [|fuel IH]; intros i; cbn [for_prog].
  - apply neutral_ret.
  - apply neutral_bind; [apply Hbody|]. intros _. apply IH.
Qed.

Lemma neutral_for_each {A : Type} (body : A -> Prog St unit) (l : list A) :
  (forall x, neutral own no_handles (body x)) -> neutral own no_handles (for_each l body).
Proof.
  intros Hbody. induction l as [|x l IH]; cbn [for_each].
  - apply neutral_ret.
  - apply neutral_bind; [apply Hbody|]. intros _. apply IH.
Qed.

End Neutral.

Lemma neutral_inert {A : Type} (Q : A -> Prop) (p : Prog Machine A) :
  yields inert Q p -> neutral holds_nothing no_handles p.
Proof.
  intros Hp m. destruct (Hp m) as (evs & Ht & Hc & _).
  exists evs. split; [done|]. unfold holds_nothing.
  replace (match fst (p m) with Ok a => no_handles a | _ => [] end) with (@nil HANDLE)
    by (by destruct (fst (p m))).
  by apply balanced_inert.
Qed.

Lemma neutral_lift {Loc A : Type} (own : Loc * Machine -> list HANDLE)
    (res : A -> list HANDLE) (p : Prog Machine A) :
  (forall l m m', own (l, m) = own (l, m')) ->
  neutral holds_nothing res p ->
  neutral own res (lift p).
Proof.
  intros Hown Hp [l m]. unfold lift.
  destruct (Hp m) as (evs & Ht & Hb).
  destruct (p m) as [r m']. exists evs. split; [done|]. cbn [fst snd] in *.
  unfold holds_nothing in Hb. rewrite app_nil_l in Hb.
  rewrite (Hown l m' m). rewrite <- (app_nil_r (own (l, m))) at 1.
  by apply balanced_frame.
Qed.

Lemma neutral_get_locals {Loc : Type} (own : Loc * Machine -> list HANDLE) :
  neutral own no_handles get_locals.
Proof.
  intros [l m]. exists []. cbn. rewrite !app_nil_r. split; [done|]. apply balanced_nil.
Qed.

Lemma balanced_close_null (hs : list HANDLE) : balanced [EvCloseHandle nullptr] hs hs.
Proof.
  unfold balanced. change (closed [EvCloseHandle nullptr]) with [nullptr].
  change (kept [EvCloseHandle nullptr]) with (@nil HANDLE).
  change (stray [EvCloseHandle nullptr]) with (@nil HANDLE).
  cbn [app]. by rewrite non_null_null.
Qed.

Lemma balanced_failed_call (c : Syscall) (st : NTSTATUS) (g : HANDLE)
    (hs : list HANDLE) :
  NT_ERROR st = true -> is_scoped c = true ->
  balanced [EvSyscall c st g; EvCloseHandle g] hs hs.
Proof.
  intros He Hc. unfold balanced, closed, kept, stray. cbn. by rewrite He, Hc.
Qed.

Lemma balanced_call (c : Syscall) (st : NTSTATUS) (h : HANDLE) (hs : list HANDLE) :
  NT_ERROR st = false -> balanced [EvSyscall c st h] hs (hs ++ [h]).
Proof.
  intros He. unfold balanced, closed, kept, stray.
  cbn [omap list_omap closed_of kept_of stray_of]. rewrite He. cbn [andb app].
  rewrite (non_null_cons h hs), non_null_app. solve_Permutation.
Qed.

Section NeutralWorld.

Context (w : World).

Lemma neutral_handle_call (c : Syscall) :
  is_scoped c = true ->
  neutral holds_nothing its_handle
    (handle ← ScopedHandle_default w;
     '(st, handle) ← syscall_ptr w c handle;
     unwinding (Check st) (ScopedHandle_dtor handle);;
     mret handle).
Proof.
  intros Hc m. unfold machine_of, machine_itself, holds_nothing, its_handle in *.
  destruct (handle_call_cases w c m)
    as [(Hs & He & ->)|[(Hs & He & ->)|(Hs & He & ->)]]; cbn [fst snd m_handle].
  - eexists [_]. split; [done|]. by apply (balanced_call _ _ _ []).
  - eexists [_]. split; [done|]. by apply (balanced_call _ _ _ []).
  - eexists [_; _]. split; [by rewrite !trace_emit, <- app_assoc|].
    by apply balanced_failed_call.
Qed.

Lemma neutral_CreateDirectory name root shadow :
  neutral holds_nothing its_handle (CreateDirectory w name root shadow).
Proof. by apply neutral_handle_call. Qed.

Lemma neutral_OpenDirectory name root :
  neutral holds_nothing its_handle (OpenDirectory w name root).
Proof. by apply neutral_handle_call. Qed.

Lemma neutral_CreateLink name root target :
  neutral holds_nothing its_handle (CreateLink w name root target).
Proof. by apply neutral_handle_call. Qed.

(** A handle in a local of a scope, closed when the scope is left. *)
Lemma neutral_scoped {A : Type} (op : Prog Machine ScopedHandle)
    (body : ScopedHandle -> Prog Machine A) :
  neutral holds_nothing its_handle op ->
  (forall x, neutral holds_nothing no_handles (body x)) ->
  neutral holds_nothing no_handles (x ← op; finally (body x) (ScopedHandle_dtor x)).
Proof.
  intros Hop Hbody m. rewrite bind_run.
  unfold machine_of, machine_itself, holds_nothing, its_handle, no_handles in *.
  destruct (Hop m) as (evs1 & Ht1 & Hb1).
  unfold machine_of, machine_itself, holds_nothing, its_handle, no_handles in *.
  destruct (op m) as [[x|e|] m1]; cbn [fst snd app] in *.
  - unfold finally, ScopedHandle_dtor, CloseHandle.
    destruct (Hbody x m1) as (evs2 & Ht2 & Hb2).
    unfold machine_of, machine_itself, holds_nothing, no_handles in Ht2, Hb2.
    destruct (body x m1) as [r m2]. cbn [fst snd] in *.
    exists (evs1 ++ evs2 ++ [EvCloseHandle (m_handle x)]).
    split; [by rewrite trace_emit, Ht2, Ht1, <- !app_assoc|].
    replace (match r with Ok _ => [] | _ => [] end) with (@nil HANDLE) in *
      by (by destruct r).
    eapply balanced_app; [exact Hb1|].
    eapply balanced_app; [exact (balanced_frame _ _ _ [m_handle x] Hb2)|].
    rewrite app_nil_r. apply (balanced_closes [m_handle x]).
  - by exists evs1.
  - by exists evs1.
Qed.

(** A handle in a temporary, closed at the end of the statement. *)
Lemma neutral_temporary (op : Prog Machine ScopedHandle) :
  neutral holds_nothing its_handle op ->
  neutral holds_nothing no_handles (tmp ← op; ScopedHandle_dtor tmp).
Proof.
  intros Hop m. rewrite bind_run.
  unfold machine_of, machine_itself, holds_nothing, its_handle, no_handles in *.
  destruct (Hop m) as (evs1 & Ht1 & Hb1).
  unfold machine_of, machine_itself, holds_nothing, its_handle, no_handles in *.
  destruct (op m) as [[x|e|] m1]; cbn [fst snd app] in *.
  - exists (evs1 ++ [EvCloseHandle (m_handle x)]).
    unfold ScopedHandle_dtor, CloseHandle. cbn [fst snd].
    split; [by rewrite trace_emit, Ht1, <- app_assoc|].
    eapply balanced_app; [exact Hb1|]. apply (balanced_closes [m_handle x]).
  - by exists evs1.
  - by exists evs1.
Qed.

Lemma calls_of_closed (c : Syscall) (evs : list Event) :
  calls_of c evs -> closed evs = [].
Proof. induction 1 as [|e evs (st & h & ->) _ IH]; [done|]. by cbn. Qed.

Lemma calls_of_stray (c : Syscall) (evs : list Event) :
  is_scoped c = false -> calls_of c evs -> stray evs = [].
Proof.
  intros Hc. induction 1 as [|e evs (st & h & ->) _ IH]; [done|].
  unfold stray in *. cbn. by rewrite Hc, andb_false_r.
Qed.

Lemma neutral_RunTest name iterations create_name root :
  neutral holds_nothing no_handles (RunTest w name iterations create_name root).
Proof.
  intros m. unfold machine_of, machine_itself, holds_nothing, no_handles in *.
  destruct (RunTest_exact w name iterations create_name root m) as (h0 & Hrun).
  cbv zeta in Hrun.
  set (c0 := NtCreateEvent _ root) in Hrun.
  set (run := RunTest w name iterations create_name root m) in *.
  replace (match fst run with Ok _ => [] | _ => [] end) with (@nil HANDLE)
    by (by destruct (fst run)).
  destruct (NT_ERROR (nt_status w (steps m) c0)) eqn:He.
  - destruct Hrun as [_ Ht]. eexists. split; [exact Ht|].
    by apply balanced_failed_call.
  - destruct Hrun as (t0 & t1 & opens & r & Hc & _ & _ & _ & Ht).
    eexists. split; [exact Ht|].
    set (st0 := nt_status w (steps m) c0) in *.
    apply (balanced_app [EvSyscall c0 st0 h0; EvClock t0] _ [] [h0]).
    { unfold balanced, closed, kept, stray.
      cbn [omap list_omap closed_of kept_of stray_of]. by rewrite He. }
    apply (balanced_app (RunTest_rounds w 0 opens) _ [h0] (kept opens ++ [h0])).
    { unfold balanced. rewrite kept_RunTest_rounds, stray_RunTest_rounds.
      rewrite (calls_of_stray (NtOpenEvent (as_kernel_reads name) nullptr) opens
                 eq_refl Hc).
      rewrite non_null_app, non_null_closed_RunTest_rounds, (calls_of_closed _ _ Hc).
      done. }
    apply (balanced_app _ _ (kept opens ++ [h0]) (kept opens ++ [h0])).
    { apply balanced_inert. destruct r as [[]|ex|]; by repeat constructor. }
    apply balanced_closes.
Qed.

Lemma neutral_Test5_open base_dir_name base_dir j :
  neutral holds_nothing no_handles (Test5_open w base_dir_name base_dir j).
Proof. unfold Test5_open. apply neutral_temporary, neutral_OpenDirectory. Qed.

Lemma neutral_GetName (h : HANDLE) :
  neutral holds_nothing no_handles (GetName w h).
Proof. apply (neutral_inert any_value). unfold GetName. yields_auto. Qed.

Lemma neutral_Timer_new : neutral holds_nothing no_handles (Timer_new w).
Proof. apply (neutral_inert any_value). unfold Timer_new. yields_auto. Qed.

Lemma neutral_GetTime timer iterations :
  neutral holds_nothing no_handles (GetTime w timer iterations).
Proof. apply (neutral_inert any_value). unfold GetTime. yields_auto. Qed.

End NeutralWorld.

Lemma neutral_printf (l : Line) : neutral holds_nothing no_handles (printf l).
Proof. apply (neutral_inert any_value). yields_auto. Qed.

Lemma releases_vector_dtor (v : list ScopedHandle) :
  releases (handles_of v) (vector_dtor v).
Proof. intros m. by destruct (vector_dtor_run v m) as (_ & Ht & _). Qed.

Lemma releases_two_vectors (v1 v2 : list ScopedHandle) :
  releases (handles_of v1 ++ handles_of v2) (vector_dtor v1;; vector_dtor v2).
Proof.
  intros m. rewrite bind_run.
  destruct (vector_dtor_run v1 m) as (Hok & Ht1 & _).
  destruct (vector_dtor v1 m) as [r m1]. cbn [fst snd] in *. subst r.
  rewrite (releases_vector_dtor v2 m1), Ht1, fmap_app, <- app_assoc. done.
Qed.

Lemma neutral_run_block {Loc A : Type} (ownl : Loc -> list HANDLE) (init : Loc)
    (body : Prog (Loc * Machine) A) (dtors : Loc -> Prog Machine unit) :
  ownl init = [] ->
  neutral (fun s : Loc * Machine => ownl (fst s)) no_handles body ->
  (forall l, exists hs, hs ≡ₚ ownl l /\ releases hs (dtors l)) ->
  neutral holds_nothing no_handles (run_block init body dtors).
Proof.
  intros Hinit Hbody Hd m. unfold run_block.
  destruct (Hbody (init, m)) as (evs1 & Ht1 & Hb1).
  unfold machine_of, machine_with_locals, no_handles in Ht1, Hb1.
  destruct (body (init, m)) as [r [l m1]]. cbn [fst snd] in *.
  destruct (Hd l) as (hs & Hperm & Hrel).
  exists (evs1 ++ (EvCloseHandle <$> hs)).
  unfold machine_of, machine_with_locals, machine_itself, holds_nothing, no_handles in *.
  cbn [fst snd] in *. rewrite Hrel, Ht1, app_assoc. split; [done|].
  replace (match r with Ok _ => [] | _ => [] end) with (@nil HANDLE) in *
    by (by destruct r).
  rewrite Hinit, app_nil_r in Hb1. rewrite app_nil_l.
  eapply balanced_app; [exact Hb1|].
  eapply balanced_held; [exact Hperm|done|]. apply balanced_closes.
Qed.

Lemma balanced_null_closes (evs : list Event) (hs : list HANDLE) :
  Forall (eq (EvCloseHandle nullptr)) evs -> balanced evs hs hs.
Proof.
  induction 1 as [|e evs <- _ IH]; [apply balanced_nil|].
  apply (balanced_app [EvCloseHandle nullptr] evs hs hs hs); [|done].
  apply balanced_close_null.
Qed.

Lemma null_closes_push (w : World) (size : nat) :
  Forall (eq (EvCloseHandle nullptr))
    (reallocation_closes w size ++ [EvCloseHandle nullptr]).
Proof. apply Forall_app. split; [by apply Forall_replicate|by repeat constructor]. Qed.

(** A round of a loop that creates an object and moves its handle into a
    vector among the locals, which closes null for the elements and the
    temporary it empties, and then goes on with [tail]. *)
Lemma neutral_round {Loc : Type} (ownl : Loc -> list HANDLE)
    (step : Prog (Loc * Machine) unit) (op : Loc -> Prog Machine ScopedHandle)
    (upd : Loc -> ScopedHandle -> Loc)
    (tail : Loc -> ScopedHandle -> Prog (Loc * Machine) unit) :
  (forall l m, exists nulls : list Event,
     Forall (eq (EvCloseHandle nullptr)) nulls
     /\ step (l, m)
        = match op l m with
          | (Ok x, m1) => tail l x (upd l x, emits nulls m1)
          | (Throw e, m1) => (Throw e, (l, m1))
          | (Undefined, m1) => (Undefined, (l, m1))
          end) ->
  (forall l, neutral holds_nothing its_handle (op l)) ->
  (forall l x, ownl (upd l x) ≡ₚ ownl l ++ [m_handle x]) ->
  (forall l x, neutral (fun s : Loc * Machine => ownl (fst s)) no_handles (tail l x)) ->
  neutral (fun s : Loc * Machine => ownl (fst s)) no_handles step.
Proof.
  intros Hstep Hop Hupd Htail [l m].
  destruct (Hstep l m) as (nulls & Hnulls & ->).
  unfold machine_of, machine_with_locals, machine_itself, holds_nothing, its_handle,
    no_handles in *.
  destruct (Hop l m) as (evs1 & Ht1 & Hb1).
  unfold machine_of, machine_itself, holds_nothing, its_handle, no_handles in *.
  destruct (op l m) as [[x|e|] m1]; cbn [fst snd app] in *.
  - destruct (Htail l x (upd l x, emits nulls m1)) as (evs2 & Ht2 & Hb2).
    unfold machine_of, machine_with_locals, no_handles in Ht2, Hb2.
    exists (evs1 ++ nulls ++ evs2). cbn [fst snd] in *.
    split; [by rewrite Ht2, trace_emits, Ht1, <- !app_assoc|].
    eapply balanced_app.
    { apply (balanced_held evs1 (ownl l ++ []) (ownl l) (ownl l ++ [m_handle x])
               (ownl (upd l x)));
        [by rewrite app_nil_r|symmetry; apply Hupd|].
      exact (balanced_frame _ _ _ (ownl l) Hb1). }
    eapply balanced_app; [by apply balanced_null_closes|exact Hb2].
  - exists evs1. split; [done|]. rewrite app_nil_r.
    rewrite <- (app_nil_r (ownl l)). by apply balanced_frame.
  - exists evs1. split; [done|]. rewrite app_nil_r.
    rewrite <- (app_nil_r (ownl l)). by apply balanced_frame.
Qed.

(** ** Handles obtained and closed: the rounds of the loops *)

Ltac round_equation w v op :=
  exists (reallocation_closes w (length v) ++ [EvCloseHandle nullptr]);
  split; [apply null_closes_push|];
  cbv [mbind prog_bind get_locals lift fst snd];
  destruct op as [[?x|?e|] ?m1]; [|reflexivity|reflexivity];
  rewrite push_temporary_run;
  cbv [mbind prog_bind mret prog_ret set_locals lift fst snd m_handle get];
  unfold vector_back; rewrite ?last_snoc; reflexivity.

Ltac neutral_step w :=
  lazymatch goal with
  | |- neutral _ _ (mret _) => apply neutral_ret
  | |- neutral _ _ undefined => apply neutral_undefined
  | |- neutral _ _ (_ ≫= _) => apply neutral_bind; [|intros ?]
  | |- neutral _ _ (let '(_, _) := ?x in _) => destruct x
  | |- neutral _ _ (if ?b then _ else _) => destruct b
  | |- neutral _ _ (lift _) => apply neutral_lift; [done|]
  | |- neutral _ _ get_locals => apply neutral_get_locals
  | |- neutral _ _ (for_prog _ _ _) => apply neutral_for_prog; intros ?
  | |- neutral _ _ (for_each _ _) => apply neutral_for_each; intros ?
  | |- neutral _ _ (RunTest _ _ _ _ _) => apply neutral_RunTest
  | |- neutral _ _ (Test5_open _ _ _ _) => apply neutral_Test5_open
  | |- neutral _ _ (GetName _ _) => apply neutral_GetName
  | |- neutral _ _ (name _ _) => apply neutral_GetName
  | |- neutral _ _ (Timer_new _) => apply neutral_Timer_new
  | |- neutral _ _ (GetTime _ _ _) => apply neutral_GetTime
  | |- neutral _ _ (printf _) => apply neutral_printf
  | |- neutral _ _ (vector_front ?v) => unfold vector_front; destruct v
  end.

Ltac neutral_auto w := repeat neutral_step w.

Section NeutralRounds.

Context (w : World).

Lemma neutral_Test3_step (iterations i : Z) :
  neutral (fun s => handles_of (snd (fst s))) no_handles (Test3_step w iterations i).
Proof.
  apply (neutral_round (fun l => handles_of (snd l)) _
           (fun l => CreateDirectory w (L "A") (fst l) nullptr)
           (fun l x => (m_handle x, snd l ++ [{| m_handle := m_handle x |}]))
           (fun l x =>
              if decide (Z.rem i 500 = 0) then
                dir_name ← lift (GetName w (m_handle x));
                result ← lift (RunTest w (dir_name ++ L "\X") iterations [] nullptr);
                lift (printf (Line_d_f (i + 1) result))
              else mret tt)).
  - intros [last_dir dirs] m. unfold Test3_step.
    round_equation w dirs (CreateDirectory w (L "A") last_dir nullptr m).
  - intros l. apply neutral_CreateDirectory.
  - intros [last_dir dirs] x. unfold handles_of. cbn [fst snd]. by rewrite fmap_app.
  - intros l x. neutral_auto w.
Qed.

Lemma neutral_Test4_dir_step (i : Z) :
  neutral (fun s => handles_of (snd (fst (fst s))) ++ handles_of (snd (fst s)))
    no_handles (Test4_dir_step w i).
Proof.
  apply (neutral_round (fun l => handles_of (snd (fst l)) ++ handles_of (snd l)) _
           (fun l => CreateDirectory w (L "A") (fst (fst l)) nullptr)
           (fun l x => (m_handle x, snd (fst l) ++ [{| m_handle := m_handle x |}], snd l))
           (fun l x => mret tt)).
  - intros [[last_dir dirs] links] m. unfold Test4_dir_step.
    round_equation w dirs (CreateDirectory w (L "A") last_dir nullptr m).
  - intros l. apply neutral_CreateDirectory.
  - intros [[last_dir dirs] links] x. unfold handles_of. cbn [fst snd].
    rewrite fmap_app. cbn. solve_Permutation.
  - intros l x. apply neutral_ret.
Qed.

Lemma neutral_Test4_link_step (last_dir_name : wstring) (i : Z) :
  neutral (fun s => handles_of (snd (fst (fst s))) ++ handles_of (snd (fst s)))
    no_handles (Test4_link_step w last_dir_name i).
Proof.
  apply (neutral_round (fun l => handles_of (snd (fst l)) ++ handles_of (snd l)) _
           (fun l => CreateLink w (IntToString i) (fst (fst l))
                       (last_dir_name ++ L "\" ++ IntToString (i + 1)))
           (fun l x => (fst l, snd l ++ [{| m_handle := m_handle x |}]))
           (fun l x => mret tt)).
  - intros [[last_dir dirs] links] m. unfold Test4_link_step.
    round_equation w links (CreateLink w (IntToString i) last_dir
                      (last_dir_name ++ L "\" ++ IntToString (i + 1)) m).
  - intros l. apply neutral_CreateLink.
  - intros [[last_dir dirs] links] x. unfold handles_of. cbn [fst snd].
    rewrite fmap_app. cbn. solve_Permutation.
  - intros l x. apply neutral_ret.
Qed.

Lemma neutral_Test5_step iterations collision_count base_dir_name base_dir (i : Z) :
  neutral (fun s => handles_of (fst s)) no_handles
    (Test5_step w iterations collision_count base_dir_name base_dir i).
Proof.
  apply (neutral_round handles_of _
           (fun _ => CreateDirectory w (MakeCollisionName (collision_count - i))
                       (get base_dir) nullptr)
           (fun dirs x => dirs ++ [{| m_handle := m_handle x |}])
           (fun _ _ =>
              if decide (Z.rem i 500 = 0) then
                timer ← lift (Timer_new w);
                lift (for_prog 0 (Z.to_nat iterations)
                        (Test5_open w base_dir_name base_dir));;
                t ← lift (GetTime w timer iterations);
                lift (printf (Line_d_f i t))
              else mret tt)).
  - intros dirs m. unfold Test5_step. cbv zeta.
    round_equation w dirs (CreateDirectory w (MakeCollisionName (collision_count - i))
                      (get base_dir) nullptr m).
  - intros l. apply neutral_CreateDirectory.
  - intros dirs x. unfold handles_of. by rewrite fmap_app.
  - intros l x. neutral_auto w.
Qed.

Lemma neutral_Test6_insert base_dir name :
  neutral (fun s => handles_of (fst s)) no_handles (Test6_insert w base_dir name).
Proof.
  apply (neutral_round handles_of _
           (fun _ => CreateDirectory w name (get base_dir) nullptr)
           (fun dirs x => dirs ++ [{| m_handle := m_handle x |}])
           (fun _ _ => mret tt)).
  - intros dirs m. unfold Test6_insert.
    round_equation w dirs (CreateDirectory w name (get base_dir) nullptr m).
  - intros l. apply neutral_CreateDirectory.
  - intros dirs x. unfold handles_of. by rewrite fmap_app.
  - intros l x. apply neutral_ret.
Qed.

Lemma neutral_Test8_dir_step collision_count shadow_dir (i : Z) :
  neutral (fun s => handles_of (fst (fst s)) ++ handles_of (snd (fst s))) no_handles
    (Test8_dir_step w collision_count shadow_dir i).
Proof.
  apply (neutral_round (fun l => handles_of (fst l) ++ handles_of (snd l)) _
           (fun _ => CreateDirectory w (MakeCollisionName (collision_count - i))
                       (get shadow_dir) nullptr)
           (fun l x => (fst l ++ [{| m_handle := m_handle x |}], snd l))
           (fun _ _ => mret tt)).
  - intros [dirs links] m. unfold Test8_dir_step.
    round_equation w dirs (CreateDirectory w (MakeCollisionName (collision_count - i))
                      (get shadow_dir) nullptr m).
  - intros l. apply neutral_CreateDirectory.
  - intros [dirs links] x. unfold handles_of. cbn [fst snd].
    rewrite fmap_app. cbn. solve_Permutation.
  - intros l x. apply neutral_ret.
Qed.

Lemma neutral_Test8_link_step last_dir_name shadow_dir (i : Z) :
  neutral (fun s => handles_of (fst (fst s)) ++ handles_of (snd (fst s))) no_handles
    (Test8_link_step w last_dir_name shadow_dir i).
Proof.
  apply (neutral_round (fun l => handles_of (fst l) ++ handles_of (snd l)) _
           (fun _ => CreateLink w (IntToString i) (get shadow_dir)
                       (last_dir_name ++ L "\" ++ IntToString (i + 1)))
           (fun l x => (fst l, snd l ++ [{| m_handle := m_handle x |}]))
           (fun _ _ => mret tt)).
  - intros [dirs links] m. unfold Test8_link_step.
    round_equation w links (CreateLink w (IntToString i) (get shadow_dir)
                      (last_dir_name ++ L "\" ++ IntToString (i + 1)) m).
  - intros l. apply neutral_CreateLink.
  - intros [dirs links] x. unfold handles_of. cbn [fst snd].
    rewrite fmap_app. cbn. solve_Permutation.
  - intros l x. apply neutral_ret.
Qed.

End NeutralRounds.

(** ** Handles obtained and closed: the scenarios *)

Section NeutralScenarios.

Context (w : World).

Lemma neutral_Test2_while (iterations : Z) (path : wstring) :
  neutral holds_nothing no_handles (Test2_while w iterations path).
Proof.
  funelim (Test2_while w iterations path).
  - apply neutral_bind; [apply neutral_RunTest|]. intros result.
    apply neutral_bind; [apply neutral_printf|]. intros u.
    exact (H result u boot).
  - apply neutral_ret.
Qed.

Lemma neutral_Test7_loop (iterations dir_count : Z) (dir_name : wstring)
    (shadow_dir : ScopedHandle) (i : Z) :
  neutral holds_nothing no_handles
    (Test7_loop w iterations dir_count dir_name shadow_dir i).
Proof.
  funelim (Test7_loop w iterations dir_count dir_name shadow_dir i).
  - apply neutral_bind; [apply neutral_RunTest|]. intros result.
    apply neutral_bind; [apply neutral_printf|]. intros u.
    destruct (decide (i + 500 <= INT_MAX)) as [Hstep|Hstep].
    + exact (H result u Hstep boot).
    + apply neutral_undefined.
  - apply neutral_ret.
Qed.

Lemma neutral_Test1 (args : list string) :
  neutral holds_nothing no_handles (Test1 w args).
Proof. unfold Test1. cbv zeta. neutral_auto w. Qed.

Lemma neutral_Test3 (args : list string) :
  neutral holds_nothing no_handles (Test3 w args).
Proof.
  unfold Test3. cbv zeta.
  apply neutral_scoped; [apply neutral_OpenDirectory|]. intros base_dir.
  apply (neutral_run_block (fun l => handles_of (snd l))); [done| |].
  - apply neutral_for_prog. intros i. apply neutral_Test3_step.
  - intros [last_dir dirs]. exists (handles_of dirs).
    split; [done|]. apply releases_vector_dtor.
Qed.

Lemma neutral_Test4 (args : list string) :
  neutral holds_nothing no_handles (Test4 w args).
Proof.
  unfold Test4. cbv zeta.
  apply neutral_scoped; [apply neutral_OpenDirectory|]. intros base_dir.
  apply (neutral_run_block
           (fun l => handles_of (snd (fst l)) ++ handles_of (snd l))); [done| |].
  - apply neutral_bind.
    { apply neutral_for_prog. intros i. apply neutral_Test4_dir_step. }
    intros _. apply neutral_bind; [apply neutral_get_locals|].
    intros [[last_dir dirs] links].
    apply neutral_bind; [apply neutral_lift; [done|apply neutral_GetName]|].
    intros last_dir_name. apply neutral_bind.
    { apply neutral_for_prog. intros i. apply neutral_Test4_link_step. }
    intros _. neutral_auto w.
  - intros [[last_dir dirs] links]. exists (handles_of links ++ handles_of dirs).
    split; [cbn [fst snd]; solve_Permutation|]. apply releases_two_vectors.
Qed.

Lemma neutral_Test5 (args : list string) :
  neutral holds_nothing no_handles (Test5 w args).
Proof.
  unfold Test5. cbv zeta.
  apply neutral_scoped; [apply neutral_CreateDirectory|]. intros base_dir.
  apply (neutral_run_block handles_of); [done| |].
  - apply neutral_for_prog. intros i. apply neutral_Test5_step.
  - intros dirs. exists (handles_of dirs). split; [done|]. apply releases_vector_dtor.
Qed.

Lemma neutral_Test6 (args : list string) :
  neutral holds_nothing no_handles (Test6 w args).
Proof.
  unfold Test6. cbv zeta.
  apply neutral_scoped; [apply neutral_CreateDirectory|]. intros base_dir.
  apply (neutral_run_block handles_of); [done| |].
  - apply neutral_bind; [apply neutral_lift; [done|apply neutral_Timer_new]|].
    intros timer. apply neutral_bind.
    { apply neutral_for_each. intros name. apply neutral_Test6_insert. }
    intros _. neutral_auto w.
  - intros dirs. exists (handles_of dirs). split; [done|]. apply releases_vector_dtor.
Qed.

Lemma neutral_Test7 (args : list string) :
  neutral holds_nothing no_handles (Test7 w args).
Proof.
  unfold Test7. cbv zeta.
  apply neutral_scoped; [apply neutral_CreateDirectory|]. intros shadow_dir.
  apply neutral_scoped; [apply neutral_CreateDirectory|]. intros target_dir.
  apply neutral_Test7_loop.
Qed.

Lemma neutral_Test8 (args : list string) :
  neutral holds_nothing no_handles (Test8 w args).
Proof.
  unfold Test8. cbv zeta.
  apply neutral_scoped; [apply neutral_CreateDirectory|]. intros shadow_dir.
  apply neutral_scoped; [apply neutral_CreateDirectory|]. intros target_dir.
  apply (neutral_run_block (fun l => handles_of (fst l) ++ handles_of (snd l)));
    [done| |].
  - apply neutral_bind.
    { destruct (decide (INT_MIN <= GetArg args 3 16000 - 1)); [|apply neutral_undefined].
      apply neutral_for_prog. intros i. apply neutral_Test8_dir_step. }
    intros _. apply neutral_bind; [apply neutral_lift; [done|apply neutral_printf]|].
    intros _. apply neutral_bind.
    { apply neutral_for_prog. intros i. apply neutral_Test8_link_step. }
    intros _. neutral_auto w.
  - intros [dirs links]. exists (handles_of links ++ handles_of dirs).
    split; [cbn [fst snd]; solve_Permutation|]. apply releases_two_vectors.
Qed.

Lemma neutral_scenario (test_no : Z) (args : list string) :
  neutral holds_nothing no_handles (scenario w test_no args).
Proof.
  destruct (decide (1 <= test_no <= 8)) as [Hknown|Hunknown].
  - assert (test_no = 1 \/ test_no = 2 \/ test_no = 3 \/ test_no = 4 \/ test_no = 5
            \/ test_no = 6 \/ test_no = 7 \/ test_no = 8) as Hcases by lia.
    destruct Hcases as [->|[->|[->|[->|[->|[->|[->| ->]]]]]]];
      [apply neutral_Test1|apply neutral_Test2_while|apply neutral_Test3
      |apply neutral_Test4|apply neutral_Test5|apply neutral_Test6
      |apply neutral_Test7|apply neutral_Test8].
  - assert (Hret : scenario w test_no args = mret tt).
    { destruct test_no as [|p|p]; [reflexivity| |reflexivity].
      do 4 (destruct p as [p|p|]; try reflexivity; try lia). }
    rewrite Hret. apply neutral_ret.
Qed.

End NeutralScenarios.

Lemma unfailed_no_stray (evs : list Event) : Forall unfailed evs -> stray evs = [].
Proof.
  induction 1 as [|e evs He _ IH]; [done|].
  unfold stray in *. cbn [omap list_omap]. rewrite IH.
  destruct e as [c st h| | | |]; try done.
  cbn [stray_of]. by rewrite (He st eq_refl).
Qed.

(** X12: a scenario closes what it obtains.  Over the events of a scenario
    that returns or throws, the handles passed to [CloseHandle] are, apart
    from null and each as often as it occurs, the handles that the calls
    without an error status left in the program's variables, together with
    the contents of the [ScopedHandle] locals of the calls that failed.  So
    every handle obtained is closed, as often as it was obtained.  A
    scenario that returns had no failed call and closes nothing else.  A
    failed create or open of a directory, link or event has [CloseHandle]
    called on the uninitialised content of its local, whatever it is: when
    it is a handle held elsewhere, that handle is closed twice. *)
Theorem scenario_closes_what_it_obtains (w : World) (test_no : Z) (args : list string)
    (m : Machine) :
  let run := scenario w test_no args m in
  let evs := new_events m (snd run) in
  fst run <> Undefined ->
  non_null (closed evs) ≡ₚ non_null (kept evs ++ stray evs)
  /\ (fst run = Ok tt ->
      stray evs = [] /\ non_null (closed evs) ≡ₚ non_null (kept evs)).
Proof.
  cbv zeta. intros _.
  assert (Hall : non_null (closed (new_events m (snd (scenario w test_no args m))))
                 ≡ₚ non_null (kept (new_events m (snd (scenario w test_no args m)))
                              ++ stray (new_events m (snd (scenario w test_no args m))))).
  { destruct (neutral_scenario w test_no args m) as (evs & Ht & Hb).
    unfold machine_of, machine_itself, holds_nothing, no_handles in Ht, Hb.
    rewrite (new_events_app _ _ _ Ht).
    replace (match fst (scenario w test_no args m) with Ok _ => [] | _ => [] end)
      with (@nil HANDLE) in Hb by (by destruct (fst (scenario w test_no args m))).
    unfold balanced in Hb. by rewrite !app_nil_r in Hb. }
  split; [exact Hall|]. intros Hok.
  assert (Hstray : stray (new_events m (snd (scenario w test_no args m))) = []).
  { destruct (strict_scenario w test_no args m) as (evs & Ht & Hr).
    unfold machine_of, machine_itself in Ht. rewrite (new_events_app _ _ _ Ht).
    rewrite Hok in Hr. by apply unfailed_no_stray. }
  split; [exact Hstray|]. by rewrite Hstray, app_nil_r in Hall.
Qed.

(** X12 in [stale]: scenario 3 obtains the handles 4 and 8, and the creation
    of the event fails with 8 as the content of its local, so that 8 is
    closed twice. *)
Lemma scenario_closes_witness :
  closed (new_events boot (snd (scenario stale 3 ["1"; "2"]%string boot)))
  = [nullptr; 8; 8; 4]
  /\ non_null (closed (new_events boot (snd (scenario stale 3 ["1"; "2"]%string boot))))
     ≡ₚ [4; 8; 8].
Proof.
  split; [by vm_compute|].
  rewrite (proj1 (scenario_closes_what_it_obtains stale 3 ["1"; "2"]%string boot
                    ltac:(by vm_compute))).
  vm_compute. reflexivity.
Defined.

(** ** Deep names at the kernel *)

Lemma for_int_append_length (tail : wstring) (fuel : nat) :
  forall (i : Z) (base : wstring),
    length (for_int i fuel (fun _ s => s ++ tail) base)
    = (length base + fuel * length tail)%nat.
Proof.
  induction fuel as [|fuel IH]; intros i base; cbn [for_int]; [lia|].
  rewrite IH, length_app. lia.
Qed.

Lemma deep_name_whole (n : Z) (leaf : wstring) :
  length leaf = 2%nat ->
  let name := for_int 0 (Z.to_nat n) (fun _ s => s ++ L "\A") BaseNamedObjects_A ++ leaf in
  length name = (21 + 2 * Z.to_nat n)%nat
  /\ (as_kernel_reads name = name <-> n <= 16373).
Proof.
  intros Hleaf name.
  assert (Hlen : length name = (21 + 2 * Z.to_nat n)%nat).
  { unfold name. rewrite length_app, for_int_append_length, Hleaf.
    change (length BaseNamedObjects_A) with 19%nat.
    change (length (L "\A")) with 2%nat. lia. }
  split; [done|]. rewrite as_kernel_reads_whole, Hlen. lia.
Qed.

(** X13: the names of nested directories.  The name scenario 7 opens at
    depth [n], and the name scenario 8 opens below [n] directories, have
    [21 + 2 n] characters; the kernel reads them whole exactly when [n] is
    at most 16373, and otherwise reads a shorter name. *)
Theorem deep_names_at_kernel (n : Z) :
  let last_dir_name :=
    for_int 0 (Z.to_nat n) (fun _ s => s ++ L "\A") BaseNamedObjects_A in
  length (Test7_open_name BaseNamedObjects_A n) = (21 + 2 * Z.to_nat n)%nat
  /\ (as_kernel_reads (Test7_open_name BaseNamedObjects_A n)
        = Test7_open_name BaseNamedObjects_A n
      <-> n <= 16373)
  /\ (as_kernel_reads (last_dir_name ++ L "\0") = last_dir_name ++ L "\0"
      <-> n <= 16373).
Proof.
  cbv zeta. unfold Test7_open_name.
  destruct (deep_name_whole n (L "\X") eq_refl) as [Hlen Hwhole].
  destruct (deep_name_whole n (L "\0") eq_refl) as [_ Hwhole0].
  done.
Qed.

(** ** The names of scenario 2 *)

Lemma RunTest_names (w : World) (name : wstring) (iterations : Z) :
  Z.of_nat (length name) < 32768 ->
  yields (names_only (eq name)) any_value (RunTest w name iterations [] nullptr).
Proof.
  intros Hlen m. unfold machine_of, machine_itself.
  assert (Hcall : forall c st h,
            c = NtCreateEvent name nullptr \/ c = NtOpenEvent name nullptr ->
            names_only (eq name) (EvSyscall c st h)).
  { intros c st h Hc c' [= <-]. exists name. by split. }
  assert (Hother : forall e, syscall_of e = None -> names_only (eq name) e).
  { intros e He c. by rewrite He. }
  destruct (RunTest_exact w name iterations [] nullptr m) as (h0 & Hrun).
  cbv zeta in Hrun.
  change (if decide ([] = []) then name else []) with name in Hrun.
  rewrite (proj2 (as_kernel_reads_whole name) Hlen) in Hrun.
  destruct (NT_ERROR _).
  - destruct Hrun as [Hr Ht]. eexists. split; [exact Ht|]. split; [|done].
    repeat constructor; [apply Hcall; by left|by apply Hother].
  - destruct Hrun as (t0 & t1 & opens & r & Hc & _ & _ & _ & Ht).
    eexists. split; [exact Ht|]. split; [|done].
    apply Forall_app. split.
    { repeat constructor; [apply Hcall; by left|by apply Hother]. }
    apply Forall_app. split.
    { apply RunTest_rounds_Forall; [by apply Hother|].
      eapply Forall_impl; [exact Hc|]. intros e (st & h & ->). apply Hcall. by right. }
    apply Forall_app. split.
    { destruct r; repeat constructor; by apply Hother. }
    apply Forall_fmap, Forall_forall. intros h _. by apply Hother.
Qed.

Lemma Test2_while_names (w : World) (iterations : Z) (path : wstring) :
  forall k : Z,
    0 <= k -> path = replicate (Z.to_nat (500 * k)) 65 ->
    yields (names_only Test2_name) any_value (Test2_while w iterations path).
Proof.
  funelim (Test2_while w iterations path); intros k Hk Hpath.
  - assert (Hsize : Z.of_nat (length path) = 500 * k).
    { rewrite Hpath, length_replicate. lia. }
    eapply yields_bind.
    { eapply yields_weaken; [| |apply RunTest_names].
      - intros e He c Hc. destruct (He c Hc) as (name & <- & Hname).
        exists (BaseNamedObjects_A ++ path). split; [|done].
        exists k. split; [lia|]. by rewrite Hpath.
      - done.
      - rewrite length_app. change (length BaseNamedObjects_A) with 19%nat. lia. }
    intros result _. eapply yields_bind; [by apply yields_printf|].
    intros u _. apply (H result u boot (k + 1)); [lia|].
    rewrite Hpath, <- replicate_add. f_equal. lia.
  - by apply (yields_ret _ any_value).
Qed.

(** X14: scenario 2 creates and opens only event objects named
    ["\BaseNamedObjects\A"] followed by 500 k further ['A'] for some [k]
    from 0 to 64; these are the names the kernel reads, none is cut
    short. *)
Theorem Test2_names_whole (w : World) (args : list string) (m : Machine) :
  Forall (names_only Test2_name) (new_events m (snd (Test2 w args m))).
Proof.
  apply (yields_new_events _ any_value).
  by apply (Test2_while_names w (GetArg args 0 1000) [] 0).
Qed.

(** ** Numbers as names *)

Lemma L_inj (s1 s2 : string) : L s1 = L s2 -> s1 = s2.
Proof.
  unfold L. intros Heq.
  assert (Hchars : String.list_ascii_of_string s1 = String.list_ascii_of_string s2).
  { revert Heq. generalize (String.list_ascii_of_string s2).
    induction (String.list_ascii_of_string s1) as [|c1 l1 IH]; intros [|c2 l2] Heq;
      try done.
    injection Heq as Hc Hl. f_equal; [|by apply IH].
    apply N2Z.inj in Hc. rewrite <- (ascii_N_embedding c1), <- (ascii_N_embedding c2).
    by rewrite Hc. }
  rewrite <- (String.string_of_list_ascii_of_string s1),
    <- (String.string_of_list_ascii_of_string s2).
  by rewrite Hchars.
Qed.

Lemma pretty_N_go_grows (x : N) :
  forall s : string, (String.length s <= String.length (pretty_N_go x s))%nat.
Proof.
  induction (N.lt_wf_0 x) as [x _ IH]. intros s.
  destruct (decide (x = 0)%N) as [->|Hx]; [by rewrite pretty_N_go_0|].
  rewrite pretty_N_go_step by lia.
  etrans; [|apply IH; apply N.div_lt; lia]. cbn. lia.
Qed.

Lemma IntToString_nonempty (i : Z) : IntToString i <> [].
Proof.
  unfold IntToString. intros Hnil. apply (L_inj _ "") in Hnil.
  assert (Hpos : forall p : positive, pretty (N.pos p) <> ""%string).
  { intros p Hp. unfold pretty, pretty_N in Hp.
    rewrite decide_False, pretty_N_go_step in Hp by lia.
    pose proof (pretty_N_go_grows (N.pos p `div` 10)
                  (String (pretty_N_char (N.pos p `mod` 10)) "")) as Hlen.
    rewrite Hp in Hlen. cbn in Hlen. lia. }
  destruct i as [|p|p]; [done|by apply (Hpos p)|done].
Qed.

(** X15: [IntToString] gives distinct names for distinct numbers and never
    the empty name.  So the symbolic links that scenarios 4 and 8 create
    have pairwise distinct names, the event that [RunTest] creates for them
    has a name none of the links has, and [RunTest] never replaces that
    name by the name it opens. *)
Theorem IntToString_names (i : Z) :
  (forall j : Z, IntToString i = IntToString j -> i = j)
  /\ IntToString i <> []
  /\ (forall name : wstring,
        (if decide (IntToString i = []) then name else IntToString i) = IntToString i).
Proof.
  split; [|split].
  - intros j Heq. unfold IntToString in Heq. apply L_inj in Heq.
    by apply (inj pretty) in Heq.
  - apply IntToString_nonempty.
  - intros name. by rewrite decide_False by apply IntToString_nonempty.
Qed.

(** X15 for the numbers 63 and 64. *)
Lemma IntToString_names_witness : IntToString 63 <> IntToString 64.
Proof.
  intros Heq. by apply (IntToString_names 63) in Heq.
Defined.

(** ** The insertions of scenario 6 *)

Lemma Test6_insert_run (w : World) (base_dir : ScopedHandle) (name : wstring)
    (dirs : list ScopedHandle) (m : Machine) :
  Test6_insert w base_dir name (dirs, m)
  = match CreateDirectory w name (get base_dir) nullptr m with
    | (Ok x, m1) =>
        (Ok tt,
         (dirs ++ [{| m_handle := m_handle x |}],
          emits (reallocation_closes w (length dirs) ++ [EvCloseHandle nullptr]) m1))
    | (Throw e, m1) => (Throw e, (dirs, m1))
    | (Undefined, m1) => (Undefined, (dirs, m1))
    end.
Proof.
  unfold Test6_insert.
  cbv [mbind prog_bind get_locals lift fst snd].
  destruct (CreateDirectory w name (get base_dir) nullptr m) as [[x|e|] m1];
    [|reflexivity|reflexivity].
  by rewrite push_temporary_run.
Qed.

Lemma Test6_rounds_cons (w : World) (size : nat) (base : HANDLE) (name : wstring)
    (names : list wstring) (st : NTSTATUS) (h : HANDLE)
    (outs : list (NTSTATUS * HANDLE)) :
  Test6_rounds w size base (name :: names) ((st, h) :: outs)
  = EvSyscall (NtCreateDirectoryObjectEx (as_kernel_reads name) base nullptr) st h
      :: (reallocation_closes w size ++ [EvCloseHandle nullptr])
      ++ Test6_rounds w (S size) base names outs.
Proof.
  unfold Test6_rounds. cbn [zip zip_with imap mjoin list_join fst snd app].
  rewrite Nat.add_0_r. do 2 f_equal. f_equal.
  apply imap_ext. intros j round _. cbn. by rewrite Nat.add_succ_r.
Qed.

Lemma Test6_loop_exact (w : World) (base_dir : ScopedHandle) (names : list wstring) :
  forall (dirs : list ScopedHandle) (m : Machine),
  exists (r : Result unit) (dirs' : list ScopedHandle) (m' : Machine)
         (evs : list Event),
    for_each names (Test6_insert w base_dir) (dirs, m) = (r, (dirs', m'))
    /\ trace m' = trace m ++ evs
    /\ (r = Ok tt ->
        exists outs : list (NTSTATUS * HANDLE),
          length outs = length names
          /\ evs = Test6_rounds w (length dirs) (get base_dir) names outs
          /\ handles_of dirs' = handles_of dirs ++ outs.*2).
Proof.
  induction names as [|name names IH]; intros dirs m.
  - exists (Ok tt), dirs, m, []. cbn. rewrite app_nil_r.
    split; [done|]. split; [done|]. intros _. exists []. by rewrite app_nil_r.
  - cbn [for_each]. rewrite bind_run, Test6_insert_run.
    unfold CreateDirectory. cbv zeta. cbn [ObjectAttributes ObjectName RootDirectory].
    change (counted (UnicodeString name)) with (as_kernel_reads name).
    set (c := NtCreateDirectoryObjectEx _ _ _).
    set (nulls := reallocation_closes w (length dirs) ++ [EvCloseHandle nullptr]).
    assert (Hmore : forall (st : NTSTATUS) (h : HANDLE) (m1 : Machine),
      trace m1 = trace m ++ [EvSyscall c st h] ->
      exists (r : Result unit) (dirs' : list ScopedHandle) (m' : Machine)
             (evs : list Event),
        for_each names (Test6_insert w base_dir)
          (dirs ++ [{| m_handle := h |}], emits nulls m1)
        = (r, (dirs', m'))
        /\ trace m' = trace m ++ evs
        /\ (r = Ok tt ->
            exists outs : list (NTSTATUS * HANDLE),
              length outs = length (name :: names)
              /\ evs = Test6_rounds w (length dirs) (get base_dir) (name :: names) outs
              /\ handles_of dirs' = handles_of dirs ++ outs.*2)).
    { intros st h m1 Ht1.
      destruct (IH (dirs ++ [{| m_handle := h |}]) (emits nulls m1))
        as (r & dirs' & m' & evs & -> & Ht & Hok).
      exists r, dirs', m', (EvSyscall c st h :: nulls ++ evs).
      split; [done|]. split; [by rewrite Ht, trace_emits, Ht1, <- !app_assoc|].
      intros Hr. destruct (Hok Hr) as (outs & Hlen & -> & Hh).
      exists ((st, h) :: outs). split; [by cbn; rewrite Hlen|].
      rewrite Test6_rounds_cons, length_app, Nat.add_1_r. split; [done|].
      rewrite Hh. unfold handles_of. rewrite fmap_app, <- app_assoc. done. }
    destruct (handle_call_cases w c m)
      as [(Hs & He & ->)|[(Hs & He & ->)|(Hs & He & ->)]]; cbn [m_handle].
    + apply (Hmore (nt_status w (steps m) c)). by rewrite trace_issue, trace_emit.
    + apply (Hmore (nt_status w (steps m) c)). by rewrite trace_emit.
    + eexists _, _, _, _. split; [reflexivity|].
      split; [by rewrite !trace_emit, <- app_assoc|]. done.
Qed.

(** X16: what scenario 6 times.  When the scenario returns, its events are:
    the creation of the base directory; the first clock reading; for each
    of the collision names, in the order the names were generated, the
    creation of a directory of that name under the base directory, each
    followed by the growth of the vector that takes the handle, which for
    the creation number [j], counted from 0, closes null [j] times when a
    vector of [j] elements is full, and by the destruction of the
    moved-from temporary, one more close of null; the second clock reading,
    and the line with [GetTime(1)] of the two readings; and then the closes
    of the directories, in the order of creation, and of the base
    directory.  The names are generated before the first reading. *)
Theorem Test6_times_the_insertions (w : World) (args : list string) (m : Machine) :
  let names := Test6_names (GetArg args 0 32000) in
  let run := Test6 w args m in
  let c0 := NtCreateDirectoryObjectEx (as_kernel_reads BaseNamedObjects_A)
              nullptr nullptr in
  match fst run with
  | Ok _ =>
      exists (st0 : NTSTATUS) (base : HANDLE) (t0 t1 : time_point)
             (outs : list (NTSTATUS * HANDLE)),
        length outs = length names
        /\ new_events m (snd run)
           = [EvSyscall c0 st0 base; EvClock t0]
               ++ Test6_rounds w 0 base names outs
               ++ [EvClock t1; EvPrintf (Line_f (GetTime_at {| m_start := t0 |} t1 1))]
               ++ (EvCloseHandle <$> (outs.*2 ++ [base]))
  | _ => True
  end.
Proof.
  cbv zeta. set (run := Test6 w args m).
  assert (Hrun : run = Test6 w args m) by done. clearbody run.
  unfold Test6 in Hrun. cbv zeta in Hrun. rewrite bind_run in Hrun.
  unfold CreateDirectory in Hrun. cbv zeta in Hrun.
  cbn [ObjectAttributes ObjectName RootDirectory] in Hrun.
  change (counted (UnicodeString BaseNamedObjects_A))
    with (as_kernel_reads BaseNamedObjects_A) in *.
  set (c0 := NtCreateDirectoryObjectEx _ nullptr nullptr) in *.
  set (names := Test6_names (GetArg args 0 32000)) in *.
  assert (Hbody : forall (st0 : NTSTATUS) (base : HANDLE) (m1 : Machine),
    trace m1 = trace m ++ [EvSyscall c0 st0 base] ->
    let run :=
      finally
        (run_block []
           (timer ← lift (Timer_new w);
            for_each names (Test6_insert w {| m_handle := base |});;
            t ← lift (GetTime w timer 1);
            lift (printf (Line_f t)))
           vector_dtor)
        (ScopedHandle_dtor {| m_handle := base |}) m1 in
    match fst run with
    | Ok _ =>
        exists (st0 : NTSTATUS) (base : HANDLE) (t0 t1 : time_point)
               (outs : list (NTSTATUS * HANDLE)),
          length outs = length names
          /\ new_events m (snd run)
             = [EvSyscall c0 st0 base; EvClock t0]
                 ++ Test6_rounds w 0 base names outs
                 ++ [EvClock t1;
                     EvPrintf (Line_f (GetTime_at {| m_start := t0 |} t1 1))]
                 ++ (EvCloseHandle <$> (outs.*2 ++ [base]))
    | _ => True
    end).
  { intros st0 base m1 Ht1. cbv zeta.
    unfold finally, run_block, Timer_new, GetTime, now, ScopedHandle_dtor, CloseHandle.
    cbv [mbind prog_bind mret prog_ret lift fst m_handle].
    set (t0 := clock w (steps m1)).
    destruct (Test6_loop_exact w {| m_handle := base |} names []
                (emit (EvClock t0) m1)) as (r & dirs' & m' & evs & -> & Ht & Hok).
    destruct r as [[]|ex|]; [|by destruct (vector_dtor dirs' m')
                             |by destruct (vector_dtor dirs' m')].
    destruct (Hok eq_refl) as (outs & Hlen & -> & Hh).
    set (t1 := clock w (steps m')). cbn [printf fst snd].
    destruct (vector_dtor_run dirs'
                (emit (EvPrintf (Line_f (GetTime_at {| m_start := t0 |} t1 1)))
                   (emit (EvClock t1) m'))) as (_ & Hd & _).
    destruct (vector_dtor dirs' _) as [rd m4]. cbn [fst snd] in *.
    exists st0, base, t0, t1, outs. split; [done|].
    apply new_events_app.
    change (m_handle <$> dirs') with (handles_of dirs') in Hd.
    rewrite trace_emit, Hd, !trace_emit, Ht, trace_emit, Ht1, Hh, !fmap_app.
    change (handles_of []) with (@nil HANDLE).
    change (get {| m_handle := base |}) with base.
    rewrite fmap_nil, app_nil_l, <- !app_assoc. done. }
  destruct (handle_call_cases w c0 m)
    as [(Hs & He & Hcall)|[(Hs & He & Hcall)|(Hs & He & Hcall)]];
    rewrite Hcall in Hrun; subst run.
  - apply (Hbody (nt_status w (steps m) c0)). by rewrite trace_issue, trace_emit.
  - apply (Hbody (nt_status w (steps m) c0)). by rewrite trace_emit.
  - done.
Qed.

(** X16 in [calm] with two names. *)
Lemma Test6_times_the_insertions_witness :
  let c0 := NtCreateDirectoryObjectEx (as_kernel_reads BaseNamedObjects_A)
              nullptr nullptr in
  exists (st0 : NTSTATUS) (base : HANDLE) (t0 t1 : time_point)
         (outs : list (NTSTATUS * HANDLE)),
    length outs = 2%nat
    /\ new_events boot (snd (Test6 calm ["2"]%string boot))
       = [EvSyscall c0 st0 base; EvClock t0]
           ++ Test6_rounds calm 0 base [[0; 0; 65]; [0; 65]] outs
           ++ [EvClock t1; EvPrintf (Line_f (GetTime_at {| m_start := t0 |} t1 1))]
           ++ (EvCloseHandle <$> (outs.*2 ++ [base])).
Proof. exact (Test6_times_the_insertions calm ["2"]%string boot). Defined.

(** ** The timed statement of scenario 5 *)

Lemma Test5_open_loop_exact (w : World) (base_dir_name : wstring)
    (base_dir : ScopedHandle) (fuel : nat) :
  forall (j : Z) (m : Machine),
  exists (r : Result unit) (m' : Machine) (evs : list Event),
    for_prog j fuel (Test5_open w base_dir_name base_dir) m = (r, m')
    /\ trace m' = trace m ++ evs
    /\ (r = Ok tt ->
        exists outs : list (NTSTATUS * HANDLE),
          length outs = fuel
          /\ evs = Test5_opens (get base_dir) base_dir_name outs).
Proof.
  induction fuel as [|fuel IH]; intros j m.
  - exists (Ok tt), m, []. cbn. rewrite app_nil_r.
    split; [done|]. split; [done|]. intros _. by exists [].
  - cbn [for_prog]. rewrite bind_run. unfold Test5_open at 1. rewrite bind_run.
    unfold OpenDirectory. cbv zeta. cbn [ObjectAttributes ObjectName RootDirectory].
    change (counted (UnicodeString base_dir_name))
      with (as_kernel_reads base_dir_name).
    set (c := NtOpenDirectoryObject _ _).
    assert (Hmore : forall (st : NTSTATUS) (h : HANDLE) (m1 : Machine),
      trace m1 = trace m ++ [EvSyscall c st h] ->
      exists (r : Result unit) (m' : Machine) (evs : list Event),
        for_prog (j + 1) fuel (Test5_open w base_dir_name base_dir)
          (emit (EvCloseHandle h) m1) = (r, m')
        /\ trace m' = trace m ++ evs
        /\ (r = Ok tt ->
            exists outs : list (NTSTATUS * HANDLE),
              length outs = S fuel
              /\ evs = Test5_opens (get base_dir) base_dir_name outs)).
    { intros st h m1 Ht1.
      destruct (IH (j + 1) (emit (EvCloseHandle h) m1)) as (r & m' & evs & -> & Ht & Hok).
      exists r, m', ([EvSyscall c st h; EvCloseHandle h] ++ evs).
      split; [done|]. split; [by rewrite Ht, trace_emit, Ht1, <- !app_assoc|].
      intros Hr. destruct (Hok Hr) as (outs & Hlen & ->).
      exists ((st, h) :: outs). split; [by cbn; rewrite Hlen|done]. }
    destruct (handle_call_cases w c m)
      as [(Hs & He & ->)|[(Hs & He & ->)|(Hs & He & ->)]];
      unfold ScopedHandle_dtor, CloseHandle; cbn [m_handle fst snd].
    + apply (Hmore (nt_status w (steps m) c)). by rewrite trace_issue, trace_emit.
    + apply (Hmore (nt_status w (steps m) c)). by rewrite trace_emit.
    + eexists _, _, _. split; [reflexivity|].
      split; [by rewrite !trace_emit, <- app_assoc|]. done.
Qed.

Lemma Test5_step_run (w : World) (iterations collision_count : Z)
    (base_dir_name : wstring) (base_dir : ScopedHandle) (i : Z)
    (dirs : list ScopedHandle) (m : Machine) :
  Test5_step w iterations collision_count base_dir_name base_dir i (dirs, m)
  = match CreateDirectory w (MakeCollisionName (collision_count - i))
            (get base_dir) nullptr m with
    | (Ok x, m1) =>
        (if decide (Z.rem i 500 = 0) then
           timer ← lift (Timer_new w);
           lift (for_prog 0 (Z.to_nat iterations)
                   (Test5_open w base_dir_name base_dir));;
           t ← lift (GetTime w timer iterations);
           lift (printf (Line_d_f i t))
         else mret tt)
          (dirs ++ [{| m_handle := m_handle x |}],
           emits (reallocation_closes w (length dirs) ++ [EvCloseHandle nullptr]) m1)
    | (Throw e, m1) => (Throw e, (dirs, m1))
    | (Undefined, m1) => (Undefined, (dirs, m1))
    end.
Proof.
  unfold Test5_step. cbv zeta.
  cbv [mbind prog_bind get_locals lift fst snd].
  destruct (CreateDirectory w (MakeCollisionName (collision_count - i))
              (get base_dir) nullptr m) as [[x|e|] m1]; [|reflexivity|reflexivity].
  rewrite push_temporary_run.
  cbv [mbind prog_bind mret prog_ret set_locals lift fst snd m_handle get].
  reflexivity.
Qed.

(** A sampled round of the loop of [Test5] that completes, event by
    event. *)
Lemma Test5_round_exact (w : World) (iterations collision_count : Z)
    (base_dir_name : wstring) (base_dir : ScopedHandle) (i : Z)
    (dirs : list ScopedHandle) (m : Machine) :
  sampled i ->
  let run :=
    Test5_step w iterations collision_count base_dir_name base_dir i (dirs, m) in
  let c :=
    NtCreateDirectoryObjectEx (as_kernel_reads (MakeCollisionName (collision_count - i)))
      (get base_dir) nullptr in
  match fst run with
  | Ok _ =>
      exists (st : NTSTATUS) (h : HANDLE) (t0 t1 : time_point)
             (outs : list (NTSTATUS * HANDLE)),
        length outs = Z.to_nat iterations
        /\ fst (snd run) = dirs ++ [{| m_handle := h |}]
        /\ new_events m (snd (snd run))
           = [EvSyscall c st h] ++ reallocation_closes w (length dirs)
               ++ [EvCloseHandle nullptr; EvClock t0]
               ++ Test5_opens (get base_dir) base_dir_name outs
               ++ [EvClock t1;
                   EvPrintf (Line_d_f i (GetTime_at {| m_start := t0 |} t1 iterations))]
  | _ => True
  end.
Proof.
  intros Hi. cbv zeta. rewrite Test5_step_run.
  unfold sampled in Hi. rewrite decide_True by done.
  unfold CreateDirectory. cbv zeta. cbn [ObjectAttributes ObjectName RootDirectory].
  change (counted (UnicodeString (MakeCollisionName (collision_count - i))))
    with (as_kernel_reads (MakeCollisionName (collision_count - i))).
  set (c := NtCreateDirectoryObjectEx _ _ nullptr).
  set (nulls := reallocation_closes w (length dirs) ++ [EvCloseHandle nullptr]).
  assert (Hbody : forall (st : NTSTATUS) (h : HANDLE) (m1 : Machine),
    trace m1 = trace m ++ [EvSyscall c st h] ->
    let run :=
      (timer ← lift (Timer_new w);
       lift (for_prog 0 (Z.to_nat iterations) (Test5_open w base_dir_name base_dir));;
       t ← lift (GetTime w timer iterations);
       lift (printf (Line_d_f i t)))
        (dirs ++ [{| m_handle := h |}], emits nulls m1) in
    match fst run with
    | Ok _ =>
        exists (st : NTSTATUS) (h : HANDLE) (t0 t1 : time_point)
               (outs : list (NTSTATUS * HANDLE)),
          length outs = Z.to_nat iterations
          /\ fst (snd run) = dirs ++ [{| m_handle := h |}]
          /\ new_events m (snd (snd run))
             = [EvSyscall c st h] ++ reallocation_closes w (length dirs)
                 ++ [EvCloseHandle nullptr; EvClock t0]
                 ++ Test5_opens (get base_dir) base_dir_name outs
                 ++ [EvClock t1;
                     EvPrintf
                       (Line_d_f i (GetTime_at {| m_start := t0 |} t1 iterations))]
    | _ => True
    end).
  { intros st h m1 Ht1. cbv zeta. unfold Timer_new, GetTime, now.
    cbv [mbind prog_bind mret prog_ret lift fst snd].
    set (m2 := emits nulls m1).
    set (t0 := clock w (steps m2)).
    destruct (Test5_open_loop_exact w base_dir_name base_dir (Z.to_nat iterations) 0
                (emit (EvClock t0) m2)) as (r & m' & evs & -> & Ht & Hok).
    destruct r as [[]|ex|]; [|done|done].
    destruct (Hok eq_refl) as (outs & Hlen & ->).
    set (t1 := clock w (steps m')). cbn [printf fst snd].
    exists st, h, t0, t1, outs. split; [done|]. split; [done|].
    apply new_events_app.
    rewrite !trace_emit, Ht, trace_emit. unfold m2, nulls.
    rewrite trace_emits, Ht1, <- !app_assoc. done. }
  destruct (handle_call_cases w c m)
    as [(Hs & He & ->)|[(Hs & He & ->)|(Hs & He & ->)]]; cbn [m_handle].
  - apply (Hbody (nt_status w (steps m) c)). by rewrite trace_issue, trace_emit.
  - apply (Hbody (nt_status w (steps m) c)). by rewrite trace_emit.
  - done.
Qed.

(** X17: what scenario 5 times.  A sampled round of its loop that completes
    consists of: the creation of the directory of the round, with the growth
    of the vector that takes its handle, which closes null once for each of
    its elements when it is full, and with the destruction of the moved-from
    temporary; the first clock reading; [iterations] opens of the longest
    collision name under the base directory, each followed at once by the
    close of the handle it returned; the second clock reading, and the line
    with the index and [GetTime(iterations)] of the two readings.  So the
    closes of the opened handles are part of what is timed, and the vector
    is not.  When the vector is empty or has room for the handle, the
    creation is followed by the destruction of the temporary alone. *)
Theorem Test5_times_open_and_close (w : World) (iterations collision_count : Z)
    (base_dir_name : wstring) (base_dir : ScopedHandle) (i : Z)
    (dirs : list ScopedHandle) (m : Machine) :
  sampled i ->
  let run :=
    Test5_step w iterations collision_count base_dir_name base_dir i (dirs, m) in
  let c :=
    NtCreateDirectoryObjectEx (as_kernel_reads (MakeCollisionName (collision_count - i)))
      (get base_dir) nullptr in
  match fst run with
  | Ok _ =>
      exists (st : NTSTATUS) (h : HANDLE) (t0 t1 : time_point)
             (outs : list (NTSTATUS * HANDLE)),
        length outs = Z.to_nat iterations
        /\ fst (snd run) = dirs ++ [{| m_handle := h |}]
        /\ new_events m (snd (snd run))
           = [EvSyscall c st h] ++ reallocation_closes w (length dirs)
               ++ [EvCloseHandle nullptr; EvClock t0]
               ++ Test5_opens (get base_dir) base_dir_name outs
               ++ [EvClock t1;
                   EvPrintf (Line_d_f i (GetTime_at {| m_start := t0 |} t1 iterations))]
        /\ (dirs = [] \/ vector_full w (length dirs) = false ->
            new_events m (snd (snd run))
            = [EvSyscall c st h; EvCloseHandle nullptr; EvClock t0]
                ++ Test5_opens (get base_dir) base_dir_name outs
                ++ [EvClock t1;
                    EvPrintf (Line_d_f i (GetTime_at {| m_start := t0 |} t1 iterations))])
  | _ => True
  end.
Proof.
  intros Hi. cbv zeta.
  pose proof (Test5_round_exact w iterations collision_count base_dir_name base_dir i
                dirs m Hi) as Hround.
  cbv zeta in Hround.
  destruct (fst (Test5_step w iterations collision_count base_dir_name base_dir i
                   (dirs, m))); [|done|done].
  destruct Hround as (st & h & t0 & t1 & outs & Hlen & Hdirs & Hevs).
  exists st, h, t0, t1, outs. split; [done|]. split; [done|]. split; [done|].
  intros Hroom. rewrite Hevs.
  assert (reallocation_closes w (length dirs) = []) as ->; [|done].
  unfold reallocation_closes. destruct Hroom as [-> | ->]; [|done].
  by destruct (vector_full w (length [])).
Qed.

(** X17 in [calm]: the first round with two iterations. *)
Lemma Test5_times_open_and_close_witness :
  sampled 0
  /\ exists (st : NTSTATUS) (h : HANDLE) (t0 t1 : time_point)
            (outs : list (NTSTATUS * HANDLE)),
       length outs = 2%nat
       /\ new_events boot
            (snd (snd (Test5_step calm 2 3 (MakeCollisionName 3) {| m_handle := 4 |} 0
                         ([], boot))))
          = [EvSyscall (NtCreateDirectoryObjectEx [0; 0; 0; 65] 4 nullptr) st h;
             EvCloseHandle nullptr; EvClock t0]
              ++ Test5_opens 4 (MakeCollisionName 3) outs
              ++ [EvClock t1;
                  EvPrintf (Line_d_f 0 (GetTime_at {| m_start := t0 |} t1 2))].
Proof.
  assert (Hs : sampled 0) by done. split; [exact Hs|].
  destruct (Test5_times_open_and_close calm 2 3 (MakeCollisionName 3)
              {| m_handle := 4 |} 0 [] boot Hs)
    as (st & h & t0 & t1 & outs & Hlen & _ & _ & Hevs).
  exists st, h, t0, t1, outs. split; [exact Hlen|]. apply Hevs. by left.
Defined.
